(** * gdrive-book-manager: storage core, metadata merge and Calibre migration

  A shallow embedding of the TypeScript sources
  - [src/services/drive.ts]      (property codec, file-name helpers),
  - [src/services/cache.ts]      (CacheService),
  - [src/services/metadata.ts]   (CompositeMetadataService),
  - [src/services/book.ts]       (BookService),
  - [src/services/drive_mock.ts] (MockGoogleDriveService),
  - [scripts/migrate_calibre.ts] (CalibreMigrator),
  - [src/routes/opds.ts]         (escapeXml),
  together with the properties the specification states about them and
  further properties of the code itself.

  JavaScript strings are sequences of UTF-16 code units and are modelled
  as [list Z]; a [Uint8Array] is a [list Z] of bytes.  Asynchronous,
  fallible operations on the outside world are modelled in a state and
  exception monad. *)

From Stdlib Require Import ZArith Lia List Bool Ascii String DecimalString DecimalNat.
From Stdlib Require Import QArith_base Qround.
From stdpp Require Import base option list gmap fin_maps.

Set Default Proof Using "Type".
Local Open Scope Z_scope.

(** ** JavaScript strings *)

Module JS.

(** A string is its list of UTF-16 code units, a byte array its list of
    bytes. *)
Abbreviation jsstring := (list Z).
Abbreviation bytes := (list Z).

Definition code_unit (u : Z) : Prop := 0 <= u <= 0xFFFF.
Definition wf_string (s : jsstring) : Prop := Forall code_unit s.

(** An ASCII literal as a JavaScript string. *)
Definition lit (s : string) : jsstring :=
  map (fun a => Z.of_N (N_of_ascii a)) (list_ascii_of_string s).

(** [a === b] on strings. *)
Definition eqb (a b : jsstring) : bool := bool_decide (a = b).

(** A string is truthy when it is not empty. *)
Definition truthy (s : jsstring) : bool :=
  match s with [] => false | _ :: _ => true end.

(** [a || b] on strings. *)
Definition or (a b : jsstring) : jsstring := if truthy a then a else b.

(** [s.startsWith(p)]. *)
Fixpoint startsWith (s p : jsstring) : bool :=
  match p, s with
  | [], _ => true
  | _ :: _, [] => false
  | c :: p', d :: s' => (c =? d) && startsWith s' p'
  end.

(** [s.endsWith(p)]. *)
Definition endsWith (s p : jsstring) : bool := startsWith (rev s) (rev p).

(** [s.split(sep)] for a separator of one code unit. *)
Fixpoint split (sep : Z) (s : jsstring) : list jsstring :=
  match s with
  | [] => [[]]
  | c :: s' =>
      if c =? sep then [] :: split sep s'
      else match split sep s' with
           | [] => [[c]]
           | w :: ws => (c :: w) :: ws
           end
  end.

(** White space and line terminators, as [String.prototype.trim] strips
    them. *)
Definition is_space (c : Z) : bool :=
  (c =? 9) || (c =? 10) || (c =? 11) || (c =? 12) || (c =? 13) ||
  (c =? 32) || (c =? 160) || (c =? 0x1680) ||
  ((0x2000 <=? c) && (c <=? 0x200A)) ||
  (c =? 0x2028) || (c =? 0x2029) || (c =? 0x202F) || (c =? 0x205F) ||
  (c =? 0x3000) || (c =? 0xFEFF).

Fixpoint trimStart (s : jsstring) : jsstring :=
  match s with
  | c :: s' => if is_space c then trimStart s' else s
  | [] => []
  end.

Definition trim (s : jsstring) : jsstring :=
  rev (trimStart (rev (trimStart s))).

(** Decimal rendering of a non-negative integer, [String(n)]. *)
Definition ofNat (n : nat) : jsstring :=
  lit (NilEmpty.string_of_uint (Nat.to_uint n)).

End JS.

(** ** UTF-8: [TextEncoder] and [TextDecoder] *)

Module Utf8.
Import JS.

Definition is_high_surrogate (u : Z) : bool := (0xD800 <=? u) && (u <=? 0xDBFF).
Definition is_low_surrogate (u : Z) : bool := (0xDC00 <=? u) && (u <=? 0xDFFF).

(** Conversion of a string to its scalar values: a surrogate pair is one
    code point, a lone surrogate becomes U+FFFD. *)
Fixpoint to_scalar_values (s : jsstring) : list Z :=
  match s with
  | [] => []
  | u :: rest =>
      if is_high_surrogate u then
        match rest with
        | l :: rest' =>
            if is_low_surrogate l
            then (0x10000 + (u - 0xD800) * 0x400 + (l - 0xDC00)) :: to_scalar_values rest'
            else 0xFFFD :: to_scalar_values rest
        | [] => [0xFFFD]
        end
      else if is_low_surrogate u then 0xFFFD :: to_scalar_values rest
      else u :: to_scalar_values rest
  end.

(** The UTF-8 bytes of one code point. *)
Definition encode_code_point (c : Z) : bytes :=
  if c <=? 0x7F then [c]
  else if c <=? 0x7FF then
    [Z.shiftr c 6 + 0xC0; Z.lor 0x80 (Z.land c 0x3F)]
  else if c <=? 0xFFFF then
    [Z.shiftr c 12 + 0xE0;
     Z.lor 0x80 (Z.land (Z.shiftr c 6) 0x3F);
     Z.lor 0x80 (Z.land c 0x3F)]
  else
    [Z.shiftr c 18 + 0xF0;
     Z.lor 0x80 (Z.land (Z.shiftr c 12) 0x3F);
     Z.lor 0x80 (Z.land (Z.shiftr c 6) 0x3F);
     Z.lor 0x80 (Z.land c 0x3F)].

Definition encode_code_points (cs : list Z) : bytes :=
  flat_map encode_code_point cs.

(** [new TextEncoder().encode(s)]. *)
Definition encode (s : jsstring) : bytes :=
  encode_code_points (to_scalar_values s).

(** What the decoder emits: a code point, or a decoding error (which
    [TextDecoder] replaces by U+FFFD). *)
Inductive item : Type :=
| CodePoint (c : Z)
| Malformed.

(** State of the UTF-8 decoder between two bytes. *)
Record dstate : Type := DState {
  code_point : Z;
  bytes_seen : Z;
  bytes_needed : Z;
  lower_boundary : Z;
  upper_boundary : Z;
}.

Definition dinit : dstate := DState 0 0 0 0x80 0xBF.

(** The decoder on a byte when no bytes are needed. *)
Definition lead (b : Z) : list item * dstate :=
  if (0 <=? b) && (b <=? 0x7F) then ([CodePoint b], dinit)
  else if (0xC2 <=? b) && (b <=? 0xDF) then
    ([], DState (Z.land b 0x1F) 0 1 0x80 0xBF)
  else if (0xE0 <=? b) && (b <=? 0xEF) then
    ([], DState (Z.land b 0xF) 0 2
                (if b =? 0xE0 then 0xA0 else 0x80)
                (if b =? 0xED then 0x9F else 0xBF))
  else if (0xF0 <=? b) && (b <=? 0xF4) then
    ([], DState (Z.land b 0x7) 0 3
                (if b =? 0xF0 then 0x90 else 0x80)
                (if b =? 0xF4 then 0x8F else 0xBF))
  else ([Malformed], dinit).

(** The decoder run over a byte sequence.  A byte outside the expected
    range ends the sequence with an error and is then read again as a
    lead byte. *)
Fixpoint decode_from (st : dstate) (bs : bytes) : list item :=
  match bs with
  | [] => if bytes_needed st =? 0 then [] else [Malformed]
  | b :: rest =>
      if bytes_needed st =? 0 then
        let '(out, st') := lead b in out ++ decode_from st' rest
      else if (lower_boundary st <=? b) && (b <=? upper_boundary st) then
        let cp := Z.lor (Z.shiftl (code_point st) 6) (Z.land b 0x3F) in
        let seen := bytes_seen st + 1 in
        if seen =? bytes_needed st
        then CodePoint cp :: decode_from dinit rest
        else decode_from (DState cp seen (bytes_needed st) 0x80 0xBF) rest
      else
        let '(out, st') := lead b in
        Malformed :: out ++ decode_from st' rest
  end.

Definition decode_items (bs : bytes) : list item := decode_from dinit bs.

Definition item_code_point (i : item) : Z :=
  match i with CodePoint c => c | Malformed => 0xFFFD end.

(** A leading U+FEFF is dropped ([ignoreBOM] is false by default). *)
Definition strip_bom (cs : list Z) : list Z :=
  match cs with
  | c :: rest => if c =? 0xFEFF then rest else cs
  | [] => []
  end.

(** The UTF-16 code units of one code point. *)
Definition code_units_of (c : Z) : jsstring :=
  if c <=? 0xFFFF then [c]
  else [0xD800 + Z.shiftr (c - 0x10000) 10;
        0xDC00 + Z.land (c - 0x10000) 0x3FF].

Definition of_code_points (cs : list Z) : jsstring := flat_map code_units_of cs.

(** Unicode scalar values: code points outside the surrogate range. *)
Definition scalar (c : Z) : Prop :=
  0 <= c <= 0xD7FF \/ 0xE000 <= c <= 0x10FFFF.

(** A byte of the form [10xxxxxx]. *)
Definition continuation (b : Z) : Prop := 0x80 <= b <= 0xBF.

(** [new TextDecoder().decode(bs)]. *)
Definition decode (bs : bytes) : jsstring :=
  of_code_points (strip_bom (map item_code_point (decode_items bs))).

End Utf8.

(** ** Property sanitising ([drive.ts]) *)

Module Drive.
Import JS.

Definition PROPERTY_MAX_BYTES : Z := 124.

(** [encoded[i] & mask]; reading past the end gives [undefined], and
    [undefined & mask] is [0]. *)
Definition and_at (encoded : bytes) (i : nat) (mask : Z) : Z :=
  match encoded !! i with
  | Some b => Z.land b mask
  | None => 0
  end.

(** The [while (end > 0 && (encoded[end] & 0xC0) === 0x80) end--] loop. *)
Fixpoint walk_back (encoded : bytes) (end_ : nat) : nat :=
  match end_ with
  | O => O
  | S e => if and_at encoded end_ 0xC0 =? 0x80 then walk_back encoded e else end_
  end.

(** [truncateToBytes(str, maxBytes)].  [maxBytes] is always a
    non-negative integer at the only call site. *)
Definition truncateToBytes (str : jsstring) (maxBytes : nat) : jsstring :=
  let encoded := Utf8.encode str in
  if (length encoded <=? maxBytes)%nat then str
  else Utf8.decode (take (walk_back encoded maxBytes) encoded).

Definition maxValueBytes (key : jsstring) : nat :=
  let keyBytes := Z.of_nat (length (Utf8.encode key)) in
  Z.to_nat (Z.max 0 (PROPERTY_MAX_BYTES - keyBytes)).

(** [sanitizeProperties(properties)]: every entry is rewritten under
    its own key. *)
Definition sanitizeProperties (properties : gmap (list Z) (list Z))
  : gmap (list Z) (list Z) :=
  map_imap (fun key value => Some (truncateToBytes value (maxValueBytes key)))
           properties.

End Drive.

(** ** Asynchronous, fallible operations *)

Module Eff.

(** The outcome of an awaited call: a value, or a thrown error.  A thrown
    value is represented by its message ([e.message], or [String(e)] when
    it is not an [Error]). *)
Inductive Result (A : Type) : Type :=
| Ok (a : A)
| Throw (e : list Z).
Arguments Ok {A} a.
Arguments Throw {A} e.

(** A computation over a state [S]: the state it leaves is kept also when
    it throws. *)
Definition M (S A : Type) : Type := S -> Result A * S.

Definition ret {S A : Type} (a : A) : M S A := fun s => (Ok a, s).

Definition throw {S A : Type} (e : list Z) : M S A := fun s => (Throw e, s).

Definition bind {S A B : Type} (m : M S A) (f : A -> M S B) : M S B :=
  fun s =>
    match m s with
    | (Ok a, s') => f a s'
    | (Throw e, s') => (Throw e, s')
    end.

(** [try { m } catch (e) { h e }]. *)
Definition try_catch {S A : Type} (m : M S A) (h : list Z -> M S A) : M S A :=
  fun s =>
    match m s with
    | (Ok a, s') => (Ok a, s')
    | (Throw e, s') => h e s'
    end.

(** An operation on one component of a pair of states. *)
Definition liftL {S1 S2 A : Type} (m : M S1 A) : M (S1 * S2) A :=
  fun s => let '(r, s1) := m s.1 in (r, (s1, s.2)).

Definition liftR {S1 S2 A : Type} (m : M S2 A) : M (S1 * S2) A :=
  fun s => let '(r, s2) := m s.2 in (r, (s.1, s2)).

(** A state update that cannot fail. *)
Definition modify {S : Type} (f : S -> S) : M S unit := fun s => (Ok tt, f s).

End Eff.

Export Eff.

(** [let* x := await m in k]. *)
Notation "'let*' x ':=' m 'in' k" := (bind m (fun x => k))
  (at level 10, x pattern, m at level 200, k at level 200).

(** ** Book metadata ([types.ts]) *)

Module BookMetadata.
Record t : Type := Build {
  isbn : list Z;
  title : list Z;
  authors : list Z;
  publisher : list Z;
  publishedDate : list Z;
  description : list Z;
  coverImageUrl : list Z;
}.
End BookMetadata.

(** [Partial<BookMetadata>]: every field may be [undefined]. *)
Module PartialMetadata.
Record t : Type := Build {
  isbn : option (list Z);
  title : option (list Z);
  authors : option (list Z);
  publisher : option (list Z);
  publishedDate : option (list Z);
  description : option (list Z);
  coverImageUrl : option (list Z);
}.
Definition empty : t := Build None None None None None None None.
End PartialMetadata.

(** The [BookMetadataService] interface. *)
Module BookMetadataService.
Record t (W : Type) : Type := Build {
  fetchByIsbn : list Z -> M W (option BookMetadata.t);
}.
Arguments Build {W} _.
Arguments fetchByIsbn {W} _ _ _.
End BookMetadataService.

(** ** [CompositeMetadataService] (field-level merge with early exit) *)

Module CompositeMetadataService.
Import BookMetadata.

Definition merge (primary secondary : BookMetadata.t) : BookMetadata.t :=
  {| isbn := isbn primary;
     title := title primary;
     authors := JS.or (authors primary) (authors secondary);
     publisher := JS.or (publisher primary) (publisher secondary);
     publishedDate := JS.or (publishedDate primary) (publishedDate secondary);
     description := JS.or (description primary) (description secondary);
     coverImageUrl := JS.or (coverImageUrl primary) (coverImageUrl secondary) |}.

Definition isComplete (metadata : BookMetadata.t) : bool :=
  JS.truthy (authors metadata) &&
  JS.truthy (publisher metadata) &&
  JS.truthy (publishedDate metadata) &&
  JS.truthy (description metadata) &&
  JS.truthy (coverImageUrl metadata).

(** The five fill-candidate fields. *)
Definition fillFields : list (BookMetadata.t -> list Z) :=
  [authors; publisher; publishedDate; description; coverImageUrl].

(** The [for (const service of this.services)] loop, started with the
    current value of [result]. *)
Fixpoint loop {W : Type} (services : list (BookMetadataService.t W))
    (isbn : list Z) (result : option BookMetadata.t)
  : M W (option BookMetadata.t) :=
  match services with
  | [] => ret result
  | service :: rest =>
      fun w =>
        match BookMetadataService.fetchByIsbn service isbn w with
        | (Throw _, w') => loop rest isbn result w'
        | (Ok None, w') => loop rest isbn result w'
        | (Ok (Some current), w') =>
            let result' :=
              match result with
              | None => current
              | Some r => merge r current
              end in
            if isComplete result' then (Ok (Some result'), w')
            else loop rest isbn (Some result') w'
        end
  end.

Definition fetchByIsbn {W : Type} (services : list (BookMetadataService.t W))
    (isbn : list Z) : M W (option BookMetadata.t) :=
  loop services isbn None.

(** The loop goes on only with an accumulator that is absent or
    incomplete. *)
Definition openAccumulator (acc : option BookMetadata.t) : Prop :=
  match acc with
  | None => True
  | Some a => isComplete a = false
  end.

(** The composite is itself a [BookMetadataService]. *)
Definition service {W : Type} (services : list (BookMetadataService.t W))
  : BookMetadataService.t W :=
  BookMetadataService.Build (fetchByIsbn services).

End CompositeMetadataService.

(** The other revision of [CompositeMetadataService] kept in the
    repository ([src/services/metadata.ts]): the first non-null result is
    returned as it is, and a failing source is not caught. *)
Module FirstHitMetadataService.

Fixpoint fetchByIsbn {W : Type} (services : list (BookMetadataService.t W))
    (isbn : list Z) : M W (option BookMetadata.t) :=
  match services with
  | [] => ret None
  | service :: rest =>
      let* result := BookMetadataService.fetchByIsbn service isbn in
      match result with
      | Some r => ret (Some r)
      | None => fetchByIsbn rest isbn
      end
  end.

End FirstHitMetadataService.

(** A source that records each call made to it, as the tests'
    [TrackingMockService] counts its calls: the index [i] is logged before
    the wrapped source runs. *)
Definition tracking {W : Type} (i : nat) (svc : BookMetadataService.t W)
  : BookMetadataService.t (W * list nat) :=
  BookMetadataService.Build (fun isbn s =>
    let '(r, w') := BookMetadataService.fetchByIsbn svc isbn s.1 in
    (r, (w', s.2 ++ [i]))).

(** The sources of a composite, each recording its position in the
    priority order, counted from [from]. *)
Fixpoint tracked {W : Type} (from : nat) (services : list (BookMetadataService.t W))
  : list (BookMetadataService.t (W * list nat)) :=
  match services with
  | [] => []
  | svc :: rest => tracking from svc :: tracked (S from) rest
  end.

(** A source that answers every ISBN with the same result, as the tests'
    mock sources do. *)
Definition constantService {W : Type} (result : option BookMetadata.t)
  : BookMetadataService.t W :=
  BookMetadataService.Build (fun _ => ret result).

(** A source that always throws. *)
Definition throwingService {W : Type} : BookMetadataService.t W :=
  BookMetadataService.Build (fun _ => throw (JS.lit "Service error")).

(** ** File-name helpers ([drive.ts]) *)

Module FileName.

(** `[${authors}] ${title}.${extension}` *)
Definition formatFileName (authors title extension : list Z) : list Z :=
  JS.lit "[" ++ authors ++ JS.lit "] " ++ title ++ JS.lit "." ++ extension.

(** Authors are separated by hyphens. *)
Definition getFirstAuthor (authors : list Z) : list Z :=
  JS.trim (hd [] (JS.split 45 authors)).

Definition getExtension (mimeType : list Z) : list Z :=
  if JS.eqb mimeType (JS.lit "application/epub+zip") then JS.lit "epub"
  else if JS.eqb mimeType (JS.lit "application/pdf") then JS.lit "pdf"
  else default [] (last (JS.split 47 mimeType)).

End FileName.

(** ** [CacheService] ([cache.ts]) *)

Module CacheService.

Record CacheEntry (T : Type) : Type := Entry {
  data : T;
  expiry : Z;
}.
Arguments Entry {T} _ _.
Arguments data {T} _.
Arguments expiry {T} _.

Record t (T : Type) : Type := Build {
  cache : gmap (list Z) (CacheEntry T);
  ttl : Z;
}.
Arguments Build {T} _ _.
Arguments cache {T} _.
Arguments ttl {T} _.

Definition DEFAULT_TTL : Z := 60 * 60 * 1000.

Definition create {T : Type} (ttlMs : Z) : t T := Build ∅ ttlMs.

(** [get(key)]; [now] is the value of [Date.now()]. *)
Definition get {T : Type} (now : Z) (key : list Z) (c : t T) : option T * t T :=
  match cache c !! key with
  | None => (None, c)
  | Some entry =>
      if expiry entry <? now then (None, Build (delete key (cache c)) (ttl c))
      else (Some (data entry), c)
  end.

Definition set {T : Type} (now : Z) (key : list Z) (d : T) (c : t T) : t T :=
  Build (<[key := Entry d (now + ttl c)]> (cache c)) (ttl c).

Definition invalidate {T : Type} (key : list Z) (c : t T) : t T :=
  Build (delete key (cache c)) (ttl c).

Definition invalidateAll {T : Type} (c : t T) : t T := Build ∅ (ttl c).

(** Every key that starts with [prefix] is deleted. *)
Definition invalidateByPrefix {T : Type} (prefix : list Z) (c : t T) : t T :=
  Build (filter (fun kv => JS.startsWith kv.1 prefix = false) (cache c)) (ttl c).

Definition has {T : Type} (now : Z) (key : list Z) (c : t T) : bool * t T :=
  match cache c !! key with
  | None => (false, c)
  | Some entry =>
      if expiry entry <? now then (false, Build (delete key (cache c)) (ttl c))
      else (true, c)
  end.

Definition size {T : Type} (c : t T) : nat := base.size (cache c).

End CacheService.

(** ** Drive files and the [GoogleDriveService] interface ([types.ts]) *)

Module DriveFile.
Record t : Type := Build {
  id : list Z;
  name : list Z;
  mimeType : list Z;
  properties : gmap (list Z) (list Z);
  parents : list (list Z);
  webContentLink : option (list Z);
  thumbnailLink : option (list Z);
  size : option (list Z);
}.
End DriveFile.

Module DriveFileList.
Record t : Type := Build {
  files : list DriveFile.t;
  nextPageToken : option (list Z);
}.
End DriveFileList.

(** The operations of [GoogleDriveService] used by [BookService] and by
    the migrator, over the state [W] of the store behind them. *)
Module GoogleDriveService.
Record t (W : Type) : Type := Build {
  ensureMyLibraryFolder : M W (list Z);
  ensureAuthorFolder : list Z -> list Z -> M W (list Z);
  uploadFile :
    list Z -> list Z -> list Z -> list Z -> gmap (list Z) (list Z) -> M W DriveFile.t;
  uploadCoverImage : list Z -> list Z -> list Z -> list Z -> M W DriveFile.t;
  updateFileProperties : list Z -> gmap (list Z) (list Z) -> M W DriveFile.t;
  renameFile : list Z -> list Z -> M W DriveFile.t;
  moveFile : list Z -> list Z -> list Z -> M W DriveFile.t;
  getFile : list Z -> M W DriveFile.t;
  getFileContent : list Z -> M W (list Z);
  deleteFile : list Z -> M W unit;
  findBookByIsbn : list Z -> M W (option DriveFile.t);
  findFilesByParent : list Z -> M W (list DriveFile.t);
}.
Arguments Build {W}.
Arguments ensureMyLibraryFolder {W}.
Arguments ensureAuthorFolder {W}.
Arguments uploadFile {W}.
Arguments uploadCoverImage {W}.
Arguments updateFileProperties {W}.
Arguments renameFile {W}.
Arguments moveFile {W}.
Arguments getFile {W}.
Arguments getFileContent {W}.
Arguments deleteFile {W}.
Arguments findBookByIsbn {W}.
Arguments findFilesByParent {W}.
End GoogleDriveService.

(** The result of the global [fetch]. *)
Module Response.
Record t (W : Type) : Type := Build {
  ok : bool;
  arrayBuffer : M W (list Z);
}.
Arguments Build {W}.
Arguments ok {W}.
Arguments arrayBuffer {W}.
End Response.

(** Property keys of the domain schema. *)
Module Key.
Definition app_type : list Z := JS.lit "app_type".
Definition isbn : list Z := JS.lit "isbn".
Definition title : list Z := JS.lit "title".
Definition authors : list Z := JS.lit "authors".
Definition publisher : list Z := JS.lit "publisher".
Definition published_date : list Z := JS.lit "published_date".
Definition description : list Z := JS.lit "description".
Definition cover_file_id : list Z := JS.lit "cover_file_id".
End Key.

(** ** [BookService] ([book.ts]) *)

Module BookService.

Definition CACHE_KEY_LIST : list Z := JS.lit "books:list".
Definition CACHE_KEY_SEARCH_PREFIX : list Z := JS.lit "books:search:".

(** What a [BookService] is constructed from, and the global [fetch] it
    uses for cover images.  Its cache is part of the state. *)
Record t (W : Type) : Type := Build {
  driveService : GoogleDriveService.t W;
  metadataService : BookMetadataService.t W;
  fetch : list Z -> M W (Response.t W);
}.
Arguments Build {W}.
Arguments driveService {W}.
Arguments metadataService {W}.
Arguments fetch {W}.

(** The state a [BookService] acts on: the outside world and its cache. *)
Abbreviation State W := (W * CacheService.t DriveFileList.t)%type.

(** [a || b] where [a] may be [undefined]. *)
Definition or_undefined (a : option (list Z)) (b : list Z) : list Z :=
  match a with
  | Some s => JS.or s b
  | None => b
  end.

(** Truthiness of a value that may be [undefined]. *)
Definition truthy_undefined (a : option (list Z)) : bool :=
  match a with
  | Some s => JS.truthy s
  | None => false
  end.

Section Methods.
Context {W : Type} (this : t W).

Definition invalidateListCache : M (State W) unit :=
  liftR (modify (fun c =>
    CacheService.invalidateByPrefix CACHE_KEY_SEARCH_PREFIX
      (CacheService.invalidateByPrefix CACHE_KEY_LIST c))).

Definition fetchMetadata (isbn : list Z) : M (State W) (option BookMetadata.t) :=
  liftL (BookMetadataService.fetchByIsbn (metadataService this) isbn).

Definition fetchCoverImage (url : list Z) : M (State W) (option (list Z)) :=
  try_catch
    (let* res := liftL (fetch this url) in
     if negb (Response.ok res) then ret None
     else
       let* buffer := liftL (Response.arrayBuffer res) in
       ret (Some buffer))
    (fun _ => ret None).

Definition registerBook (metadata : BookMetadata.t) (fileContent : list Z)
    (fileMimeType : list Z) : M (State W) DriveFile.t :=
  let drive := driveService this in
  let* myLibraryId := liftL (GoogleDriveService.ensureMyLibraryFolder drive) in
  let firstAuthor := FileName.getFirstAuthor (BookMetadata.authors metadata) in
  let* authorFolderId :=
    liftL (GoogleDriveService.ensureAuthorFolder drive myLibraryId firstAuthor) in
  let extension := FileName.getExtension fileMimeType in
  let fileName :=
    FileName.formatFileName (BookMetadata.authors metadata)
                            (BookMetadata.title metadata) extension in
  let properties0 : gmap (list Z) (list Z) :=
    <[Key.published_date := JS.or (BookMetadata.publishedDate metadata) []]>
    (<[Key.publisher := JS.or (BookMetadata.publisher metadata) []]>
    (<[Key.authors := BookMetadata.authors metadata]>
    (<[Key.title := BookMetadata.title metadata]>
    (<[Key.isbn := JS.or (BookMetadata.isbn metadata) []]>
    (<[Key.app_type := JS.lit "my_library_book"]> ∅))))) in
  let properties :=
    if JS.truthy (BookMetadata.description metadata)
    then <[Key.description := BookMetadata.description metadata]> properties0
    else properties0 in
  let* file :=
    liftL (GoogleDriveService.uploadFile drive authorFolderId fileName
             fileContent fileMimeType properties) in
  let* file' :=
    if JS.truthy (BookMetadata.coverImageUrl metadata) then
      try_catch
        (let* coverData := fetchCoverImage (BookMetadata.coverImageUrl metadata) in
         match coverData with
         | Some coverData =>
             let coverFileName :=
               JS.lit "cover_" ++ DriveFile.id file ++ JS.lit ".jpg" in
             let* coverFile :=
               liftL (GoogleDriveService.uploadCoverImage drive authorFolderId
                        coverFileName coverData (JS.lit "image/jpeg")) in
             let* _ :=
               liftL (GoogleDriveService.updateFileProperties drive
                        (DriveFile.id file)
                        (<[Key.cover_file_id := DriveFile.id coverFile]> properties)) in
             ret (DriveFile.Build
                    (DriveFile.id file) (DriveFile.name file)
                    (DriveFile.mimeType file)
                    (<[Key.cover_file_id := DriveFile.id coverFile]>
                       (DriveFile.properties file))
                    (DriveFile.parents file) (DriveFile.webContentLink file)
                    (DriveFile.thumbnailLink file) (DriveFile.size file))
         | None => ret file
         end)
        (fun _ => ret file)
    else ret file in
  let* _ := invalidateListCache in
  ret file'.

Definition getBook (fileId : list Z) : M (State W) DriveFile.t :=
  liftL (GoogleDriveService.getFile (driveService this) fileId).

Definition downloadBook (fileId : list Z) : M (State W) (list Z * DriveFile.t) :=
  let* file := liftL (GoogleDriveService.getFile (driveService this) fileId) in
  let* content :=
    liftL (GoogleDriveService.getFileContent (driveService this) fileId) in
  ret (content, file).

Definition deleteBook (fileId : list Z) : M (State W) unit :=
  let drive := driveService this in
  let* file := liftL (GoogleDriveService.getFile drive fileId) in
  let* _ :=
    match DriveFile.properties file !! Key.cover_file_id with
    | Some coverId =>
        if JS.truthy coverId
        then try_catch (liftL (GoogleDriveService.deleteFile drive coverId))
                       (fun _ => ret tt)
        else ret tt
    | None => ret tt
    end in
  let* _ := liftL (GoogleDriveService.deleteFile drive fileId) in
  invalidateListCache.

(** The property map [updateBook] sends to the store. *)
Definition updatedProperties (existing : gmap (list Z) (list Z))
    (metadata : PartialMetadata.t) : gmap (list Z) (list Z) :=
  let p1 := match PartialMetadata.title metadata with
            | Some v => <[Key.title := v]> existing
            | None => existing
            end in
  let p2 := match PartialMetadata.authors metadata with
            | Some v => <[Key.authors := v]> p1
            | None => p1
            end in
  let p3 := match PartialMetadata.publisher metadata with
            | Some v => <[Key.publisher := v]> p2
            | None => p2
            end in
  match PartialMetadata.publishedDate metadata with
  | Some v => <[Key.published_date := v]> p3
  | None => p3
  end.

(** [existingFile.name.split(".").pop() || "epub"] *)
Definition currentExtension (existingFile : DriveFile.t) : list Z :=
  or_undefined (last (JS.split 46 (DriveFile.name existingFile))) (JS.lit "epub").

(** The file name [updateBook] computes. *)
Definition newFileName (existingFile : DriveFile.t) (metadata : PartialMetadata.t)
  : list Z :=
  let title :=
    or_undefined (PartialMetadata.title metadata)
      (or_undefined (DriveFile.properties existingFile !! Key.title) []) in
  let authors :=
    or_undefined (PartialMetadata.authors metadata)
      (or_undefined (DriveFile.properties existingFile !! Key.authors) []) in
  FileName.formatFileName authors title (currentExtension existingFile).

(** The test [metadata.authors && metadata.authors !== existing authors]. *)
Definition authorsChanged (existingFile : DriveFile.t)
    (metadata : PartialMetadata.t) : bool :=
  truthy_undefined (PartialMetadata.authors metadata) &&
  negb (bool_decide (PartialMetadata.authors metadata
                     = DriveFile.properties existingFile !! Key.authors)).

Definition updateBook (fileId : list Z) (metadata : PartialMetadata.t)
  : M (State W) DriveFile.t :=
  let drive := driveService this in
  let* existingFile := liftL (GoogleDriveService.getFile drive fileId) in
  let properties := updatedProperties (DriveFile.properties existingFile) metadata in
  let* updatedFile :=
    liftL (GoogleDriveService.updateFileProperties drive fileId properties) in
  let name' := newFileName existingFile metadata in
  let* _ :=
    if negb (JS.eqb name' (DriveFile.name existingFile))
    then let* _ := liftL (GoogleDriveService.renameFile drive fileId name') in ret tt
    else ret tt in
  let* _ :=
    if authorsChanged existingFile metadata then
      let* myLibraryId := liftL (GoogleDriveService.ensureMyLibraryFolder drive) in
      let newFirstAuthor :=
        FileName.getFirstAuthor (default [] (PartialMetadata.authors metadata)) in
      let* newFolderId :=
        liftL (GoogleDriveService.ensureAuthorFolder drive myLibraryId newFirstAuthor) in
      match head (DriveFile.parents existingFile) with
      | Some oldFolderId =>
          if JS.truthy oldFolderId && negb (JS.eqb oldFolderId newFolderId)
          then
            let* _ := liftL (GoogleDriveService.moveFile drive fileId
                               newFolderId oldFolderId) in
            ret tt
          else ret tt
      | None => ret tt
      end
    else ret tt in
  let* _ := invalidateListCache in
  ret updatedFile.

Definition findBookByIsbn (isbn : list Z) : M (State W) (option DriveFile.t) :=
  liftL (GoogleDriveService.findBookByIsbn (driveService this) isbn).

Definition getCoverImageContent (fileId : list Z) : M (State W) (list Z) :=
  liftL (GoogleDriveService.getFileContent (driveService this) fileId).

End Methods.
End BookService.

(** ** [MockGoogleDriveService] ([drive_mock.ts]) *)

Module MockGoogleDriveService.

Definition APP_TYPE_VALUE : list Z := JS.lit "my_library_book".
Definition FOLDER_MIME : list Z := JS.lit "application/vnd.google-apps.folder".

(** A stored file: the [DriveFile] fields and the optional content. *)
Record StoredFile : Type := Stored {
  file : DriveFile.t;
  content : option (list Z);
}.

(** A JavaScript [Map] with string keys, in insertion order. *)
Definition JsMap (V : Type) : Type := list (list Z * V).

Fixpoint map_get {V : Type} (k : list Z) (m : JsMap V) : option V :=
  match m with
  | [] => None
  | (k', v) :: rest => if JS.eqb k k' then Some v else map_get k rest
  end.

(** [m.set(k, v)]: an existing key keeps its place. *)
Fixpoint map_set {V : Type} (k : list Z) (v : V) (m : JsMap V) : JsMap V :=
  match m with
  | [] => [(k, v)]
  | (k', v') :: rest =>
      if JS.eqb k k' then (k, v) :: rest else (k', v') :: map_set k v rest
  end.

Definition map_delete {V : Type} (k : list Z) (m : JsMap V) : JsMap V :=
  filter (fun kv => kv.1 <> k) m.

Definition map_values {V : Type} (m : JsMap V) : list V := map snd m.

Record t : Type := Build {
  files : JsMap StoredFile;
  nextId : nat;
  myLibraryFolderId : list Z;
  shouldFail : bool;
}.

Definition set_files (fs : JsMap StoredFile) (s : t) : t :=
  Build fs (nextId s) (myLibraryFolderId s) (shouldFail s).

(** [if (this.shouldFail) throw new Error("Drive API error")] *)
Definition checkFail : M t unit :=
  fun s => if shouldFail s then (Throw (JS.lit "Drive API error"), s) else (Ok tt, s).

(** `file_${this.nextId++}` *)
Definition generateId : M t (list Z) :=
  fun s => (Ok (JS.lit "file_" ++ JS.ofNat (nextId s)),
            Build (files s) (S (nextId s)) (myLibraryFolderId s) (shouldFail s)).

Definition notFound {A : Type} (fileId : list Z) : M t A :=
  throw (JS.lit "File not found: " ++ fileId).

Definition toDriveFile (f : StoredFile) : DriveFile.t := file f.

Definition isFolderNamed (name : list Z) (f : StoredFile) : bool :=
  JS.eqb (DriveFile.name (file f)) name &&
  JS.eqb (DriveFile.mimeType (file f)) FOLDER_MIME.

Definition includes (l : list (list Z)) (x : list Z) : bool :=
  existsb (JS.eqb x) l.

Definition newFolder (id name : list Z) (parents : list (list Z)) : StoredFile :=
  Stored (DriveFile.Build id name FOLDER_MIME ∅ parents None None None) None.

Definition ensureMyLibraryFolder : M t (list Z) :=
  let* _ := checkFail in
  fun s =>
    if JS.truthy (myLibraryFolderId s) then (Ok (myLibraryFolderId s), s)
    else
      match find (isFolderNamed (JS.lit "MyLibrary")) (map_values (files s)) with
      | Some f =>
          (Ok (DriveFile.id (file f)),
           Build (files s) (nextId s) (DriveFile.id (file f)) (shouldFail s))
      | None =>
          (let* id := generateId in
           fun s' =>
             (Ok id,
              Build (map_set id (newFolder id (JS.lit "MyLibrary") []) (files s'))
                    (nextId s') id (shouldFail s'))) s
      end.

Definition ensureAuthorFolder (myLibraryFolderId authorName : list Z) : M t (list Z) :=
  let* _ := checkFail in
  fun s =>
    match find (fun f => isFolderNamed authorName f &&
                         includes (DriveFile.parents (file f)) myLibraryFolderId)
               (map_values (files s)) with
    | Some f => (Ok (DriveFile.id (file f)), s)
    | None =>
        (let* id := generateId in
         fun s' =>
           (Ok id,
            set_files (map_set id (newFolder id authorName [myLibraryFolderId])
                                  (files s')) s')) s
    end.

Definition downloadLink (id : list Z) : list Z :=
  JS.lit "https://drive.google.com/uc?id=" ++ id ++ JS.lit "&export=download".

Definition uploadFile (folderId fileName fileContent mimeType : list Z)
    (properties : gmap (list Z) (list Z)) : M t DriveFile.t :=
  let* _ := checkFail in
  let* id := generateId in
  let f :=
    Stored (DriveFile.Build id fileName mimeType
              (Drive.sanitizeProperties properties) [folderId]
              (Some (downloadLink id)) None
              (Some (JS.ofNat (length fileContent))))
           (Some fileContent) in
  fun s => (Ok (toDriveFile f), set_files (map_set id f (files s)) s).

Definition uploadCoverImage (folderId fileName imageData mimeType : list Z)
  : M t DriveFile.t :=
  let* _ := checkFail in
  let* id := generateId in
  let f :=
    Stored (DriveFile.Build id fileName mimeType ∅ [folderId]
              (Some (downloadLink id)) None None)
           (Some imageData) in
  fun s => (Ok (toDriveFile f), set_files (map_set id f (files s)) s).

(** The methods that look a file up and change it in place. *)
Definition updateStored (fileId : list Z) (change : DriveFile.t -> DriveFile.t)
  : M t DriveFile.t :=
  let* _ := checkFail in
  fun s =>
    match map_get fileId (files s) with
    | None => notFound fileId s
    | Some f =>
        let f' := Stored (change (file f)) (content f) in
        (Ok (toDriveFile f'), set_files (map_set fileId f' (files s)) s)
    end.

Definition updateFileProperties (fileId : list Z)
    (properties : gmap (list Z) (list Z)) : M t DriveFile.t :=
  updateStored fileId (fun f =>
    DriveFile.Build (DriveFile.id f) (DriveFile.name f) (DriveFile.mimeType f)
      (Drive.sanitizeProperties properties ∪ DriveFile.properties f)
      (DriveFile.parents f) (DriveFile.webContentLink f)
      (DriveFile.thumbnailLink f) (DriveFile.size f)).

Definition renameFile (fileId newName : list Z) : M t DriveFile.t :=
  updateStored fileId (fun f =>
    DriveFile.Build (DriveFile.id f) newName (DriveFile.mimeType f)
      (DriveFile.properties f) (DriveFile.parents f) (DriveFile.webContentLink f)
      (DriveFile.thumbnailLink f) (DriveFile.size f)).

Definition moveFile (fileId newFolderId oldFolderId : list Z) : M t DriveFile.t :=
  updateStored fileId (fun f =>
    DriveFile.Build (DriveFile.id f) (DriveFile.name f) (DriveFile.mimeType f)
      (DriveFile.properties f)
      (filter (fun p => p <> oldFolderId) (DriveFile.parents f) ++ [newFolderId])
      (DriveFile.webContentLink f) (DriveFile.thumbnailLink f) (DriveFile.size f)).

Definition getFile (fileId : list Z) : M t DriveFile.t :=
  let* _ := checkFail in
  fun s =>
    match map_get fileId (files s) with
    | None => notFound fileId s
    | Some f => (Ok (toDriveFile f), s)
    end.

Definition getFileContent (fileId : list Z) : M t (list Z) :=
  let* _ := checkFail in
  fun s =>
    match map_get fileId (files s) with
    | None => notFound fileId s
    | Some f => (Ok (default [] (content f)), s)
    end.

Definition deleteFile (fileId : list Z) : M t unit :=
  let* _ := checkFail in
  fun s =>
    match map_get fileId (files s) with
    | None => notFound fileId s
    | Some _ => (Ok tt, set_files (map_delete fileId (files s)) s)
    end.

Definition isBookWithIsbn (isbn : list Z) (f : StoredFile) : bool :=
  bool_decide (DriveFile.properties (file f) !! Key.app_type = Some APP_TYPE_VALUE) &&
  bool_decide (DriveFile.properties (file f) !! Key.isbn = Some isbn).

Definition findBookByIsbn (isbn : list Z) : M t (option DriveFile.t) :=
  let* _ := checkFail in
  fun s => (Ok (toDriveFile <$> find (isBookWithIsbn isbn) (map_values (files s))), s).

Definition findFilesByParent (folderId : list Z) : M t (list DriveFile.t) :=
  let* _ := checkFail in
  fun s =>
    (Ok (map toDriveFile
           (filter (fun f => includes (DriveFile.parents (file f)) folderId = true)
                   (map_values (files s)))), s).

Definition service : GoogleDriveService.t t :=
  GoogleDriveService.Build
    ensureMyLibraryFolder ensureAuthorFolder uploadFile uploadCoverImage
    updateFileProperties renameFile moveFile getFile getFileContent deleteFile
    findBookByIsbn findFilesByParent.

(** The tests' [PartiallyFailingMock]: listing one chosen folder throws. *)
Definition partiallyFailing (failForFolderId : list Z) : GoogleDriveService.t t :=
  GoogleDriveService.Build
    ensureMyLibraryFolder ensureAuthorFolder uploadFile uploadCoverImage
    updateFileProperties renameFile moveFile getFile getFileContent deleteFile
    findBookByIsbn
    (fun folderId =>
       if JS.eqb folderId failForFolderId
       then throw (JS.lit "API Error for specific folder")
       else findFilesByParent folderId).

End MockGoogleDriveService.

(** ** Recording the calls made to a store *)

Module Spy.

Inductive Call : Type :=
| EnsureMyLibraryFolder
| EnsureAuthorFolder (myLibraryFolderId authorName : list Z)
| UploadFile (folderId fileName content mimeType : list Z)
             (properties : gmap (list Z) (list Z))
| UploadCoverImage (folderId fileName imageData mimeType : list Z)
| UpdateFileProperties (fileId : list Z) (properties : gmap (list Z) (list Z))
| RenameFile (fileId newName : list Z)
| MoveFile (fileId newFolderId oldFolderId : list Z)
| GetFile (fileId : list Z)
| GetFileContent (fileId : list Z)
| DeleteFile (fileId : list Z)
| FindBookByIsbn (isbn : list Z)
| FindFilesByParent (folderId : list Z).

(** The calls that only read the store. *)
Definition reads (c : Call) : bool :=
  match c with
  | GetFile _ | GetFileContent _ | FindBookByIsbn _ | FindFilesByParent _ => true
  | _ => false
  end.

(** Run [m] and add the call to the end of the log, whatever the outcome. *)
Definition logged {W A : Type} (c : Call) (m : M W A) : M (W * list Call) A :=
  fun s => let '(r, w') := m s.1 in (r, (w', s.2 ++ [c])).

(** The store [d] with every call recorded. *)
Definition drive {W : Type} (d : GoogleDriveService.t W)
  : GoogleDriveService.t (W * list Call) :=
  GoogleDriveService.Build
    (logged EnsureMyLibraryFolder (GoogleDriveService.ensureMyLibraryFolder d))
    (fun a b => logged (EnsureAuthorFolder a b)
                       (GoogleDriveService.ensureAuthorFolder d a b))
    (fun a b c e p => logged (UploadFile a b c e p)
                             (GoogleDriveService.uploadFile d a b c e p))
    (fun a b c e => logged (UploadCoverImage a b c e)
                           (GoogleDriveService.uploadCoverImage d a b c e))
    (fun a p => logged (UpdateFileProperties a p)
                       (GoogleDriveService.updateFileProperties d a p))
    (fun a b => logged (RenameFile a b) (GoogleDriveService.renameFile d a b))
    (fun a b c => logged (MoveFile a b c) (GoogleDriveService.moveFile d a b c))
    (fun a => logged (GetFile a) (GoogleDriveService.getFile d a))
    (fun a => logged (GetFileContent a) (GoogleDriveService.getFileContent d a))
    (fun a => logged (DeleteFile a) (GoogleDriveService.deleteFile d a))
    (fun a => logged (FindBookByIsbn a) (GoogleDriveService.findBookByIsbn d a))
    (fun a => logged (FindFilesByParent a) (GoogleDriveService.findFilesByParent d a)).

(** A [BookService] whose store is recorded; its other collaborators act
    on the world as before. *)
Definition bookService {W : Type} (b : BookService.t W)
  : BookService.t (W * list Call) :=
  BookService.Build
    (drive (BookService.driveService b))
    (BookMetadataService.Build (fun isbn =>
       liftL (BookMetadataService.fetchByIsbn (BookService.metadataService b) isbn)))
    (fun url =>
       let* res := liftL (BookService.fetch b url) in
       ret (Response.Build (Response.ok res) (liftL (Response.arrayBuffer res)))).

End Spy.

(** ** JavaScript numbers *)

Module Number.

(** A value of type [number]: [NaN], an infinity, or a finite value.
    Every finite double is a rational; the two zeros compare equal. *)
Inductive t : Type :=
| NaN
| Infinity
| NegInfinity
| Finite (q : Q).

(** [n >= x] for a counter [n]: every comparison with [NaN] is false. *)
Definition geNat (n : nat) (x : t) : bool :=
  match x with
  | NaN => false
  | Infinity => false
  | NegInfinity => true
  | Finite q => Qle_bool q (inject_Z (Z.of_nat n))
  end.

End Number.

(** ** The Calibre migrator ([migrate_calibre.ts]) *)

Module MigrationOptions.
Record t : Type := Build {
  dryRun : option bool;
  limit : option Number.t;
}.
Definition default : t := Build None None.
End MigrationOptions.

Module MigrationDetail.
Inductive Status : Type := succeeded | skipped | error.
Record t : Type := Build {
  title : list Z;
  status : Status;
  reason : option (list Z);
}.
Definition isSucceeded (d : t) : bool :=
  match status d with succeeded => true | _ => false end.
Definition isSkipped (d : t) : bool :=
  match status d with skipped => true | _ => false end.
Definition isError (d : t) : bool :=
  match status d with error => true | _ => false end.
End MigrationDetail.

Module MigrationResult.
Record t : Type := Build {
  total : nat;
  succeeded : nat;
  skipped : nat;
  errors : nat;
  details : list MigrationDetail.t;
}.
Definition empty : t := Build 0 0 0 0 [].
End MigrationResult.

Module CalibreMigrator.

Definition FOLDER_MIME : list Z := JS.lit "application/vnd.google-apps.folder".

Definition EXTENSION_PRIORITY : list (list Z) :=
  [JS.lit ".epub"; JS.lit ".pdf"; JS.lit ".mobi"; JS.lit ".azw3"; JS.lit ".azw"].

(** "ISBN重複" *)
Definition REASON_DUPLICATE : list Z := JS.lit "ISBN" ++ [0x91CD; 0x8907].

(** "対応形式の書籍ファイルなし" *)
Definition REASON_NO_FILE : list Z :=
  [0x5BFE; 0x5FDC; 0x5F62; 0x5F0F; 0x306E; 0x66F8; 0x7C4D;
   0x30D5; 0x30A1; 0x30A4; 0x30EB; 0x306A; 0x3057].

Record t (W : Type) : Type := Build {
  driveService : GoogleDriveService.t W;
  bookService : BookService.t W;
}.
Arguments Build {W}.
Arguments driveService {W}.
Arguments bookService {W}.

Definition isFolder (f : DriveFile.t) : bool :=
  JS.eqb (DriveFile.mimeType f) FOLDER_MIME.

Definition named (n : list Z) (f : DriveFile.t) : bool :=
  JS.eqb (DriveFile.name f) n.

Section Methods.

(** [String.prototype.toLowerCase] and the regular-expression based
    [parseMetadataOpf] are taken as they are: total functions on strings.
    Nothing below depends on what they compute. *)
Context (toLowerCase : list Z -> list Z).
Context (parseMetadataOpf : list Z -> PartialMetadata.t).

(** The [for (const ext of EXTENSION_PRIORITY)] loop of [selectBookFile]. *)
Fixpoint selectByPriority (exts : list (list Z)) (files : list DriveFile.t)
  : option DriveFile.t :=
  match exts with
  | [] => None
  | ext :: rest =>
      match find (fun f => JS.endsWith (toLowerCase (DriveFile.name f)) ext) files with
      | Some file => Some file
      | None => selectByPriority rest files
      end
  end.

Definition selectBookFile (files : list DriveFile.t) : option DriveFile.t :=
  selectByPriority EXTENSION_PRIORITY files.

Definition getMimeType (filename : list Z) : list Z :=
  let lower := toLowerCase filename in
  if JS.endsWith lower (JS.lit ".epub") then JS.lit "application/epub+zip"
  else if JS.endsWith lower (JS.lit ".pdf") then JS.lit "application/pdf"
  else if JS.endsWith lower (JS.lit ".mobi") then JS.lit "application/x-mobipocket-ebook"
  else JS.lit "application/octet-stream".

Context {W : Type} (this : t W).

Abbreviation St := (W * CacheService.t DriveFileList.t)%type.

(** The cover step of [migrateBook]; the caller swallows its failures. *)
Definition registerCover (coverFile registeredFile : DriveFile.t) : M St unit :=
  let drive := driveService this in
  let* coverData :=
    liftL (GoogleDriveService.getFileContent drive (DriveFile.id coverFile)) in
  let authorFolderId := hd [] (DriveFile.parents registeredFile) in
  let coverFileName :=
    JS.lit "cover_" ++ DriveFile.id registeredFile ++ JS.lit ".jpg" in
  let* coverDriveFile :=
    liftL (GoogleDriveService.uploadCoverImage drive authorFolderId coverFileName
             coverData (JS.lit "image/jpeg")) in
  let* _ :=
    liftL (GoogleDriveService.updateFileProperties drive
             (DriveFile.id registeredFile)
             (<[Key.cover_file_id := DriveFile.id coverDriveFile]>
                (DriveFile.properties registeredFile))) in
  ret tt.

(** The first steps of [migrateBook]: the embedded metadata document, if
    there is one, is read and parsed. *)
Definition readMetadata (files : list DriveFile.t) : M St PartialMetadata.t :=
  match find (named (JS.lit "metadata.opf")) files with
  | Some opfFile =>
      let* content :=
        liftL (GoogleDriveService.getFileContent (driveService this)
                 (DriveFile.id opfFile)) in
      ret (parseMetadataOpf (Utf8.decode content))
  | None => ret PartialMetadata.empty
  end.

(** The duplicate check: only a non-empty isbn is looked up. *)
Definition probeDuplicate (metadata : PartialMetadata.t) : M St (option DriveFile.t) :=
  if BookService.truthy_undefined (PartialMetadata.isbn metadata)
  then BookService.findBookByIsbn (bookService this)
         (default [] (PartialMetadata.isbn metadata))
  else ret None.

Definition migrateBook (bookFolderId bookFolderName : list Z)
    (options : MigrationOptions.t) : M St MigrationDetail.t :=
  let drive := driveService this in
  let* files := liftL (GoogleDriveService.findFilesByParent drive bookFolderId) in
  let* metadata := readMetadata files in
  let title := BookService.or_undefined (PartialMetadata.title metadata) bookFolderName in
  let* existing := probeDuplicate metadata in
  match existing with
  | Some _ =>
      ret (MigrationDetail.Build title MigrationDetail.skipped (Some REASON_DUPLICATE))
  | None =>
      match selectBookFile files with
      | None =>
          ret (MigrationDetail.Build title MigrationDetail.skipped (Some REASON_NO_FILE))
      | Some bookFile =>
          if bool_decide (MigrationOptions.dryRun options = Some true)
          then ret (MigrationDetail.Build title MigrationDetail.succeeded None)
          else
            let* bookContent :=
              liftL (GoogleDriveService.getFileContent drive (DriveFile.id bookFile)) in
            let bookMimeType := getMimeType (DriveFile.name bookFile) in
            let fullMetadata :=
              BookMetadata.Build
                (BookService.or_undefined (PartialMetadata.isbn metadata) [])
                title
                (BookService.or_undefined (PartialMetadata.authors metadata) [])
                (BookService.or_undefined (PartialMetadata.publisher metadata) [])
                (BookService.or_undefined (PartialMetadata.publishedDate metadata) [])
                (BookService.or_undefined (PartialMetadata.description metadata) [])
                [] in
            let* registeredFile :=
              BookService.registerBook (bookService this) fullMetadata
                bookContent bookMimeType in
            let* _ :=
              match find (named (JS.lit "cover.jpg")) files with
              | Some coverFile =>
                  try_catch (registerCover coverFile registeredFile)
                            (fun _ => ret tt)
              | None => ret tt
              end in
            ret (MigrationDetail.Build title MigrationDetail.succeeded None)
      end
  end.

(** The detail recorded when a unit throws. *)
Definition errorDetail (bookFolder : DriveFile.t) (e : list Z) : MigrationDetail.t :=
  MigrationDetail.Build (DriveFile.name bookFolder) MigrationDetail.error (Some e).

(** The [try { detail = await this.migrateBook(...) } catch (e) { ... }]
    of one unit. *)
Definition migrateUnit (bookFolder : DriveFile.t) (options : MigrationOptions.t)
  : M St MigrationDetail.t :=
  try_catch
    (migrateBook (DriveFile.id bookFolder) (DriveFile.name bookFolder) options)
    (fun e => ret (errorDetail bookFolder e)).

(** [options.limit !== undefined && result.total >= options.limit] *)
Definition limitReached (options : MigrationOptions.t) (total : nat) : bool :=
  match MigrationOptions.limit options with
  | Some l => Number.geNat total l
  | None => false
  end.

(** [result.details.push(detail)] and the update of the counters. *)
Definition record (result : MigrationResult.t) (detail : MigrationDetail.t)
  : MigrationResult.t :=
  let details := MigrationResult.details result ++ [detail] in
  match MigrationDetail.status detail with
  | MigrationDetail.succeeded =>
      MigrationResult.Build (MigrationResult.total result)
        (S (MigrationResult.succeeded result)) (MigrationResult.skipped result)
        (MigrationResult.errors result) details
  | MigrationDetail.skipped =>
      MigrationResult.Build (MigrationResult.total result)
        (MigrationResult.succeeded result) (S (MigrationResult.skipped result))
        (MigrationResult.errors result) details
  | MigrationDetail.error =>
      MigrationResult.Build (MigrationResult.total result)
        (MigrationResult.succeeded result) (MigrationResult.skipped result)
        (S (MigrationResult.errors result)) details
  end.

(** [result.total++] *)
Definition countUnit (result : MigrationResult.t) : MigrationResult.t :=
  MigrationResult.Build (S (MigrationResult.total result))
    (MigrationResult.succeeded result) (MigrationResult.skipped result)
    (MigrationResult.errors result) (MigrationResult.details result).

(** The inner loop over the children of one author folder.  The boolean
    tells whether it left through [break outer]. *)
Fixpoint bookLoop (options : MigrationOptions.t) (bookFolders : list DriveFile.t)
    (result : MigrationResult.t) : M St (bool * MigrationResult.t) :=
  match bookFolders with
  | [] => ret (false, result)
  | bookFolder :: rest =>
      if negb (isFolder bookFolder) then bookLoop options rest result
      else if limitReached options (MigrationResult.total result)
      then ret (true, result)
      else
        let result1 := countUnit result in
        let* detail := migrateUnit bookFolder options in
        bookLoop options rest (record result1 detail)
  end.

(** The outer loop over the children of the source folder. *)
Fixpoint authorLoop (options : MigrationOptions.t) (authorFolders : list DriveFile.t)
    (result : MigrationResult.t) : M St MigrationResult.t :=
  match authorFolders with
  | [] => ret result
  | authorFolder :: rest =>
      if negb (isFolder authorFolder) then authorLoop options rest result
      else
        let* bookFolders :=
          liftL (GoogleDriveService.findFilesByParent (driveService this)
                   (DriveFile.id authorFolder)) in
        let* r := bookLoop options bookFolders result in
        if r.1 then ret r.2 else authorLoop options rest r.2
  end.

Definition migrate (sourceFolderId : list Z) (options : MigrationOptions.t)
  : M St MigrationResult.t :=
  let* authorFolders :=
    liftL (GoogleDriveService.findFilesByParent (driveService this) sourceFolderId) in
  authorLoop options authorFolders MigrationResult.empty.

(** *** The folder walk, as the specification describes it

    One visit per migration unit, in the order of discovery: the book
    folder and what processing it gave, a detail or a thrown error. *)
Definition Visit : Type := (DriveFile.t * Result MigrationDetail.t)%type.

(** The children of one author folder, in listing order: entries that are
    not folders are passed over, a folder met when the limit is reached
    stops the whole walk, and every other folder is one unit, whatever
    its outcome.  [n] counts the units visited before. *)
Inductive unitsWalk (options : MigrationOptions.t)
  : nat -> St -> list DriveFile.t -> list Visit -> bool -> St -> Prop :=
| units_done n s :
    unitsWalk options n s [] [] false s
| units_pass n s f rest vs stopped s' :
    isFolder f = false ->
    unitsWalk options n s rest vs stopped s' ->
    unitsWalk options n s (f :: rest) vs stopped s'
| units_stop n s f rest :
    isFolder f = true ->
    limitReached options n = true ->
    unitsWalk options n s (f :: rest) [] true s
| units_visit n s f rest out s1 vs stopped s' :
    isFolder f = true ->
    limitReached options n = false ->
    migrateBook (DriveFile.id f) (DriveFile.name f) options s = (out, s1) ->
    unitsWalk options (S n) s1 rest vs stopped s' ->
    unitsWalk options n s (f :: rest) ((f, out) :: vs) stopped s'.

(** The children of the source folder, in listing order: each folder is
    listed, and its children walked, until the walk is stopped. *)
Inductive authorsWalk (options : MigrationOptions.t)
  : nat -> St -> list DriveFile.t -> list Visit -> bool -> St -> Prop :=
| authors_done n s :
    authorsWalk options n s [] [] false s
| authors_pass n s f rest vs stopped s' :
    isFolder f = false ->
    authorsWalk options n s rest vs stopped s' ->
    authorsWalk options n s (f :: rest) vs stopped s'
| authors_stop n s f rest bookFolders s1 vs s' :
    isFolder f = true ->
    liftL (GoogleDriveService.findFilesByParent (driveService this) (DriveFile.id f)) s
      = (Ok bookFolders, s1) ->
    unitsWalk options n s1 bookFolders vs true s' ->
    authorsWalk options n s (f :: rest) vs true s'
| authors_visit n s f rest bookFolders s1 vs1 s2 vs2 stopped s' :
    isFolder f = true ->
    liftL (GoogleDriveService.findFilesByParent (driveService this) (DriveFile.id f)) s
      = (Ok bookFolders, s1) ->
    unitsWalk options n s1 bookFolders vs1 false s2 ->
    authorsWalk options (n + length vs1) s2 rest vs2 stopped s' ->
    authorsWalk options n s (f :: rest) (vs1 ++ vs2) stopped s'.

(** The detail a visit is reported with. *)
Definition detailOf (v : Visit) : MigrationDetail.t :=
  match v.2 with
  | Ok d => d
  | Throw e => errorDetail v.1 e
  end.

Definition threw (v : Visit) : bool :=
  match v.2 with Ok _ => false | Throw _ => true end.

(** A visit is the outcome of processing its folder in some state. *)
Definition processed (options : MigrationOptions.t) (v : Visit) : Prop :=
  exists s1 s2 : St,
    migrateBook (DriveFile.id v.1) (DriveFile.name v.1) options s1 = (v.2, s2).

(** The report of a walk: every visit is counted and recorded, in order. *)
Definition recordVisit (result : MigrationResult.t) (v : Visit) : MigrationResult.t :=
  record (countUnit result) (detailOf v).

Definition recordAll (result : MigrationResult.t) (visits : list Visit)
  : MigrationResult.t :=
  fold_left recordVisit visits result.

End Methods.
End CalibreMigrator.

(** ** What the claims about the migrator speak of *)

Module MigratorSpec.

(** A store whose four reading operations leave its state as it is. *)
Definition readOnly {W : Type} (d : GoogleDriveService.t W) : Prop :=
  forall (id : list Z) (w : W),
    (GoogleDriveService.getFile d id w).2 = w /\
    (GoogleDriveService.getFileContent d id w).2 = w /\
    (GoogleDriveService.findBookByIsbn d id w).2 = w /\
    (GoogleDriveService.findFilesByParent d id w).2 = w.

(** A migrator whose stores record the calls made to them. *)
Definition spied {W : Type} (this : CalibreMigrator.t W)
  : CalibreMigrator.t (W * list Spy.Call) :=
  CalibreMigrator.Build
    (Spy.drive (CalibreMigrator.driveService this))
    (Spy.bookService (CalibreMigrator.bookService this)).

End MigratorSpec.

Module MetadataExamples.

(** Source A of the specification's example: title "人間失格", authors
    "太宰治", no cover. *)
Definition sourceA : BookMetadata.t :=
  BookMetadata.Build (JS.lit "9784101010014")
    [0x4EBA; 0x9593; 0x5931; 0x683C] [0x592A; 0x5BB0; 0x6CBB] [] [] [] [].

(** Source B: a cover and a description. *)
Definition sourceB : BookMetadata.t :=
  BookMetadata.Build (JS.lit "9784101010014") (JS.lit "No Longer Human")
    (JS.lit "Dazai") [] [] (JS.lit "d") (JS.lit "http://x/y.jpg").

(** A result in which the five fill-candidate fields are all present. *)
Definition complete : BookMetadata.t :=
  BookMetadata.Build (JS.lit "9784101010014")
    [0x4EBA; 0x9593; 0x5931; 0x683C] [0x592A; 0x5BB0; 0x6CBB]
    [0x65B0; 0x6F6E; 0x793E] (JS.lit "1952-01-01") (JS.lit "d")
    (JS.lit "https://openbd.com/cover.jpg").

End MetadataExamples.

(** ** What the claims about [BookService] speak of *)

Module BookServiceSpec.

(** No entry of the cache has a key that starts with ["books:list"] or
    with ["books:search:"]. *)
Definition listCacheClean {T : Type} (c : CacheService.t T) : Prop :=
  forall key : list Z,
    JS.startsWith key BookService.CACHE_KEY_LIST = true \/
    JS.startsWith key BookService.CACHE_KEY_SEARCH_PREFIX = true ->
    CacheService.cache c !! key = None.

(** The property each field of the metadata corresponds to. *)
Definition correspondingProperty
  : list ((PartialMetadata.t -> option (list Z)) * list Z) :=
  [(PartialMetadata.isbn, Key.isbn);
   (PartialMetadata.title, Key.title);
   (PartialMetadata.authors, Key.authors);
   (PartialMetadata.publisher, Key.publisher);
   (PartialMetadata.publishedDate, Key.published_date);
   (PartialMetadata.description, Key.description)].

(** The fields [updateBook] writes. *)
Definition editableProperty
  : list ((PartialMetadata.t -> option (list Z)) * list Z) :=
  [(PartialMetadata.title, Key.title);
   (PartialMetadata.authors, Key.authors);
   (PartialMetadata.publisher, Key.publisher);
   (PartialMetadata.publishedDate, Key.published_date)].

(** The display name made from the title and authors the record has once
    the supplied fields are applied. *)
Definition resultingFileName (existing : DriveFile.t) (metadata : PartialMetadata.t)
  : list Z :=
  let merged := BookService.updatedProperties (DriveFile.properties existing) metadata in
  FileName.formatFileName (default [] (merged !! Key.authors))
                          (default [] (merged !! Key.title))
                          (BookService.currentExtension existing).

(** The calls of the move step of [updateBook], given the ids the store
    answered with. *)
Definition moveCalls (fileId : list Z) (existing : DriveFile.t)
    (metadata : PartialMetadata.t) (myLibraryId newFolderId : list Z)
  : list Spy.Call :=
  [Spy.EnsureMyLibraryFolder;
   Spy.EnsureAuthorFolder myLibraryId
     (FileName.getFirstAuthor (default [] (PartialMetadata.authors metadata)))] ++
  match head (DriveFile.parents existing) with
  | Some oldFolderId =>
      if JS.truthy oldFolderId && negb (JS.eqb oldFolderId newFolderId)
      then [Spy.MoveFile fileId newFolderId oldFolderId]
      else []
  | None => []
  end.

End BookServiceSpec.

(** ** A small library on the mock store, for examples *)

Module LibraryExamples.

Definition emptyStore : MockGoogleDriveService.t :=
  MockGoogleDriveService.Build [] 1 [] false.

(** No network: every [fetch] throws. *)
Definition noNetwork {W : Type} : list Z -> M W (Response.t W) :=
  fun _ => throw (JS.lit "network unreachable").

Definition bookService : BookService.t MockGoogleDriveService.t :=
  BookService.Build MockGoogleDriveService.service (constantService None) noNetwork.

(** The tests' sample: "人間失格" by "太宰治". *)
Definition sampleMetadata : BookMetadata.t :=
  BookMetadata.Build (JS.lit "9784101010014")
    [0x4EBA; 0x9593; 0x5931; 0x683C] [0x592A; 0x5BB0; 0x6CBB]
    [0x65B0; 0x6F6E; 0x793E] (JS.lit "1952-01-01") (JS.lit "d") [].

Definition EPUB : list Z := JS.lit "application/epub+zip".

Definition page : DriveFileList.t := DriveFileList.Build [] None.

(** A cache that holds a listing page, a search page and one entry of
    another kind. *)
Definition warmCache : CacheService.t DriveFileList.t :=
  CacheService.set 0 (JS.lit "books:list::20") page
    (CacheService.set 0 (JS.lit "books:search:q:") page
       (CacheService.set 0 (JS.lit "other") page
          (CacheService.create CacheService.DEFAULT_TTL))).

(** The state after the sample has been registered in the empty store,
    with the cache warmed again. *)
Definition registered : BookService.State MockGoogleDriveService.t :=
  ((BookService.registerBook bookService sampleMetadata [1; 2; 3] EPUB
      (emptyStore, warmCache)).2.1, warmCache).

(** The id of the registered sample: ["file_3"]. *)
Definition sampleId : list Z := JS.lit "file_3".

Definition onlyTitle (title : list Z) : PartialMetadata.t :=
  PartialMetadata.Build None (Some title) None None None None None.

Definition onlyAuthors (authors : list Z) : PartialMetadata.t :=
  PartialMetadata.Build None None (Some authors) None None None None.

Definition onlyIsbn (isbn : list Z) : PartialMetadata.t :=
  PartialMetadata.Build (Some isbn) None None None None None None.

End LibraryExamples.



Module UpdateExamples.
Import LibraryExamples.

(** "新著者" *)
Definition newAuthor : list Z := [0x65B0; 0x8457; 0x8005].

(** The registered sample after its file has been renamed, in the store
    itself, to "[] 人間失格.epub". *)
Definition renamedInStore : BookService.State MockGoogleDriveService.t :=
  ((MockGoogleDriveService.renameFile sampleId
      (FileName.formatFileName [] (BookMetadata.title sampleMetadata) (JS.lit "epub"))
      registered.1).2,
   registered.2).

End UpdateExamples.

(** ** [parseMetadataOpf] ([migrate_calibre.ts])

    The regular expressions of the parser, written out as the scanners
    they are.  All of them carry the [i] flag, under which an ASCII
    letter of the pattern matches both of its cases and nothing else. *)

Module Opf.

Definition upperAscii (c : Z) : Z :=
  if (97 <=? c) && (c <=? 122) then c - 32 else c.

Definition ci_eqb (p c : Z) : bool := upperAscii p =? upperAscii c.

(** The string after the pattern, when [s] starts with it. *)
Fixpoint ci_prefix (pat s : list Z) : option (list Z) :=
  match pat, s with
  | [], _ => Some s
  | p :: pat', c :: s' => if ci_eqb p c then ci_prefix pat' s' else None
  | _ :: _, [] => None
  end.

(** Any characters other than [>], then [>]: the string after the first
    [>]. *)
Fixpoint afterGt (s : list Z) : option (list Z) :=
  match s with
  | [] => None
  | c :: s' => if c =? 62 then Some s' else afterGt s'
  end.

(** The end of an opening tag: [>] at once, or white space, any
    characters other than [>], and [>]. *)
Definition endOfOpenTag (r : list Z) : option (list Z) :=
  match r with
  | c :: r' =>
      if c =? 62 then Some r'
      else if JS.is_space c then afterGt r'
      else None
  | [] => None
  end.

(** An opening tag [<dc:name ...>] at the start of [s]. *)
Definition openTag (name s : list Z) : option (list Z) :=
  match ci_prefix (JS.lit "<dc:" ++ name) s with
  | Some r => endOfOpenTag r
  | None => None
  end.

Definition closeTag (name : list Z) : list Z :=
  JS.lit "</dc:" ++ name ++ JS.lit ">".

(** The lazy group before the closing tag: the text before the first
    occurrence of the closing tag. *)
Fixpoint untilClose (closing s : list Z) : option (list Z) :=
  match ci_prefix closing s with
  | Some _ => Some []
  | None =>
      match s with
      | [] => None
      | c :: s' => cons c <$> untilClose closing s'
      end
  end.

(** The first group of the leftmost match of the element pattern of
    [getFirst]: an opening tag, any text taken lazily, the closing tag. *)
Fixpoint firstElement (name s : list Z) : option (list Z) :=
  match
    match openTag name s with
    | Some r => untilClose (closeTag name) r
    | None => None
    end
  with
  | Some content => Some content
  | None =>
      match s with
      | [] => None
      | _ :: s' => firstElement name s'
      end
  end.

Definition getFirst (xml tag : list Z) : list Z :=
  match firstElement tag xml with
  | Some m => JS.trim m
  | None => []
  end.

(** The longest run of characters other than [<], and what follows
    it. *)
Fixpoint textRun (s : list Z) : list Z * list Z :=
  match s with
  | c :: s' =>
      if c =? 60 then ([], s)
      else let '(t, r) := textRun s' in (c :: t, r)
  | [] => ([], [])
  end.

(** A non-empty run of characters other than [<] and the closing tag,
    at the start of [r]: the text, and what follows the closing tag. *)
Definition textElement (name r : list Z) : option (list Z * list Z) :=
  let '(text, r') := textRun r in
  if JS.truthy text
  then match ci_prefix (closeTag name) r' with
       | Some rest => Some (text, rest)
       | None => None
       end
  else None.

(** One match of the creator pattern at the start of [s]. *)
Definition creatorAt (s : list Z) : option (list Z * list Z) :=
  match openTag (JS.lit "creator") s with
  | Some r => textElement (JS.lit "creator") r
  | None => None
  end.

(** The [while ((m = creatorRe.exec(xml)) !== null)] loop: every match
    is taken where the one before ended. *)
Fixpoint creatorsFrom (fuel : nat) (s : list Z) : list (list Z) :=
  match fuel with
  | O => []
  | S fuel' =>
      match creatorAt s with
      | Some (text, rest) => JS.trim text :: creatorsFrom fuel' rest
      | None =>
          match s with
          | [] => []
          | _ :: s' => creatorsFrom fuel' s'
          end
      end
  end.

(** Any characters other than [>], then [>]: the attributes, and what
    follows the [>]. *)
Fixpoint attributes (s : list Z) : option (list Z * list Z) :=
  match s with
  | [] => None
  | c :: s' =>
      if c =? 62 then Some ([], s')
      else match attributes s' with
           | Some (a, r) => Some (c :: a, r)
           | None => None
           end
  end.

(** One match of the identifier pattern at the start of [s]:
    attributes, text, and what follows. *)
Definition identifierAt (s : list Z) : option (list Z * list Z * list Z) :=
  match ci_prefix (JS.lit "<dc:identifier") s with
  | Some r =>
      match attributes r with
      | Some (attrs, r') =>
          match textElement (JS.lit "identifier") r' with
          | Some (text, rest) => Some (attrs, text, rest)
          | None => None
          end
      | None => None
      end
  | None => None
  end.

Definition isQuote (c : Z) : bool := (c =? 34) || (c =? 39).

(** The scheme pattern at the start of [s]: [opf:scheme], [=] and the
    quoted word [isbn], with optional white space around the [=]. *)
Definition schemeAt (s : list Z) : bool :=
  match ci_prefix (JS.lit "opf:scheme") s with
  | Some r =>
      match JS.trimStart r with
      | c :: r1 =>
          (c =? 61) &&
          match JS.trimStart r1 with
          | q :: r2 =>
              isQuote q &&
              match ci_prefix (JS.lit "isbn") r2 with
              | Some (q' :: _) => isQuote q'
              | _ => false
              end
          | [] => false
          end
      | [] => false
      end
  | None => false
  end.

(** The scheme pattern tested anywhere in [s]. *)
Fixpoint hasIsbnScheme (s : list Z) : bool :=
  schemeAt s ||
  match s with
  | [] => false
  | _ :: s' => hasIsbnScheme s'
  end.

(** Hyphens and white space are removed. *)
Definition stripSeparators (s : list Z) : list Z :=
  List.filter (fun c => negb ((c =? 45) || JS.is_space c)) s.

(** The identifier loop: the first identifier tagged with the ISBN
    scheme ends it. *)
Fixpoint isbnFrom (fuel : nat) (s : list Z) : list Z :=
  match fuel with
  | O => []
  | S fuel' =>
      match identifierAt s with
      | Some (attrs, text, rest) =>
          if hasIsbnScheme attrs then stripSeparators (JS.trim text)
          else isbnFrom fuel' rest
      | None =>
          match s with
          | [] => []
          | _ :: s' => isbnFrom fuel' s'
          end
      end
  end.

(** [creators.join("-")] *)
Fixpoint join (sep : list Z) (parts : list (list Z)) : list Z :=
  match parts with
  | [] => []
  | [p] => p
  | p :: rest => p ++ sep ++ join sep rest
  end.

Definition parseMetadataOpf (xml : list Z) : PartialMetadata.t :=
  let creators := creatorsFrom (S (length xml)) xml in
  let isbn := isbnFrom (S (length xml)) xml in
  let rawDate := getFirst xml (JS.lit "date") in
  let publishedDate :=
    if JS.truthy rawDate then hd [] (JS.split 84 rawDate) else [] in
  PartialMetadata.Build
    (Some isbn)
    (Some (getFirst xml (JS.lit "title")))
    (Some (match creators with
           | [] => getFirst xml (JS.lit "creator")
           | _ :: _ => join (JS.lit "-") creators
           end))
    (Some (getFirst xml (JS.lit "publisher")))
    (Some publishedDate)
    (Some (getFirst xml (JS.lit "description")))
    (Some []).

End Opf.

(** ** A Calibre library on the mock store, for examples *)

Module CalibreExamples.

(** [toLowerCase] on the names used here, which are ASCII. *)
Definition lowerAscii (s : list Z) : list Z :=
  map (fun c => if (65 <=? c) && (c <=? 90) then c + 32 else c) s.

(** The document the tests' [makeOpf] writes for a title, one author and
    an ISBN. *)
Definition quoted (s : string) : list Z := [34] ++ JS.lit s ++ [34].

Definition makeOpf (title author isbn : list Z) : list Z :=
  JS.lit "<?xml version='1.0' encoding='utf-8'?>" ++ [10] ++
  JS.lit "<package xmlns=" ++ quoted "http://www.idpf.org/2007/opf" ++
  JS.lit " version=" ++ quoted "2.0" ++ JS.lit ">" ++ [10] ++
  JS.lit "  <metadata xmlns:dc=" ++ quoted "http://purl.org/dc/elements/1.1/" ++
  JS.lit ">" ++ [10] ++
  JS.lit "    <dc:title>" ++ title ++ JS.lit "</dc:title>" ++ [10] ++
  JS.lit "    <dc:creator opf:role=" ++ quoted "aut" ++ JS.lit ">" ++ author ++
  JS.lit "</dc:creator>" ++ [10] ++
  JS.lit "    <dc:identifier opf:scheme=" ++ quoted "ISBN" ++ JS.lit ">" ++ isbn ++
  JS.lit "</dc:identifier>" ++ [10] ++
  JS.lit "    <dc:publisher></dc:publisher>" ++ [10] ++
  JS.lit "    <dc:date>2020-06-15T12:30:00+09:00</dc:date>" ++ [10] ++
  JS.lit "    <dc:description></dc:description>" ++ [10] ++
  JS.lit "  </metadata>" ++ [10] ++
  JS.lit "</package>".

Definition FOLDER : string := "application/vnd.google-apps.folder".

Definition entry (id name mime parent : string) (content : option (list Z))
  : list Z * MockGoogleDriveService.StoredFile :=
  (JS.lit id,
   MockGoogleDriveService.Stored
     (DriveFile.Build (JS.lit id) (JS.lit name) (JS.lit mime) ∅ [JS.lit parent]
        None None None)
     content).

(** One book folder with its metadata document and an EPUB, under its
    own author folder, as the tests set books up. *)
Definition book (n : string) : list (list Z * MockGoogleDriveService.StoredFile) :=
  [entry ("af-author" ++ n) ("Author " ++ n) FOLDER "source" None;
   entry ("bf-book" ++ n) ("Book " ++ n ++ " (2020)") FOLDER ("af-author" ++ n) None;
   entry ("opf-bf-book" ++ n) "metadata.opf" "text/xml" ("bf-book" ++ n)
     (Some (Utf8.encode (makeOpf (JS.lit ("Book " ++ n)) (JS.lit ("Author " ++ n))
                           (JS.lit ("978-0-00-000100-" ++ n)))));
   entry ("epub-bf-book" ++ n) ("Book " ++ n ++ ".epub") "application/epub+zip"
     ("bf-book" ++ n) (Some [1])]%string.

(** The author folder of book [n], as the store lists it. *)
Definition authorFolder (n : string) : DriveFile.t :=
  MockGoogleDriveService.file
    (entry ("af-author" ++ n) ("Author " ++ n) FOLDER "source" None).2.

(** Three books by three authors under the folder ["source"]. *)
Definition library : MockGoogleDriveService.t :=
  MockGoogleDriveService.Build (book "1" ++ book "2" ++ book "3") 1 [] false.

Definition state : BookService.State MockGoogleDriveService.t :=
  (library, CacheService.create CacheService.DEFAULT_TTL).

(** A migrator on the mock store in which listing the folder
    [failForFolderId] throws. *)
Definition migrator (failForFolderId : string)
  : CalibreMigrator.t MockGoogleDriveService.t :=
  let drive := MockGoogleDriveService.partiallyFailing (JS.lit failForFolderId) in
  CalibreMigrator.Build drive
    (BookService.Build drive (constantService None) LibraryExamples.noNetwork).

Definition dryRun : MigrationOptions.t := MigrationOptions.Build (Some true) None.

Definition migrate (failForFolderId : string) (options : MigrationOptions.t) :=
  CalibreMigrator.migrate lowerAscii Opf.parseMetadataOpf (migrator failForFolderId)
    (JS.lit "source") options state.

End CalibreExamples.

(** The part of a walk under one author folder: the folder, the children
    the store listed for it, and the units visited among them. *)
Module WalkGroup.
Record t : Type := Build {
  author : DriveFile.t;
  children : list DriveFile.t;
  visits : list CalibreMigrator.Visit;
}.
End WalkGroup.



(** ** Computations that only read the store *)

Module Quiet.

(** Run on a recorded store, [m] leaves the cache as it is and records
    reading calls only; and when [P] holds it leaves the store as it
    is. *)
Definition quiet {W A : Type} (P : Prop)
    (m : M (BookService.State (W * list Spy.Call)) A) : Prop :=
  forall (w : W) (log : list Spy.Call) (ch : CacheService.t DriveFileList.t),
    exists (w' : W) (calls : list Spy.Call),
      (m ((w, log), ch)).2 = ((w', log ++ calls), ch) /\
      Forall (fun c => Spy.reads c = true) calls /\
      (P -> w' = w).

End Quiet.

(** ** [BookService.listBooks] and [searchBooks] ([book.ts]) *)

(** The two listing operations of [GoogleDriveService], and the clock
    [Date.now()] read from the world.  A page size, where one is given,
    is a non-negative integer. *)
Module Listing.
Record t (W : Type) : Type := Build {
  listBooks : option (list Z) -> option nat -> M W DriveFileList.t;
  searchBooks : list Z -> option (list Z) -> M W DriveFileList.t;
  now : W -> Z;
}.
Arguments Build {W}.
Arguments listBooks {W}.
Arguments searchBooks {W}.
Arguments now {W}.
End Listing.

Module CachedListing.
Section Methods.
Context {W : Type} (this : Listing.t W).

(** [this.cache.get(key)] and [this.cache.set(key, data)], each reading
    the clock when it runs. *)
Definition cacheGet (key : list Z) : M (BookService.State W) (option DriveFileList.t) :=
  fun s =>
    let '(r, c) := CacheService.get (Listing.now this s.1) key s.2 in (Ok r, (s.1, c)).

Definition cacheSet (key : list Z) (data : DriveFileList.t)
  : M (BookService.State W) unit :=
  fun s => (Ok tt, (s.1, CacheService.set (Listing.now this s.1) key data s.2)).

(** The body [listBooks] and [searchBooks] share: the cached value if
    there is one, else the answer of the store, cached on the way
    out. *)
Definition throughCache (cacheKey : list Z) (fetch : M W DriveFileList.t)
  : M (BookService.State W) DriveFileList.t :=
  let* cached := cacheGet cacheKey in
  match cached with
  | Some cached => ret cached
  | None =>
      let* result := liftL fetch in
      let* _ := cacheSet cacheKey result in
      ret result
  end.

(** [pageSize || 20] *)
Definition pageSizeOrDefault (pageSize : option nat) : nat :=
  match pageSize with
  | Some (S n) => S n
  | _ => 20%nat
  end.

(** `${CACHE_KEY_LIST}:${pageToken || ""}:${pageSize || 20}` *)
Definition listCacheKey (pageToken : option (list Z)) (pageSize : option nat) : list Z :=
  BookService.CACHE_KEY_LIST ++ JS.lit ":" ++ BookService.or_undefined pageToken [] ++
  JS.lit ":" ++ JS.ofNat (pageSizeOrDefault pageSize).

(** `${CACHE_KEY_SEARCH_PREFIX}${query}:${pageToken || ""}` *)
Definition searchCacheKey (query : list Z) (pageToken : option (list Z)) : list Z :=
  BookService.CACHE_KEY_SEARCH_PREFIX ++ query ++ JS.lit ":" ++
  BookService.or_undefined pageToken [].

Definition listBooks (pageToken : option (list Z)) (pageSize : option nat)
  : M (BookService.State W) DriveFileList.t :=
  throughCache (listCacheKey pageToken pageSize)
               (Listing.listBooks this pageToken pageSize).

Definition searchBooks (query : list Z) (pageToken : option (list Z))
  : M (BookService.State W) DriveFileList.t :=
  throughCache (searchCacheKey query pageToken)
               (Listing.searchBooks this query pageToken).

End Methods.
End CachedListing.

(** Stores to list from, for examples. *)
Module ListingExamples.

(** A store that answers with the number of requests made before, and a
    clock that stands still. *)
Definition countingListing : Listing.t nat :=
  Listing.Build
    (fun _ _ n => (Ok (DriveFileList.Build [] (Some (JS.ofNat n))), S n))
    (fun _ _ n => (Ok (DriveFileList.Build [] (Some (JS.ofNat n))), S n))
    (fun _ => 0).

(** The files of the mock store that are books, on one page, in the
    order of insertion. *)
Definition booksOf (w : MockGoogleDriveService.t) : DriveFileList.t :=
  DriveFileList.Build
    (map MockGoogleDriveService.toDriveFile
       (List.filter
          (fun f => bool_decide
             (DriveFile.properties (MockGoogleDriveService.file f) !! Key.app_type
              = Some MockGoogleDriveService.APP_TYPE_VALUE))
          (MockGoogleDriveService.map_values (MockGoogleDriveService.files w))))
    None.

Definition onePage : Listing.t MockGoogleDriveService.t :=
  Listing.Build (fun _ _ w => (Ok (booksOf w), w))
                (fun _ _ w => (Ok (booksOf w), w))
                (fun _ => 0).

End ListingExamples.

(** Stores that fail in one place, for examples. *)
Module FailingStores.

(** The mock store with a [renameFile] that throws. *)
Definition renameFails : GoogleDriveService.t MockGoogleDriveService.t :=
  GoogleDriveService.Build
    MockGoogleDriveService.ensureMyLibraryFolder
    MockGoogleDriveService.ensureAuthorFolder
    MockGoogleDriveService.uploadFile
    MockGoogleDriveService.uploadCoverImage
    MockGoogleDriveService.updateFileProperties
    (fun _ _ => throw (JS.lit "rename failed"))
    MockGoogleDriveService.moveFile
    MockGoogleDriveService.getFile
    MockGoogleDriveService.getFileContent
    MockGoogleDriveService.deleteFile
    MockGoogleDriveService.findBookByIsbn
    MockGoogleDriveService.findFilesByParent.

Definition bookService : BookService.t MockGoogleDriveService.t :=
  BookService.Build renameFails (constantService None) LibraryExamples.noNetwork.

End FailingStores.

(** ** The OPDS feed ([routes/opds.ts]) *)

Module Opds.

(** [s.replace(/c/g, replacement)] for a pattern of one code unit and a
    replacement that holds no [$]. *)
Definition replaceAll (c : Z) (replacement : list Z) (s : list Z) : list Z :=
  flat_map (fun d => if d =? c then replacement else [d]) s.

Definition escapeXml (str : list Z) : list Z :=
  replaceAll 39 (JS.lit "&apos;")
    (replaceAll 34 (JS.lit "&quot;")
       (replaceAll 62 (JS.lit "&gt;")
          (replaceAll 60 (JS.lit "&lt;")
             (replaceAll 38 (JS.lit "&amp;") str)))).

End Opds.

Module OpdsSpec.

(** What one code unit is written as. *)
Definition entityOf (c : Z) : list Z :=
  if c =? 38 then JS.lit "&amp;"
  else if c =? 60 then JS.lit "&lt;"
  else if c =? 62 then JS.lit "&gt;"
  else if c =? 34 then JS.lit "&quot;"
  else if c =? 39 then JS.lit "&apos;"
  else [c].

(** The five code units [escapeXml] rewrites. *)
Definition special (c : Z) : Prop :=
  c = 38 \/ c = 60 \/ c = 62 \/ c = 34 \/ c = 39.

End OpdsSpec.

(** ** The numbering of the mock store *)

Module MockSpec.

(** The name the mock gives the [n]th file it creates. *)
Definition numbered (n : nat) : list Z := JS.lit "file_" ++ JS.ofNat n.

(** Every stored id of the form [file_n] has been given out already. *)
Definition wellNumbered (s : MockGoogleDriveService.t) : Prop :=
  forall n : nat,
    is_Some (MockGoogleDriveService.map_get (numbered n) (MockGoogleDriveService.files s)) ->
    (n < MockGoogleDriveService.nextId s)%nat.

End MockSpec.

(** ** The store calls of one migration unit *)

Module UnitSteps.
Section Steps.
Context (toLowerCase : list Z -> list Z).
Context (parseMetadataOpf : list Z -> PartialMetadata.t).
Context {W : Type} (this : CalibreMigrator.t W).

Abbreviation drive := (CalibreMigrator.driveService this).
Abbreviation bookDrive :=
  (BookService.driveService (CalibreMigrator.bookService this)).
Abbreviation St := (W * CacheService.t DriveFileList.t)%type.

(** The store answers the reading of the metadata document of the
    folder, when it lists one, with a content that parses to
    [metadata]; without a document nothing is asked and the metadata is
    empty. *)
Definition metadataRead (files : list DriveFile.t) (w : W)
    (metadata : PartialMetadata.t) (w' : W) : Prop :=
  match find (CalibreMigrator.named (JS.lit "metadata.opf")) files with
  | Some opfFile =>
      exists content,
        GoogleDriveService.getFileContent drive (DriveFile.id opfFile) w
          = (Ok content, w') /\
        metadata = parseMetadataOpf (Utf8.decode content)
  | None => metadata = PartialMetadata.empty /\ w' = w
  end.

(** The store of the records answers the search for the isbn of
    [metadata] with [existing]; an absent or empty isbn is not searched
    for. *)
Definition isbnProbed (metadata : PartialMetadata.t) (w : W)
    (existing : option DriveFile.t) (w' : W) : Prop :=
  if BookService.truthy_undefined (PartialMetadata.isbn metadata)
  then GoogleDriveService.findBookByIsbn bookDrive
         (default [] (PartialMetadata.isbn metadata)) w = (Ok existing, w')
  else existing = None /\ w' = w.

(** The calls these two steps make. *)
Definition metadataCalls (files : list DriveFile.t) : list Spy.Call :=
  match find (CalibreMigrator.named (JS.lit "metadata.opf")) files with
  | Some opfFile => [Spy.GetFileContent (DriveFile.id opfFile)]
  | None => []
  end.

Definition probeCalls (metadata : PartialMetadata.t) : list Spy.Call :=
  if BookService.truthy_undefined (PartialMetadata.isbn metadata)
  then [Spy.FindBookByIsbn (default [] (PartialMetadata.isbn metadata))]
  else [].

(** [metadata.title || bookFolderName] *)
Definition titleOf (metadata : PartialMetadata.t) (bookFolderName : list Z) : list Z :=
  BookService.or_undefined (PartialMetadata.title metadata) bookFolderName.

(** The [fullMetadata] a unit is registered with. *)
Definition fullMetadata (metadata : PartialMetadata.t) (bookFolderName : list Z)
  : BookMetadata.t :=
  BookMetadata.Build
    (BookService.or_undefined (PartialMetadata.isbn metadata) [])
    (titleOf metadata bookFolderName)
    (BookService.or_undefined (PartialMetadata.authors metadata) [])
    (BookService.or_undefined (PartialMetadata.publisher metadata) [])
    (BookService.or_undefined (PartialMetadata.publishedDate metadata) [])
    (BookService.or_undefined (PartialMetadata.description metadata) [])
    [].

(** A unit that gets as far as the download of its book file: the store
    lists [files] for the folder, the metadata document is read as
    [metadata], no record has its isbn, [bookFile] is the file chosen,
    and the run is not a dry run.  [w3] is the store then. *)
Definition prepared (bookFolderId : list Z) (options : MigrationOptions.t) (w : W)
    (files : list DriveFile.t) (metadata : PartialMetadata.t)
    (bookFile : DriveFile.t) (w3 : W) : Prop :=
  exists w1 w2 : W,
    GoogleDriveService.findFilesByParent drive bookFolderId w = (Ok files, w1) /\
    metadataRead files w1 metadata w2 /\
    isbnProbed metadata w2 None w3 /\
    CalibreMigrator.selectBookFile toLowerCase files = Some bookFile /\
    MigrationOptions.dryRun options <> Some true.

(** The places before the cover step where processing a unit can throw:
    the store call that throws [e], after the calls before it have
    succeeded, and the state it leaves. *)
Inductive throwsAt (bookFolderId bookFolderName : list Z)
    (options : MigrationOptions.t) (w : W) (ch : CacheService.t DriveFileList.t)
    (e : list Z) : St -> Prop :=
| listing_throws w1 :
    GoogleDriveService.findFilesByParent drive bookFolderId w = (Throw e, w1) ->
    throwsAt bookFolderId bookFolderName options w ch e (w1, ch)
| metadata_throws files w1 opfFile w2 :
    GoogleDriveService.findFilesByParent drive bookFolderId w = (Ok files, w1) ->
    find (CalibreMigrator.named (JS.lit "metadata.opf")) files = Some opfFile ->
    GoogleDriveService.getFileContent drive (DriveFile.id opfFile) w1
      = (Throw e, w2) ->
    throwsAt bookFolderId bookFolderName options w ch e (w2, ch)
| probe_throws files w1 metadata w2 w3 :
    GoogleDriveService.findFilesByParent drive bookFolderId w = (Ok files, w1) ->
    metadataRead files w1 metadata w2 ->
    BookService.truthy_undefined (PartialMetadata.isbn metadata) = true ->
    GoogleDriveService.findBookByIsbn bookDrive
      (default [] (PartialMetadata.isbn metadata)) w2 = (Throw e, w3) ->
    throwsAt bookFolderId bookFolderName options w ch e (w3, ch)
| download_throws files metadata bookFile w3 w4 :
    prepared bookFolderId options w files metadata bookFile w3 ->
    GoogleDriveService.getFileContent drive (DriveFile.id bookFile) w3
      = (Throw e, w4) ->
    throwsAt bookFolderId bookFolderName options w ch e (w4, ch)
| registration_throws files metadata bookFile w3 bookContent w4 s5 :
    prepared bookFolderId options w files metadata bookFile w3 ->
    GoogleDriveService.getFileContent drive (DriveFile.id bookFile) w3
      = (Ok bookContent, w4) ->
    BookService.registerBook (CalibreMigrator.bookService this)
      (fullMetadata metadata bookFolderName) bookContent
      (CalibreMigrator.getMimeType toLowerCase (DriveFile.name bookFile)) (w4, ch)
      = (Throw e, s5) ->
    throwsAt bookFolderId bookFolderName options w ch e s5.

(** `cover_${registeredFile.id}.jpg` *)
Definition coverFileName (registeredFile : DriveFile.t) : list Z :=
  JS.lit "cover_" ++ DriveFile.id registeredFile ++ JS.lit ".jpg".

(** The three store calls of the cover step, and the one that throws
    [e], after the calls before it have succeeded. *)
Inductive coverThrows (coverFile registeredFile : DriveFile.t) (w : W) (e : list Z)
  : W -> Prop :=
| cover_download_throws w1 :
    GoogleDriveService.getFileContent drive (DriveFile.id coverFile) w
      = (Throw e, w1) ->
    coverThrows coverFile registeredFile w e w1
| cover_upload_throws coverData w1 w2 :
    GoogleDriveService.getFileContent drive (DriveFile.id coverFile) w
      = (Ok coverData, w1) ->
    GoogleDriveService.uploadCoverImage drive
      (hd [] (DriveFile.parents registeredFile)) (coverFileName registeredFile)
      coverData (JS.lit "image/jpeg") w1 = (Throw e, w2) ->
    coverThrows coverFile registeredFile w e w2
| cover_update_throws coverData w1 coverDriveFile w2 w3 :
    GoogleDriveService.getFileContent drive (DriveFile.id coverFile) w
      = (Ok coverData, w1) ->
    GoogleDriveService.uploadCoverImage drive
      (hd [] (DriveFile.parents registeredFile)) (coverFileName registeredFile)
      coverData (JS.lit "image/jpeg") w1 = (Ok coverDriveFile, w2) ->
    GoogleDriveService.updateFileProperties drive (DriveFile.id registeredFile)
      (<[Key.cover_file_id := DriveFile.id coverDriveFile]>
         (DriveFile.properties registeredFile)) w2 = (Throw e, w3) ->
    coverThrows coverFile registeredFile w e w3.

End Steps.
End UnitSteps.

(** A book folder with a cover image, and a folder without a book file,
    for examples. *)
Module CoverExamples.
Import CalibreExamples.

(** The first book of the tests' library with a [cover.jpg] beside its
    EPUB, and a second folder of the same author that holds notes
    only. *)
Definition libraryWithCover : MockGoogleDriveService.t :=
  MockGoogleDriveService.Build
    (book "1" ++
     [entry "cover-bf-book1" "cover.jpg" "image/jpeg" "bf-book1"
        (Some [0xFF; 0xD8; 0xFF]);
      entry "bf-notes" "Notes" FOLDER "af-author1" None;
      entry "txt-bf-notes" "notes.txt" "text/plain" "bf-notes" (Some [2])])
    1 [] false.

Definition state : BookService.State MockGoogleDriveService.t :=
  (libraryWithCover, CacheService.create CacheService.DEFAULT_TTL).

(** The mock store with an [uploadCoverImage] that throws. *)
Definition coverUploadFails : GoogleDriveService.t MockGoogleDriveService.t :=
  GoogleDriveService.Build
    MockGoogleDriveService.ensureMyLibraryFolder
    MockGoogleDriveService.ensureAuthorFolder
    MockGoogleDriveService.uploadFile
    (fun _ _ _ _ => throw (JS.lit "cover upload failed"))
    MockGoogleDriveService.updateFileProperties
    MockGoogleDriveService.renameFile
    MockGoogleDriveService.moveFile
    MockGoogleDriveService.getFile
    MockGoogleDriveService.getFileContent
    MockGoogleDriveService.deleteFile
    MockGoogleDriveService.findBookByIsbn
    MockGoogleDriveService.findFilesByParent.

Definition failingMigrator : CalibreMigrator.t MockGoogleDriveService.t :=
  CalibreMigrator.Build coverUploadFails
    (BookService.Build coverUploadFails (constantService None)
       LibraryExamples.noNetwork).

(** The folder of the first book, as the store lists it. *)
Definition bookFolder : DriveFile.t :=
  MockGoogleDriveService.file
    (entry "bf-book1" "Book 1 (2020)" FOLDER "af-author1" None).2.

End CoverExamples.

(** ** What [registerBook] sends to the store *)

Module RegisterSpec.

(** The [properties] a book is uploaded with. *)
Definition properties (metadata : BookMetadata.t) : gmap (list Z) (list Z) :=
  let properties0 : gmap (list Z) (list Z) :=
    <[Key.published_date := JS.or (BookMetadata.publishedDate metadata) []]>
    (<[Key.publisher := JS.or (BookMetadata.publisher metadata) []]>
    (<[Key.authors := BookMetadata.authors metadata]>
    (<[Key.title := BookMetadata.title metadata]>
    (<[Key.isbn := JS.or (BookMetadata.isbn metadata) []]>
    (<[Key.app_type := JS.lit "my_library_book"]> ∅))))) in
  if JS.truthy (BookMetadata.description metadata)
  then <[Key.description := BookMetadata.description metadata]> properties0
  else properties0.

(** The name it is uploaded under. *)
Definition fileName (metadata : BookMetadata.t) (fileMimeType : list Z) : list Z :=
  FileName.formatFileName (BookMetadata.authors metadata)
    (BookMetadata.title metadata) (FileName.getExtension fileMimeType).

(** `cover_${file.id}.jpg` *)
Definition coverFileName (file : DriveFile.t) : list Z :=
  JS.lit "cover_" ++ DriveFile.id file ++ JS.lit ".jpg".

(** [file.properties.cover_file_id = coverFileId] *)
Definition withCover (file : DriveFile.t) (coverFileId : list Z) : DriveFile.t :=
  DriveFile.Build
    (DriveFile.id file) (DriveFile.name file) (DriveFile.mimeType file)
    (<[Key.cover_file_id := coverFileId]> (DriveFile.properties file))
    (DriveFile.parents file) (DriveFile.webContentLink file)
    (DriveFile.thumbnailLink file) (DriveFile.size file).

(** The cover has been downloaded from [url], uploaded as [coverFile]
    and its id written into the properties of [uploaded]: the answers
    of the network and of the store to the calls of the cover step, all
    of them successful.  [w] is the world before and [w'] after. *)
Definition coverStored {W : Type} (this : BookService.t W) (metadata : BookMetadata.t)
    (authorFolderId : list Z) (uploaded coverFile : DriveFile.t) (w w' : W) : Prop :=
  exists (res : Response.t W) (w1 : W) (coverData : list Z) (w2 w3 : W)
         (updated : DriveFile.t),
    JS.truthy (BookMetadata.coverImageUrl metadata) = true /\
    BookService.fetch this (BookMetadata.coverImageUrl metadata) w = (Ok res, w1) /\
    Response.ok res = true /\
    Response.arrayBuffer res w1 = (Ok coverData, w2) /\
    GoogleDriveService.uploadCoverImage (BookService.driveService this)
      authorFolderId (coverFileName uploaded) coverData (JS.lit "image/jpeg") w2
      = (Ok coverFile, w3) /\
    GoogleDriveService.updateFileProperties (BookService.driveService this)
      (DriveFile.id uploaded)
      (<[Key.cover_file_id := DriveFile.id coverFile]> (properties metadata)) w3
      = (Ok updated, w').

End RegisterSpec.

(** A network that answers, for examples. *)
Module OnlineExamples.

(** Every request is answered with an image. *)
Definition online {W : Type} : list Z -> M W (Response.t W) :=
  fun _ => ret (Response.Build true (ret [0xFF; 0xD8; 0xFF])).

Definition bookService : BookService.t MockGoogleDriveService.t :=
  BookService.Build MockGoogleDriveService.service (constantService None) online.

(** The state after a book with a cover address has been registered in
    the empty store: the book is [file_3], its cover [file_4]. *)
Definition registered : BookService.State MockGoogleDriveService.t :=
  (BookService.registerBook bookService MetadataExamples.complete [1; 2; 3]
     LibraryExamples.EPUB (LibraryExamples.emptyStore, LibraryExamples.warmCache)).2.

End OnlineExamples.

(** * Properties *)

(** ** Bit arithmetic on bytes *)

Section BitFacts.

(** A property checked on every value below a bound holds below it. *)
Lemma below_forallb (P : Z -> bool) (n : nat) :
  forallb P (map Z.of_nat (seq 0 n)) = true ->
  forall b, 0 <= b < Z.of_nat n -> P b = true.
Proof.
  intros H b Hb. rewrite forallb_forall in H. apply H.
  apply in_map_iff. exists (Z.to_nat b). split; [lia|].
  apply in_seq. lia.
Qed.

Lemma shiftr_div (c : Z) (n : Z) : 0 <= n -> Z.shiftr c n = c / 2 ^ n.
Proof. intros. apply Z.shiftr_div_pow2; lia. Qed.

Lemma land_63 (c : Z) : Z.land c 0x3F = c mod 64.
Proof. change 0x3F with (Z.ones 6). rewrite Z.land_ones by lia. reflexivity. Qed.

Lemma land_1023 (c : Z) : Z.land c 0x3FF = c mod 1024.
Proof. change 0x3FF with (Z.ones 10). rewrite Z.land_ones by lia. reflexivity. Qed.

Lemma lor_128 (y : Z) : 0 <= y < 64 -> Z.lor 0x80 y = 128 + y.
Proof.
  intros Hy.
  pose proof (below_forallb (fun y => Z.lor 0x80 y =? 128 + y) 64 eq_refl y Hy) as H.
  simpl in H. lia.
Qed.

Lemma lor_shiftl_6 (x y : Z) :
  0 <= x -> 0 <= y < 64 -> Z.lor (Z.shiftl x 6) y = x * 64 + y.
Proof.
  intros Hx Hy.
  assert (Hl : Z.land (Z.shiftl x 6) y = 0).
  { apply Z.bits_inj'. intros n Hn. rewrite Z.land_spec, Z.bits_0.
    destruct (Z.lt_ge_cases n 6) as [Hlt|Hge].
    - rewrite Z.shiftl_spec_low by lia. reflexivity.
    - replace (Z.testbit y n) with false; [apply andb_false_r|].
      symmetry. destruct (Z.eq_dec y 0) as [->|Hne]; [apply Z.bits_0|].
      apply Z.bits_above_log2; [lia|].
      apply Z.log2_lt_pow2; [lia|].
      apply Z.lt_le_trans with (2 ^ 6); [simpl; lia|].
      apply Z.pow_le_mono_r; lia. }
  rewrite <- Z.lxor_lor by exact Hl.
  rewrite <- Z.add_nocarry_lxor by exact Hl.
  rewrite Z.shiftl_mul_pow2 by lia. reflexivity.
Qed.

(** The continuation-byte test of [truncateToBytes], on a byte. *)
Lemma continuation_test (b : Z) :
  0 <= b < 256 ->
  (Z.land b 0xC0 =? 0x80) = (128 <=? b) && (b <=? 191).
Proof.
  intros Hb.
  pose proof (below_forallb
    (fun b => Bool.eqb (Z.land b 0xC0 =? 0x80) ((128 <=? b) && (b <=? 191)))
    256 eq_refl b Hb) as H.
  simpl in H. apply Bool.eqb_prop in H. exact H.
Qed.

Lemma land_lead2 (b : Z) : 0xC0 <= b <= 0xDF -> Z.land b 0x1F = b - 0xC0.
Proof.
  intros Hb.
  pose proof (below_forallb
    (fun b => negb ((0xC0 <=? b) && (b <=? 0xDF)) || (Z.land b 0x1F =? b - 0xC0))
    256 eq_refl b ltac:(lia)) as H.
  simpl in H.
  replace ((192 <=? b) && (b <=? 223)) with true in H by lia.
  simpl in H. lia.
Qed.

Lemma land_lead3 (b : Z) : 0xE0 <= b <= 0xEF -> Z.land b 0xF = b - 0xE0.
Proof.
  intros Hb.
  pose proof (below_forallb
    (fun b => negb ((0xE0 <=? b) && (b <=? 0xEF)) || (Z.land b 0xF =? b - 0xE0))
    256 eq_refl b ltac:(lia)) as H.
  simpl in H.
  replace ((224 <=? b) && (b <=? 239)) with true in H by lia.
  simpl in H. lia.
Qed.

Lemma land_lead4 (b : Z) : 0xF0 <= b <= 0xF7 -> Z.land b 0x7 = b - 0xF0.
Proof.
  intros Hb.
  pose proof (below_forallb
    (fun b => negb ((0xF0 <=? b) && (b <=? 0xF7)) || (Z.land b 0x7 =? b - 0xF0))
    256 eq_refl b ltac:(lia)) as H.
  simpl in H.
  replace ((240 <=? b) && (b <=? 247)) with true in H by lia.
  simpl in H. lia.
Qed.

End BitFacts.

(** ** The UTF-8 encoder produces well-formed sequences *)

Ltac bits_to_arith :=
  repeat first
    [ rewrite !shiftr_div by lia
    | rewrite !land_63
    | rewrite !lor_128 by (apply Z.mod_pos_bound; lia) ];
  change (2 ^ 6) with 64 in *; change (2 ^ 12) with 4096 in *;
  change (2 ^ 18) with 262144 in *.

Ltac arith := Z.div_mod_to_equations; lia.

Section Utf8Facts.
Import JS Utf8.

(** Every code point is encoded as a lead byte followed by continuation
    bytes only. *)
Lemma encode_code_point_shape (c : Z) :
  scalar c ->
  exists b tl, encode_code_point c = b :: tl /\
    0 <= b < 256 /\ ~ continuation b /\ Forall continuation tl.
Proof.
  intros Hc. unfold scalar in Hc. unfold encode_code_point, continuation.
  destruct (Z.leb_spec c 0x7F); [|destruct (Z.leb_spec c 0x7FF);
    [|destruct (Z.leb_spec c 0xFFFF)]];
  eexists _, _; (split; [reflexivity|]); bits_to_arith;
  repeat split; repeat constructor;
  Z.div_mod_to_equations; lia.
Qed.

Lemma to_scalar_values_scalar (s : jsstring) :
  wf_string s -> Forall scalar (to_scalar_values s).
Proof.
  unfold wf_string.
  remember (length s) as n eqn:Hn. revert s Hn.
  induction n as [n IH] using lt_wf_ind. intros s Hn Hs.
  destruct s as [|u rest]; [constructor|].
  apply Forall_cons_1 in Hs as [Hu Hrest]. unfold code_unit in Hu.
  assert (IHrest : Forall scalar (to_scalar_values rest)).
  { apply (IH (length rest)); simpl in *; [lia|reflexivity|exact Hrest]. }
  simpl. unfold is_high_surrogate, is_low_surrogate.
  destruct (Z.leb_spec 0xD800 u), (Z.leb_spec u 0xDBFF); simpl.
  2-4: destruct (Z.leb_spec 0xDC00 u), (Z.leb_spec u 0xDFFF); simpl;
       constructor; try exact IHrest; unfold scalar; lia.
  destruct rest as [|l rest']; [repeat constructor; unfold scalar; lia|].
  apply Forall_cons_1 in Hrest as [Hl Hrest']. unfold code_unit in Hl.
  destruct (Z.leb_spec 0xDC00 l), (Z.leb_spec l 0xDFFF); simpl.
  2-4: constructor; [unfold scalar; lia | exact IHrest].
  constructor; [unfold scalar; lia|].
  apply (IH (length rest')); simpl in *; [lia|reflexivity|exact Hrest'].
Qed.

Lemma encode_code_points_app (xs ys : list Z) :
  encode_code_points (xs ++ ys) = encode_code_points xs ++ encode_code_points ys.
Proof. unfold encode_code_points. apply flat_map_app. Qed.

Lemma encode_code_points_cons (c : Z) (cs : list Z) :
  encode_code_points (c :: cs) = encode_code_point c ++ encode_code_points cs.
Proof. reflexivity. Qed.

(** The encoding of a prefix of the code points is a prefix of the
    encoding. *)
Lemma take_encode_code_points (k : nat) (cs : list Z) :
  take (length (encode_code_points (take k cs))) (encode_code_points cs)
  = encode_code_points (take k cs).
Proof.
  rewrite <- (take_drop k cs) at 2.
  rewrite encode_code_points_app. apply take_app_length.
Qed.

Lemma encode_code_points_take_le (k : nat) (cs : list Z) :
  (length (encode_code_points (take k cs)) <= length (encode_code_points cs))%nat.
Proof.
  rewrite <- (take_drop k cs) at 2.
  rewrite encode_code_points_app, length_app. lia.
Qed.

Lemma encode_code_points_byte (cs : list Z) (p : nat) (b : Z) :
  Forall scalar cs -> encode_code_points cs !! p = Some b -> 0 <= b < 256.
Proof.
  intros Hcs. revert p. induction Hcs as [|c cs Hc Hcs IH]; intros p Hp.
  - discriminate.
  - rewrite encode_code_points_cons in Hp.
    apply lookup_app_Some in Hp as [Hp | [_ Hp]]; [|eapply IH; exact Hp].
    destruct (encode_code_point_shape c Hc) as (b0 & tl & E & Hb0 & _ & Htl).
    rewrite E in Hp. destruct p as [|p]; simpl in Hp.
    + congruence.
    + rewrite Forall_lookup in Htl. specialize (Htl _ _ Hp).
      unfold continuation in Htl. lia.
Qed.

(** A position whose byte is not a continuation byte starts a code point. *)
Lemma lead_position_boundary (cs : list Z) (p : nat) (b : Z) :
  Forall scalar cs ->
  encode_code_points cs !! p = Some b -> ~ continuation b ->
  exists k, p = length (encode_code_points (take k cs)).
Proof.
  intros Hcs. revert p. induction Hcs as [|c cs Hc Hcs IH]; intros p Hp Hb.
  - discriminate.
  - rewrite encode_code_points_cons in Hp.
    apply lookup_app_Some in Hp as [Hp | [Hlen Hp]].
    + destruct (encode_code_point_shape c Hc) as (b0 & tl & E & _ & _ & Htl).
      rewrite E in Hp. destruct p as [|p]; [exists 0%nat; reflexivity|].
      simpl in Hp. rewrite Forall_lookup in Htl.
      specialize (Htl _ _ Hp). contradiction.
    + destruct (IH _ Hp Hb) as [k Hk]. exists (S k).
      rewrite firstn_cons, encode_code_points_cons, length_app. lia.
Qed.

(** Conversely, the byte at a code-point boundary is never a continuation
    byte. *)
Lemma boundary_lead_position (cs : list Z) (k : nat) (b : Z) :
  Forall scalar cs ->
  encode_code_points cs !! length (encode_code_points (take k cs)) = Some b ->
  ~ continuation b.
Proof.
  intros Hcs. revert k. induction Hcs as [|c cs Hc Hcs IH]; intros k Hp.
  - rewrite take_nil in Hp. discriminate.
  - destruct (encode_code_point_shape c Hc) as (b0 & tl & E & _ & Hb0 & _).
    destruct k as [|k].
    + change (encode_code_points (c :: cs) !! 0%nat = Some b) in Hp.
      rewrite encode_code_points_cons, E in Hp. simpl in Hp. congruence.
    + rewrite firstn_cons, !encode_code_points_cons, length_app in Hp.
      rewrite lookup_app_r in Hp by lia.
      replace (length (encode_code_point c) +
               length (encode_code_points (take k cs)) -
               length (encode_code_point c))%nat
        with (length (encode_code_points (take k cs))) in Hp by lia.
      eapply IH; exact Hp.
Qed.

End Utf8Facts.

(** ** The decoder inverts the encoder *)

Section Decoder.
Import JS Utf8.

Lemma decode_from_dinit (b : Z) (rest : list Z) :
  decode_from dinit (b :: rest)
  = (lead b).1 ++ decode_from (lead b).2 rest.
Proof. simpl. destruct (lead b). reflexivity. Qed.

Lemma lead_1 (b : Z) : 0 <= b <= 0x7F -> lead b = ([CodePoint b], dinit).
Proof.
  intros Hb. unfold lead.
  replace ((0 <=? b) && (b <=? 127)) with true by lia. reflexivity.
Qed.

Lemma lead_2 (b : Z) :
  0xC2 <= b <= 0xDF -> lead b = ([], DState (b - 0xC0) 0 1 0x80 0xBF).
Proof.
  intros Hb. unfold lead.
  replace ((0 <=? b) && (b <=? 127)) with false by lia.
  replace ((194 <=? b) && (b <=? 223)) with true by lia.
  rewrite land_lead2 by lia. reflexivity.
Qed.

Lemma lead_3 (b : Z) :
  0xE0 <= b <= 0xEF ->
  lead b = ([], DState (b - 0xE0) 0 2
                       (if b =? 0xE0 then 0xA0 else 0x80)
                       (if b =? 0xED then 0x9F else 0xBF)).
Proof.
  intros Hb. unfold lead.
  replace ((0 <=? b) && (b <=? 127)) with false by lia.
  replace ((194 <=? b) && (b <=? 223)) with false by lia.
  replace ((224 <=? b) && (b <=? 239)) with true by lia.
  rewrite land_lead3 by lia. reflexivity.
Qed.

Lemma lead_4 (b : Z) :
  0xF0 <= b <= 0xF4 ->
  lead b = ([], DState (b - 0xF0) 0 3
                       (if b =? 0xF0 then 0x90 else 0x80)
                       (if b =? 0xF4 then 0x8F else 0xBF)).
Proof.
  intros Hb. unfold lead.
  replace ((0 <=? b) && (b <=? 127)) with false by lia.
  replace ((194 <=? b) && (b <=? 223)) with false by lia.
  replace ((224 <=? b) && (b <=? 239)) with false by lia.
  replace ((240 <=? b) && (b <=? 244)) with true by lia.
  rewrite land_lead4 by lia. reflexivity.
Qed.

(** One step of the decoder on an expected continuation byte. *)
Lemma decode_from_continuation (cp seen needed lo hi x : Z) (rest : list Z) :
  needed <> 0 -> 0 <= cp -> 0 <= x < 64 -> lo <= 128 + x <= hi ->
  decode_from (DState cp seen needed lo hi) ((128 + x) :: rest) =
    if seen + 1 =? needed
    then CodePoint (cp * 64 + x) :: decode_from dinit rest
    else decode_from (DState (cp * 64 + x) (seen + 1) needed 0x80 0xBF) rest.
Proof.
  intros Hn Hcp Hx Hr. simpl.
  destruct (Z.eqb_spec needed 0) as [|_]; [contradiction|].
  replace ((lo <=? 128 + x) && (128 + x <=? hi)) with true by lia.
  rewrite land_63.
  replace ((128 + x) mod 64) with x by (Z.div_mod_to_equations; lia).
  rewrite lor_shiftl_6 by lia. reflexivity.
Qed.

Lemma decode_from_encode_code_point (c : Z) (rest : list Z) :
  scalar c ->
  decode_from dinit (encode_code_point c ++ rest)
  = CodePoint c :: decode_from dinit rest.
Proof.
  intros Hc. unfold scalar in Hc. unfold encode_code_point.
  destruct (Z.leb_spec c 0x7F); [|destruct (Z.leb_spec c 0x7FF);
    [|destruct (Z.leb_spec c 0xFFFF)]]; bits_to_arith;
  cbn [app]; rewrite decode_from_dinit.
  - rewrite lead_1 by lia. reflexivity.
  - rewrite lead_2 by arith. cbn [fst snd app].
    rewrite decode_from_continuation by arith.
    change (0 + 1 =? 1) with true. cbv iota. do 2 f_equal. arith.
  - rewrite lead_3 by arith. cbn [fst snd app].
    rewrite decode_from_continuation; try arith.
    + change (0 + 1 =? 2) with false. cbv iota.
      rewrite decode_from_continuation by arith.
      change (0 + 1 + 1 =? 2) with true. cbv iota. do 2 f_equal. arith.
    + destruct (Z.eqb_spec (c / 4096 + 224) 224),
               (Z.eqb_spec (c / 4096 + 224) 237); arith.
  - rewrite lead_4 by arith. cbn [fst snd app].
    rewrite decode_from_continuation; try arith.
    + change (0 + 1 =? 3) with false. cbv iota.
      rewrite decode_from_continuation by arith.
      change (0 + 1 + 1 =? 3) with false. cbv iota.
      rewrite decode_from_continuation by arith.
      change (0 + 1 + 1 + 1 =? 3) with true. cbv iota. do 2 f_equal. arith.
    + destruct (Z.eqb_spec (c / 262144 + 240) 240),
               (Z.eqb_spec (c / 262144 + 240) 244); arith.
Qed.

Lemma decode_items_encode_code_points (cs : list Z) :
  Forall scalar cs ->
  decode_items (encode_code_points cs) = map CodePoint cs.
Proof.
  unfold decode_items. induction 1 as [|c cs Hc Hcs IH]; [reflexivity|].
  rewrite encode_code_points_cons, decode_from_encode_code_point by exact Hc.
  rewrite IH. reflexivity.
Qed.

(** UTF-16 round trip on scalar values. *)
Lemma to_scalar_values_code_units_of (c : Z) (s : list Z) :
  scalar c ->
  to_scalar_values (code_units_of c ++ s) = c :: to_scalar_values s.
Proof.
  intros Hc. unfold scalar in Hc. unfold code_units_of.
  destruct (Z.leb_spec c 0xFFFF).
  - cbn [app to_scalar_values]. unfold is_high_surrogate, is_low_surrogate.
    replace ((55296 <=? c) && (c <=? 56319)) with false by lia.
    replace ((56320 <=? c) && (c <=? 57343)) with false by lia.
    reflexivity.
  - rewrite land_1023, shiftr_div by lia. change (2 ^ 10) with 1024.
    cbn [app to_scalar_values]. unfold is_high_surrogate, is_low_surrogate.
    replace ((55296 <=? 55296 + (c - 65536) / 1024) &&
             (55296 + (c - 65536) / 1024 <=? 56319)) with true by arith.
    replace ((56320 <=? 56320 + (c - 65536) mod 1024) &&
             (56320 + (c - 65536) mod 1024 <=? 57343)) with true by arith.
    f_equal. arith.
Qed.

Lemma to_scalar_values_of_code_points (cs : list Z) :
  Forall scalar cs -> to_scalar_values (of_code_points cs) = cs.
Proof.
  induction 1 as [|c cs Hc Hcs IH]; [reflexivity|].
  unfold of_code_points in *. cbn [flat_map].
  rewrite to_scalar_values_code_units_of by exact Hc. rewrite IH. reflexivity.
Qed.

End Decoder.

(** ** The cut point of [truncateToBytes] *)

Section WalkBack.
Import JS Utf8 Drive.

Lemma walk_back_le (encoded : list Z) (n : nat) : (walk_back encoded n <= n)%nat.
Proof.
  induction n as [|n IH]; simpl; [lia|].
  destruct (and_at encoded (S n) 192 =? 128); lia.
Qed.

Lemma and_at_continuation (cs : list Z) (p : nat) :
  Forall scalar cs ->
  (and_at (encode_code_points cs) p 0xC0 =? 0x80) = true <->
  exists b, encode_code_points cs !! p = Some b /\ continuation b.
Proof.
  intros Hcs. unfold and_at, continuation.
  destruct (encode_code_points cs !! p) as [b|] eqn:E.
  - pose proof (encode_code_points_byte cs p b Hcs E) as Hb.
    rewrite continuation_test by exact Hb. split.
    + intros H. exists b. split; [reflexivity|lia].
    + intros (b' & [= <-] & H). lia.
  - split; [discriminate|]. intros (b & [=] & _).
Qed.

Lemma walk_back_boundary (cs : list Z) (n : nat) :
  Forall scalar cs ->
  (n < length (encode_code_points cs))%nat ->
  exists k, walk_back (encode_code_points cs) n
            = length (encode_code_points (take k cs)).
Proof.
  intros Hcs. induction n as [|n IH]; intros Hn.
  - exists 0%nat. reflexivity.
  - simpl.
    destruct (and_at (encode_code_points cs) (S n) 192 =? 128) eqn:E.
    + apply IH. lia.
    + destruct (lookup_lt_is_Some_2 _ _ Hn) as [b Hb].
      apply (lead_position_boundary cs (S n) b Hcs Hb).
      intros Hc. apply not_true_iff_false in E. apply E.
      apply and_at_continuation; [exact Hcs|]. eauto.
Qed.

Lemma walk_back_maximal (cs : list Z) (n k : nat) :
  Forall scalar cs ->
  (n < length (encode_code_points cs))%nat ->
  (length (encode_code_points (take k cs)) <= n)%nat ->
  (length (encode_code_points (take k cs))
     <= walk_back (encode_code_points cs) n)%nat.
Proof.
  intros Hcs. induction n as [|n IH]; intros Hn Hk.
  - simpl. exact Hk.
  - simpl.
    destruct (and_at (encode_code_points cs) (S n) 192 =? 128) eqn:E; [|exact Hk].
    apply IH; [lia|].
    destruct (Nat.eq_dec (length (encode_code_points (take k cs))) (S n)) as [Heq|]; [|lia].
    exfalso. apply and_at_continuation in E as (b & Hb & Hc); [|exact Hcs].
    rewrite <- Heq in Hb.
    exact (boundary_lead_position cs k b Hcs Hb Hc).
Qed.

End WalkBack.

(** ** Claim C3: property values are cut to the byte budget at a character boundary *)

Section Sanitize.
Import JS Utf8 Drive.

Lemma strip_bom_scalar (cs : list Z) :
  Forall scalar cs -> Forall scalar (strip_bom cs).
Proof.
  intros H. destruct H as [|c cs Hc Hcs]; simpl; [constructor|].
  destruct (c =? 0xFEFF); [exact Hcs | constructor; assumption].
Qed.

Lemma strip_bom_encoded_length (cs : list Z) :
  (length (encode_code_points (strip_bom cs)) <= length (encode_code_points cs))%nat.
Proof.
  destruct cs as [|c cs]; cbn [strip_bom]; [lia|].
  destruct (c =? 0xFEFF); [|reflexivity].
  rewrite encode_code_points_cons, length_app. lia.
Qed.

(** Decoding the encoding of scalar values gives them back, without the
    leading byte-order mark, and meets no malformed sequence. *)
Lemma decode_encode_code_points (cs : list Z) :
  Forall scalar cs ->
  decode (encode_code_points cs) = of_code_points (strip_bom cs).
Proof.
  intros Hcs. unfold decode.
  rewrite decode_items_encode_code_points by exact Hcs.
  rewrite map_map. simpl. rewrite map_id. reflexivity.
Qed.

Lemma maxValueBytes_eq (key : list Z) :
  maxValueBytes key = (124 - length (encode key))%nat.
Proof. unfold maxValueBytes, PROPERTY_MAX_BYTES. lia. Qed.

(** What [truncateToBytes] returns: the string itself when it fits, and
    otherwise the decoding of the longest prefix of whole code points
    that fits. *)
Lemma truncateToBytes_spec (str : list Z) (maxBytes : nat) :
  wf_string str ->
  let result := truncateToBytes str maxBytes in
  let cut := walk_back (encode str) maxBytes in
  (length (encode result) <= maxBytes)%nat /\
  ((length (encode str) <= maxBytes)%nat -> result = str) /\
  ((maxBytes < length (encode str))%nat ->
     exists k,
       let kept := take k (to_scalar_values str) in
       (cut <= maxBytes)%nat /\
       take cut (encode str) = encode_code_points kept /\
       decode_items (take cut (encode str)) = map CodePoint kept /\
       to_scalar_values result = strip_bom kept /\
       forall k', (length (encode_code_points (take k' (to_scalar_values str)))
                     <= maxBytes)%nat ->
                  (length (encode_code_points (take k' (to_scalar_values str)))
                     <= cut)%nat).
Proof.
  intros Hwf result cut. subst result cut. unfold truncateToBytes.
  pose proof (to_scalar_values_scalar str Hwf) as Hcs.
  destruct (Nat.leb_spec (length (encode str)) maxBytes) as [Hfit|Hlong].
  - split; [exact Hfit|]. split; [reflexivity|]. lia.
  - unfold encode in *.
    set (cs := to_scalar_values str) in *.
    destruct (walk_back_boundary cs maxBytes Hcs Hlong) as [k Hk].
    pose proof (walk_back_le (encode_code_points cs) maxBytes) as Hle.
    assert (Hkept : Forall scalar (take k cs)) by (apply Forall_take; exact Hcs).
    assert (Hslice : take (walk_back (encode_code_points cs) maxBytes)
                          (encode_code_points cs)
                     = encode_code_points (take k cs)).
    { rewrite Hk. apply take_encode_code_points. }
    assert (Hres : to_scalar_values
                     (decode (take (walk_back (encode_code_points cs) maxBytes)
                                   (encode_code_points cs)))
                   = strip_bom (take k cs)).
    { rewrite Hslice, decode_encode_code_points by exact Hkept.
      apply to_scalar_values_of_code_points, strip_bom_scalar, Hkept. }
    split; [|split; [lia|]].
    + rewrite Hres.
      pose proof (strip_bom_encoded_length (take k cs)). lia.
    + intros _. exists k. cbv zeta.
      split; [exact Hle|]. split; [exact Hslice|]. split.
      * rewrite Hslice. apply decode_items_encode_code_points, Hkept.
      * split; [exact Hres|]. intros k' Hk'.
        apply walk_back_maximal; assumption.
Qed.

Lemma sanitizeProperties_lookup (properties : gmap (list Z) (list Z)) (key : list Z) :
  sanitizeProperties properties !! key
  = (fun value => truncateToBytes value (maxValueBytes key)) <$> properties !! key.
Proof.
  unfold sanitizeProperties. rewrite map_lookup_imap.
  destruct (properties !! key); reflexivity.
Qed.

(** C3, as the code has it.  For every entry of the input, the output has
    an entry under the same key whose value, encoded again, fits the
    budget [max(0, 124 - keyBytes)]: so key and value together take at
    most 124 bytes whenever the key alone does.  A value that already
    fits is returned unchanged.  A value that does not is cut at the
    largest offset within the budget that is a boundary between two code
    points: the bytes kept are the encoding of a prefix of the value's
    code points, and decoding them meets no malformed sequence. *)
Theorem sanitizeProperties_within_budget
    (properties : gmap (list Z) (list Z)) (key value : list Z) :
  properties !! key = Some value ->
  wf_string value ->
  exists value',
    sanitizeProperties properties !! key = Some value' /\
    (length (encode value') <= 124 - length (encode key))%nat /\
    ((length (encode key) <= 124)%nat ->
     (length (encode key) + length (encode value') <= 124)%nat) /\
    ((length (encode key) + length (encode value) <= 124)%nat -> value' = value) /\
    ((124 - length (encode key) < length (encode value))%nat ->
     let cut := walk_back (encode value) (124 - length (encode key)) in
     exists k,
       let kept := take k (to_scalar_values value) in
       (cut <= 124 - length (encode key))%nat /\
       take cut (encode value) = encode_code_points kept /\
       decode_items (take cut (encode value)) = map CodePoint kept /\
       value' = decode (take cut (encode value)) /\
       to_scalar_values value' = strip_bom kept /\
       forall k', (length (encode_code_points (take k' (to_scalar_values value)))
                     <= 124 - length (encode key))%nat ->
                  (length (encode_code_points (take k' (to_scalar_values value)))
                     <= cut)%nat).
Proof.
  intros Hlookup Hwf.
  exists (truncateToBytes value (maxValueBytes key)).
  rewrite sanitizeProperties_lookup, Hlookup. split; [reflexivity|].
  rewrite maxValueBytes_eq.
  destruct (truncateToBytes_spec value (124 - length (encode key)) Hwf)
    as (Hlen & Hfit & Hcut).
  split; [exact Hlen|]. split; [lia|]. split; [intros; apply Hfit; lia|].
  intros Hlong cut. destruct (Hcut Hlong) as (k & H1 & H2 & H3 & H4 & H5).
  exists k. cbv zeta. repeat split; try assumption.
  unfold truncateToBytes.
  destruct (Nat.leb_spec (length (encode value)) (124 - length (encode key)));
    [lia|reflexivity].
Qed.

Lemma wf_string_repeat (u : Z) (n : nat) : code_unit u -> wf_string (repeat u n).
Proof. intros Hu. induction n; simpl; constructor; assumption. Qed.

(** The test's example: a hundred three-byte characters under the key
    [description]. *)
Lemma sanitizeProperties_within_budget_witness :
  let key := lit "description" in
  let value := repeat 0x3042 100 in
  exists value',
    sanitizeProperties {[ key := value ]} !! key = Some value' /\
    (length (encode key) + length (encode value') <= 124)%nat.
Proof.
  intros key value.
  destruct (sanitizeProperties_within_budget {[ key := value ]} key value)
    as (value' & Hl & _ & Hb & _).
  - apply lookup_singleton_eq.
  - apply wf_string_repeat. unfold code_unit. lia.
  - exists value'. split; [exact Hl|]. apply Hb. vm_compute. lia.
Defined.

(** C3 as it is stated fails for a key that is itself longer than 124
    bytes: the value is cut to the empty string and the pair still
    exceeds the limit. *)
Lemma sanitizeProperties_long_key :
  ~ (forall (properties : gmap (list Z) (list Z)) (key value value' : list Z),
       properties !! key = Some value -> wf_string key -> wf_string value ->
       sanitizeProperties properties !! key = Some value' ->
       (length (encode key) + length (encode value') <= 124)%nat).
Proof.
  intros H.
  specialize (H {[ repeat 97 125 := lit "x" ]} (repeat 97 125) (lit "x") []).
  assert (Hgt : (length (encode (repeat 97%Z 125)) + length (encode []) <= 124)%nat).
  { apply H.
    - apply lookup_singleton_eq.
    - apply wf_string_repeat. unfold code_unit. lia.
    - repeat constructor; unfold code_unit; simpl; lia.
    - rewrite sanitizeProperties_lookup, lookup_singleton_eq. reflexivity. }
  vm_compute in Hgt. lia.
Qed.

End Sanitize.

(** ** Claims C1 and C5: the composite metadata lookup *)

Section Composite.
Import BookMetadata CompositeMetadataService.

Lemma or_nonempty (a b : list Z) : a <> [] -> JS.or a b = a.
Proof. destruct a; [contradiction|reflexivity]. Qed.

Lemma or_empty (b : list Z) : JS.or [] b = b.
Proof. reflexivity. Qed.

Lemma merge_fill (primary secondary : BookMetadata.t) (f : BookMetadata.t -> list Z) :
  In f fillFields ->
  f (merge primary secondary) = JS.or (f primary) (f secondary).
Proof.
  unfold fillFields. simpl.
  intros [<-|[<-|[<-|[<-|[<-|[]]]]]]; reflexivity.
Qed.

(** A field is kept by any number of later merges once it is filled. *)
Lemma loop_keeps {W : Type} (services : list (BookMetadataService.t W))
    (isbn0 : list Z) (acc : BookMetadata.t) (w : W) :
  exists res w',
    loop services isbn0 (Some acc) w = (Ok (Some res), w') /\
    isbn res = isbn acc /\ title res = title acc /\
    forall f, In f fillFields -> f acc <> [] -> f res = f acc.
Proof.
  revert acc w. induction services as [|service rest IH]; intros acc w.
  - exists acc, w. repeat split; reflexivity.
  - simpl.
    destruct (BookMetadataService.fetchByIsbn service isbn0 w) as [[[current|]|e] w1];
      [|apply IH|apply IH].
    destruct (isComplete (merge acc current)).
    + exists (merge acc current), w1. repeat split.
      intros f Hf Hne. rewrite merge_fill by exact Hf. apply or_nonempty, Hne.
    + destruct (IH (merge acc current) w1) as (res & w' & E & Hi & Ht & Hk).
      exists res, w'. split; [exact E|]. split; [rewrite Hi; reflexivity|].
      split; [rewrite Ht; reflexivity|].
      intros f Hf Hne. rewrite Hk by (try exact Hf; rewrite merge_fill by exact Hf;
        rewrite or_nonempty by exact Hne; exact Hne).
      rewrite merge_fill by exact Hf. apply or_nonempty, Hne.
Qed.

(** C1.  Merging a later result into the accumulator keeps the
    accumulator's [isbn] and [title]; each of the five fill-candidate
    fields keeps the accumulator's value when it is not empty and takes
    the later source's value when it is.  The loop of [fetchByIsbn]
    replaces the accumulator by exactly this merge when a later source
    answers, and whatever the remaining sources answer, the final result
    still has the accumulator's [isbn] and [title] and every field the
    accumulator had filled. *)
Theorem merge_only_fills_gaps :
  (forall primary secondary : BookMetadata.t,
     isbn (merge primary secondary) = isbn primary /\
     title (merge primary secondary) = title primary /\
     forall f, In f fillFields ->
       (f primary <> [] -> f (merge primary secondary) = f primary) /\
       (f primary = [] -> f (merge primary secondary) = f secondary)) /\
  (forall (W : Type) (service : BookMetadataService.t W)
          (rest : list (BookMetadataService.t W)) (isbn0 : list Z)
          (acc current : BookMetadata.t) (w w1 : W),
     BookMetadataService.fetchByIsbn service isbn0 w = (Ok (Some current), w1) ->
     loop (service :: rest) isbn0 (Some acc) w
     = if isComplete (merge acc current)
       then (Ok (Some (merge acc current)), w1)
       else loop rest isbn0 (Some (merge acc current)) w1) /\
  (forall (W : Type) (services : list (BookMetadataService.t W)) (isbn0 : list Z)
          (acc : BookMetadata.t) (w : W),
     exists res w',
       loop services isbn0 (Some acc) w = (Ok (Some res), w') /\
       isbn res = isbn acc /\ title res = title acc /\
       forall f, In f fillFields -> f acc <> [] -> f res = f acc).
Proof.
  split; [|split].
  - intros primary secondary. split; [reflexivity|]. split; [reflexivity|].
    intros f Hf. rewrite merge_fill by exact Hf. split.
    + apply or_nonempty.
    + intros ->. apply or_empty.
  - intros W service rest isbn0 acc current w w1 E. simpl. rewrite E. reflexivity.
  - intros W. apply loop_keeps.
Qed.

(** The specification's example: source A wins on [authors], source B
    fills A's missing cover and description. *)
Lemma merge_only_fills_gaps_witness :
  exists res,
    loop [constantService (W := unit) (Some MetadataExamples.sourceB)]
         (JS.lit "9784101010014") (Some MetadataExamples.sourceA) tt
    = (Ok (Some res), tt) /\
    title res = [0x4EBA; 0x9593; 0x5931; 0x683C] /\
    authors res = [0x592A; 0x5BB0; 0x6CBB] /\
    coverImageUrl res = JS.lit "http://x/y.jpg" /\
    description res = JS.lit "d".
Proof.
  destruct merge_only_fills_gaps as (_ & Hstep & _).
  exists (merge MetadataExamples.sourceA MetadataExamples.sourceB).
  split; [|repeat split].
  rewrite (Hstep unit (constantService (Some MetadataExamples.sourceB)) []
             (JS.lit "9784101010014") MetadataExamples.sourceA
             MetadataExamples.sourceB tt tt eq_refl).
  reflexivity.
Defined.

(** The other revision never merges: what it returns is what one source
    returned, unchanged. *)
Lemma first_hit_unmerged {W : Type} (services : list (BookMetadataService.t W))
    (isbn0 : list Z) (w w' : W) (r : BookMetadata.t) :
  FirstHitMetadataService.fetchByIsbn services isbn0 w = (Ok (Some r), w') ->
  exists service w0,
    In service services /\
    BookMetadataService.fetchByIsbn service isbn0 w0 = (Ok (Some r), w').
Proof.
  revert w. induction services as [|service rest IH]; intros w; simpl.
  - unfold ret. intros [=].
  - unfold bind.
    destruct (BookMetadataService.fetchByIsbn service isbn0 w) as [[[r0|]|e] w1] eqn:E.
    + unfold ret. intros [= <- <-]. exists service, w. split; [left; reflexivity|exact E].
    + intros H. destruct (IH _ H) as (s & w0 & Hin & Hs).
      exists s, w0. split; [right; exact Hin|exact Hs].
    + intros [=].
Qed.

(** *** C5: the completeness short-circuit *)

Lemma loop_app_complete {W : Type} (pre post : list (BookMetadataService.t W))
    (isbn0 : list Z) (acc : option BookMetadata.t) (w w' : W) (r : BookMetadata.t) :
  openAccumulator acc ->
  loop pre isbn0 acc w = (Ok (Some r), w') ->
  isComplete r = true ->
  loop (pre ++ post) isbn0 acc w = (Ok (Some r), w').
Proof.
  revert acc w. induction pre as [|service rest IH]; intros acc w Hopen E Hr.
  - simpl in E. unfold ret in E. injection E as -> ->. simpl in Hopen. congruence.
  - simpl in *.
    destruct (BookMetadataService.fetchByIsbn service isbn0 w) as [[[current|]|e] w1];
      [|apply IH; assumption|apply IH; assumption].
    set (result' := match acc with Some a => merge a current | None => current end) in *.
    destruct (isComplete result') eqn:Hc; [exact E|].
    apply IH; [exact Hc|exact E|exact Hr].
Qed.

Lemma tracked_app {W : Type} (from : nat) (pre post : list (BookMetadataService.t W)) :
  tracked from (pre ++ post) = tracked from pre ++ tracked (from + length pre) post.
Proof.
  revert from. induction pre as [|s pre IH]; intros from; simpl.
  - rewrite Nat.add_0_r. reflexivity.
  - rewrite IH. do 3 f_equal. lia.
Qed.

(** A recorded run gives the result and the world of the plain run, and
    logs positions of its own sources only. *)
Lemma tracked_loop {W : Type} (services : list (BookMetadataService.t W))
    (from : nat) (isbn0 : list Z) (acc : option BookMetadata.t) (w : W)
    (log : list nat) :
  exists log',
    loop (tracked from services) isbn0 acc (w, log)
    = ((loop services isbn0 acc w).1, ((loop services isbn0 acc w).2, log ++ log')) /\
    Forall (fun i => (from <= i < from + length services)%nat) log'.
Proof.
  revert from acc w log.
  induction services as [|service rest IH]; intros from acc w log.
  - exists []. rewrite app_nil_r. split; [reflexivity|constructor].
  - cbn [tracked loop tracking BookMetadataService.fetchByIsbn fst snd].
    destruct (BookMetadataService.fetchByIsbn service isbn0 w) as [r w1].
    assert (Hshift : forall log',
      Forall (fun i => (S from <= i < S from + length rest)%nat) log' ->
      Forall (fun i => (from <= i < from + length (service :: rest))%nat)
             (from :: log')).
    { intros log' H. constructor; [simpl; lia|].
      eapply Forall_impl; [exact H|]. simpl. intros; lia. }
    destruct r as [[current|]|e].
    + set (result' := match acc with Some a => merge a current | None => current end).
      destruct (isComplete result').
      * exists [from]. split; [reflexivity|]. apply (Hshift []). constructor.
      * destruct (IH (S from) (Some result') w1 (log ++ [from])) as (log' & E & Hl).
        exists (from :: log'). rewrite E, <- app_assoc. split; [reflexivity|].
        apply Hshift, Hl.
    + destruct (IH (S from) acc w1 (log ++ [from])) as (log' & E & Hl).
      exists (from :: log'). rewrite E, <- app_assoc. split; [reflexivity|].
      apply Hshift, Hl.
    + destruct (IH (S from) acc w1 (log ++ [from])) as (log' & E & Hl).
      exists (from :: log'). rewrite E, <- app_assoc. split; [reflexivity|].
      apply Hshift, Hl.
Qed.

(** C5.  When the sources [pre] alone give a result in which the five
    fill-candidate fields are all present, the sources [post] that follow
    them are never queried: the composite over [pre ++ post] gives the
    same result and leaves the same world, and when every source records
    the calls made to it, only positions inside [pre] are recorded.  In
    particular a first source that answers with a complete result is the
    only one called. *)
Theorem complete_result_stops_querying :
  (forall (W : Type) (pre post : list (BookMetadataService.t W)) (isbn0 : list Z)
          (w w' : W) (r : BookMetadata.t),
     fetchByIsbn pre isbn0 w = (Ok (Some r), w') ->
     isComplete r = true ->
     fetchByIsbn (pre ++ post) isbn0 w = (Ok (Some r), w') /\
     exists log,
       fetchByIsbn (tracked 0 (pre ++ post)) isbn0 (w, [])
       = (Ok (Some r), (w', log)) /\
       Forall (fun i => (i < length pre)%nat) log) /\
  (forall (W : Type) (first : BookMetadataService.t W)
          (rest : list (BookMetadataService.t W)) (isbn0 : list Z)
          (w w' : W) (r : BookMetadata.t),
     BookMetadataService.fetchByIsbn first isbn0 w = (Ok (Some r), w') ->
     isComplete r = true ->
     fetchByIsbn (first :: rest) isbn0 w = (Ok (Some r), w') /\
     fetchByIsbn (tracked 0 (first :: rest)) isbn0 (w, [])
     = (Ok (Some r), (w', [0%nat]))).
Proof.
  split.
  - intros W pre post isbn0 w w' r E Hr. unfold fetchByIsbn in *. split.
    + apply loop_app_complete; [exact I|exact E|exact Hr].
    + destruct (tracked_loop pre 0 isbn0 None w []) as (log & El & Hl).
      rewrite E in El. simpl in El.
      exists log. split.
      * rewrite tracked_app. apply loop_app_complete; [exact I|exact El|exact Hr].
      * eapply Forall_impl; [exact Hl|]. simpl. intros; lia.
  - intros W first rest isbn0 w w' r E Hr. unfold fetchByIsbn.
    cbn [tracked loop tracking BookMetadataService.fetchByIsbn fst snd].
    rewrite E, Hr. split; reflexivity.
Qed.

(** The test AC-META-01: the first source is complete, the second one
    would throw if it were called. *)
Lemma complete_result_stops_querying_witness :
  fetchByIsbn
    (tracked 0 [constantService (Some MetadataExamples.complete);
                throwingService (W := unit)])
    (JS.lit "9784101010014") (tt, [])
  = (Ok (Some MetadataExamples.complete), (tt, [0%nat])).
Proof.
  destruct complete_result_stops_querying as (_ & Hfirst).
  apply (Hfirst unit (constantService (Some MetadataExamples.complete))
           [throwingService] (JS.lit "9784101010014") tt tt
           MetadataExamples.complete); reflexivity.
Defined.

End Composite.

(** ** Reasoning about computations *)

Section EffFacts.
Context {S A B : Type}.

Lemma bind_Ok (m : M S A) (f : A -> M S B) (s s' : S) (r : B) :
  bind m f s = (Ok r, s') ->
  exists a s1, m s = (Ok a, s1) /\ f a s1 = (Ok r, s').
Proof.
  unfold bind. destruct (m s) as [[a|e] s1]; [|discriminate].
  intros H. exists a, s1. split; [reflexivity|exact H].
Qed.

Lemma bind_run (m : M S A) (f : A -> M S B) (s s1 : S) (a : A) :
  m s = (Ok a, s1) -> bind m f s = f a s1.
Proof. unfold bind. intros ->. reflexivity. Qed.

Lemma bind_throw (m : M S A) (f : A -> M S B) (s s1 : S) (e : list Z) :
  m s = (Throw e, s1) -> bind m f s = (Throw e, s1).
Proof. unfold bind. intros ->. reflexivity. Qed.

End EffFacts.

(** ** Claim C8: every mutation leaves the list and search cache empty *)

Section CacheInvalidation.
Import BookServiceSpec.

Lemma invalidateByPrefix_lookup {T : Type} (prefix key : list Z) (c : CacheService.t T) :
  CacheService.cache (CacheService.invalidateByPrefix prefix c) !! key
  = if JS.startsWith key prefix then None else CacheService.cache c !! key.
Proof.
  unfold CacheService.invalidateByPrefix. cbn [CacheService.cache].
  destruct (JS.startsWith key prefix) eqn:E.
  - apply map_lookup_filter_None. right. intros v _. simpl. congruence.
  - destruct (CacheService.cache c !! key) as [v|] eqn:Ev.
    + apply map_lookup_filter_Some. split; [exact Ev|exact E].
    + apply map_lookup_filter_None. left. exact Ev.
Qed.

Lemma invalidateListCache_run {W : Type} (this : BookService.t W)
    (s : W * CacheService.t DriveFileList.t) :
  exists c', BookService.invalidateListCache s = (Ok tt, (s.1, c')) /\
             listCacheClean c' /\
             forall key,
               JS.startsWith key BookService.CACHE_KEY_LIST = false ->
               JS.startsWith key BookService.CACHE_KEY_SEARCH_PREFIX = false ->
               CacheService.cache c' !! key = CacheService.cache s.2 !! key.
Proof.
  destruct s as [w c]. eexists. split; [reflexivity|]. split.
  - intros key Hkey. cbn [snd].
    rewrite !invalidateByPrefix_lookup.
    destruct Hkey as [-> | ->]; [|reflexivity].
    destruct (JS.startsWith key BookService.CACHE_KEY_SEARCH_PREFIX); reflexivity.
  - intros key H1 H2. cbn [snd]. rewrite !invalidateByPrefix_lookup, H1, H2.
    reflexivity.
Qed.

(** A computation that ends with [invalidateListCache] leaves a clean
    cache when it returns. *)
Lemma ends_with_invalidate {W A B : Type} (this : BookService.t W)
    (m : M (BookService.State W) A) (g : A -> B)
    (s s' : BookService.State W) (r : B) :
  (let* a := m in let* _ := BookService.invalidateListCache in ret (g a)) s
    = (Ok r, s') ->
  listCacheClean s'.2.
Proof.
  intros H. apply bind_Ok in H as (a & s1 & _ & H).
  destruct (invalidateListCache_run this s1) as (c' & E & Hclean & _).
  rewrite (bind_run _ _ _ _ _ E) in H. injection H as _ <-. exact Hclean.
Qed.

(** C8.  When [registerBook], [updateBook] or [deleteBook] returns, the
    cache holds no entry whose key starts with ["books:list"] and none
    whose key starts with ["books:search:"], whatever the store did. *)
Theorem mutations_invalidate_list_cache
    (W : Type) (this : BookService.t W) (s s' : BookService.State W) :
  (forall metadata fileContent fileMimeType file,
     BookService.registerBook this metadata fileContent fileMimeType s = (Ok file, s') ->
     listCacheClean s'.2) /\
  (forall fileId metadata file,
     BookService.updateBook this fileId metadata s = (Ok file, s') ->
     listCacheClean s'.2) /\
  (forall fileId,
     BookService.deleteBook this fileId s = (Ok tt, s') ->
     listCacheClean s'.2).
Proof.
  split; [|split].
  - intros metadata fileContent fileMimeType file H.
    unfold BookService.registerBook in H.
    apply bind_Ok in H as (myLibraryId & s1 & _ & H).
    apply bind_Ok in H as (authorFolderId & s2 & _ & H).
    apply bind_Ok in H as (file0 & s3 & _ & H).
    exact (ends_with_invalidate this _ (fun x => x) _ _ _ H).
  - intros fileId metadata file H.
    unfold BookService.updateBook in H.
    apply bind_Ok in H as (existingFile & s1 & _ & H).
    apply bind_Ok in H as (updatedFile & s2 & _ & H).
    apply bind_Ok in H as (u1 & s3 & _ & H).
    exact (ends_with_invalidate this _ (fun _ => updatedFile) _ _ _ H).
  - intros fileId H.
    unfold BookService.deleteBook in H.
    apply bind_Ok in H as (file & s1 & _ & H).
    apply bind_Ok in H as (u1 & s2 & _ & H).
    apply bind_Ok in H as (u2 & s3 & _ & H).
    destruct (invalidateListCache_run this s3) as (c' & E & Hclean & _).
    rewrite E in H. injection H as <-. exact Hclean.
Qed.

End CacheInvalidation.

Section CacheInvalidationExample.
Import BookServiceSpec LibraryExamples.

(** Registering, updating and deleting the sample on the mock store, each
    time starting from a warm cache. *)
Lemma mutations_invalidate_list_cache_witness :
  (exists file s',
     BookService.registerBook bookService sampleMetadata [1; 2; 3] EPUB
       (emptyStore, warmCache) = (Ok file, s') /\
     listCacheClean s'.2) /\
  (exists file s',
     BookService.updateBook bookService sampleId (onlyTitle (JS.lit "T")) registered
       = (Ok file, s') /\
     listCacheClean s'.2) /\
  (exists s',
     BookService.deleteBook bookService sampleId registered = (Ok tt, s') /\
     listCacheClean s'.2) /\
  CacheService.cache warmCache !! JS.lit "books:list::20" <> None.
Proof.
  split; [|split; [|split]].
  - pose (r := BookService.registerBook bookService sampleMetadata [1; 2; 3] EPUB
                 (emptyStore, warmCache)).
    assert (E : exists file, r = (Ok file, r.2)) by (eexists; vm_compute; reflexivity).
    destruct E as [file E]. exists file, r.2. split; [exact E|].
    exact (proj1 (mutations_invalidate_list_cache _ bookService _ r.2) _ _ _ _ E).
  - pose (r := BookService.updateBook bookService sampleId (onlyTitle (JS.lit "T"))
                 registered).
    assert (E : exists file, r = (Ok file, r.2)) by (eexists; vm_compute; reflexivity).
    destruct E as [file E]. exists file, r.2. split; [exact E|].
    exact (proj1 (proj2 (mutations_invalidate_list_cache _ bookService _ r.2)) _ _ _ E).
  - pose (r := BookService.deleteBook bookService sampleId registered).
    assert (E : r = (Ok tt, r.2)) by (vm_compute; reflexivity).
    exists r.2. split; [exact E|].
    exact (proj2 (proj2 (mutations_invalidate_list_cache _ bookService _ r.2)) _ E).
  - vm_compute. discriminate.
Defined.

End CacheInvalidationExample.

(** ** The calls [updateBook] makes *)

Section UpdateBookCalls.
Context {W : Type} (this : BookService.t W).

Abbreviation drive := (BookService.driveService this).

Lemma spy_call {A : Type} (c : Spy.Call) (m : M W A) (w : W) (log : list Spy.Call)
    (ch : CacheService.t DriveFileList.t) :
  liftL (Spy.logged c m) ((w, log), ch) = ((m w).1, (((m w).2, log ++ [c]), ch)).
Proof. unfold liftL, Spy.logged. simpl. destruct (m w). reflexivity. Qed.

Lemma spy_call_Ok {A : Type} (c : Spy.Call) (m : M W A) (w : W) (log : list Spy.Call)
    (ch : CacheService.t DriveFileList.t) (a : A) s1 :
  liftL (Spy.logged c m) ((w, log), ch) = (Ok a, s1) ->
  exists w1, m w = (Ok a, w1) /\ s1 = ((w1, log ++ [c]), ch).
Proof.
  rewrite spy_call. destruct (m w) as [r w1]. simpl. intros [= -> <-].
  exists w1. split; reflexivity.
Qed.

Lemma updateBook_calls (fileId : list Z) (metadata : PartialMetadata.t)
    (w : W) (log0 : list Spy.Call) (ch : CacheService.t DriveFileList.t)
    (file : DriveFile.t) (s' : BookService.State (W * list Spy.Call)) :
  BookService.updateBook (Spy.bookService this) fileId metadata ((w, log0), ch)
    = (Ok file, s') ->
  exists existing w1 w2 moves,
    GoogleDriveService.getFile drive fileId w = (Ok existing, w1) /\
    GoogleDriveService.updateFileProperties drive fileId
      (BookService.updatedProperties (DriveFile.properties existing) metadata) w1
      = (Ok file, w2) /\
    s'.1.2 = log0 ++
      [Spy.GetFile fileId;
       Spy.UpdateFileProperties fileId
         (BookService.updatedProperties (DriveFile.properties existing) metadata)] ++
      (if JS.eqb (BookService.newFileName existing metadata) (DriveFile.name existing)
       then []
       else [Spy.RenameFile fileId (BookService.newFileName existing metadata)]) ++
      moves /\
    if BookService.authorsChanged existing metadata
    then exists myLibraryId newFolderId wa wa' wb wb',
           GoogleDriveService.ensureMyLibraryFolder drive wa = (Ok myLibraryId, wa') /\
           GoogleDriveService.ensureAuthorFolder drive myLibraryId
             (FileName.getFirstAuthor (default [] (PartialMetadata.authors metadata))) wb
             = (Ok newFolderId, wb') /\
           moves = BookServiceSpec.moveCalls fileId existing metadata myLibraryId newFolderId
    else moves = [].
Proof.
  intros H. unfold BookService.updateBook in H.
  cbn [Spy.bookService BookService.driveService Spy.drive
       GoogleDriveService.getFile GoogleDriveService.updateFileProperties
       GoogleDriveService.renameFile GoogleDriveService.moveFile
       GoogleDriveService.ensureMyLibraryFolder GoogleDriveService.ensureAuthorFolder] in H.
  apply bind_Ok in H as (existing & s1 & E1 & H).
  apply spy_call_Ok in E1 as (w1 & E1 & ->).
  apply bind_Ok in H as (updated & s2 & E2 & H).
  apply spy_call_Ok in E2 as (w2 & E2 & ->).
  apply bind_Ok in H as ([] & s3 & E3 & H).
  apply bind_Ok in H as ([] & s4 & E4 & H).
  apply bind_Ok in H as ([] & s5 & E5 & H).
  injection H as <- <-.
  destruct (invalidateListCache_run (Spy.bookService this) s4) as (c' & Ei & _).
  rewrite Ei in E5. injection E5 as <-. cbn [fst snd].
  exists existing, w1, w2.
  (* the rename step *)
  assert (Hs3 : s3.1.2 = (log0 ++ [Spy.GetFile fileId]) ++
      [Spy.UpdateFileProperties fileId
         (BookService.updatedProperties (DriveFile.properties existing) metadata)] ++
      (if JS.eqb (BookService.newFileName existing metadata) (DriveFile.name existing)
       then []
       else [Spy.RenameFile fileId (BookService.newFileName existing metadata)])).
  { destruct (JS.eqb (BookService.newFileName existing metadata)
                     (DriveFile.name existing)); cbn [negb] in E3.
    - injection E3 as <-. simpl. reflexivity.
    - apply bind_Ok in E3 as (renamed & s3' & E3 & E3').
      apply spy_call_Ok in E3 as (w3 & _ & ->).
      injection E3' as <-. simpl. rewrite <- !app_assoc. reflexivity. }
  destruct s3 as [[w3 log3] ch3]. cbn [fst snd] in Hs3. subst log3.
  destruct (BookService.authorsChanged existing metadata).
  - apply bind_Ok in E4 as (myLibraryId & s41 & E41 & E4).
    apply spy_call_Ok in E41 as (w41 & E41 & ->).
    apply bind_Ok in E4 as (newFolderId & s42 & E42 & E4).
    apply spy_call_Ok in E42 as (w42 & E42 & ->).
    exists (BookServiceSpec.moveCalls fileId existing metadata myLibraryId newFolderId).
    split; [exact E1|]. split; [exact E2|]. split; [|eauto 10].
    unfold BookServiceSpec.moveCalls.
    destruct (head (DriveFile.parents existing)) as [oldFolderId|].
    + destruct (JS.truthy oldFolderId && negb (JS.eqb oldFolderId newFolderId)).
      * apply bind_Ok in E4 as (moved & s43 & E43 & E4).
        apply spy_call_Ok in E43 as (w43 & _ & ->).
        injection E4 as <-. cbn [fst snd]. rewrite <- !app_assoc. reflexivity.
      * injection E4 as <-. cbn [fst snd]. rewrite <- !app_assoc. reflexivity.
    + injection E4 as <-. cbn [fst snd]. rewrite <- !app_assoc. reflexivity.
  - injection E4 as <-. exists []. split; [exact E1|]. split; [exact E2|].
    split; [|reflexivity]. cbn [fst snd]. rewrite app_nil_r, <- !app_assoc.
    reflexivity.
Qed.

End UpdateBookCalls.

(** ** Claim C6: [updateBook] merges the supplied fields into the properties *)

Section UpdateBookProperties.
Import BookServiceSpec.

Lemma keys_distinct :
  Key.title <> Key.authors /\ Key.title <> Key.publisher /\
  Key.title <> Key.published_date /\ Key.authors <> Key.publisher /\
  Key.authors <> Key.published_date /\ Key.publisher <> Key.published_date.
Proof. repeat split; discriminate. Qed.

Lemma updatedProperties_lookup (existing : gmap (list Z) (list Z))
    (metadata : PartialMetadata.t) (key : list Z) :
  BookService.updatedProperties existing metadata !! key =
    if bool_decide (key = Key.published_date)
    then from_option Some (existing !! key) (PartialMetadata.publishedDate metadata)
    else if bool_decide (key = Key.publisher)
    then from_option Some (existing !! key) (PartialMetadata.publisher metadata)
    else if bool_decide (key = Key.authors)
    then from_option Some (existing !! key) (PartialMetadata.authors metadata)
    else if bool_decide (key = Key.title)
    then from_option Some (existing !! key) (PartialMetadata.title metadata)
    else existing !! key.
Proof.
  destruct keys_distinct as (H1 & H2 & H3 & H4 & H5 & H6).
  unfold BookService.updatedProperties.
  destruct metadata as [mi mt ma mp md mde mc]. cbn [PartialMetadata.title
    PartialMetadata.authors PartialMetadata.publisher PartialMetadata.publishedDate].
  repeat case_bool_decide; subst;
    destruct mt, ma, mp, md; cbn [from_option];
    repeat first [ rewrite lookup_insert_eq | rewrite lookup_insert_ne by congruence ];
    try reflexivity; congruence.
Qed.

(** C6, as the code has it.  When [updateBook] returns, it has read the
    record and sent the store exactly one property update, for the map
    obtained from the record's properties by overwriting [title],
    [authors], [publisher] and [published_date] with the fields of that
    name that were supplied; a field that was not supplied keeps its
    value, and so does every other property, whatever else the metadata
    holds.  The file returned is the store's answer to that update. *)
Theorem updateBook_merges_supplied_fields
    (W : Type) (this : BookService.t W) (fileId : list Z)
    (metadata : PartialMetadata.t) (w : W) (log0 : list Spy.Call)
    (ch : CacheService.t DriveFileList.t) (file : DriveFile.t)
    (s' : BookService.State (W * list Spy.Call)) :
  BookService.updateBook (Spy.bookService this) fileId metadata ((w, log0), ch)
    = (Ok file, s') ->
  exists existing w1 w2 calls,
    let merged :=
      BookService.updatedProperties (DriveFile.properties existing) metadata in
    GoogleDriveService.getFile (BookService.driveService this) fileId w
      = (Ok existing, w1) /\
    (forall get key, In (get, key) editableProperty ->
       merged !! key = match get metadata with
                       | Some v => Some v
                       | None => DriveFile.properties existing !! key
                       end) /\
    (forall key, (forall get, ~ In (get, key) editableProperty) ->
       merged !! key = DriveFile.properties existing !! key) /\
    GoogleDriveService.updateFileProperties (BookService.driveService this)
      fileId merged w1 = (Ok file, w2) /\
    s'.1.2 = log0 ++ calls /\
    forall id properties,
      In (Spy.UpdateFileProperties id properties) calls <->
      id = fileId /\ properties = merged.
Proof.
  intros H.
  destruct (updateBook_calls this _ _ _ _ _ _ _ H)
    as (existing & w1 & w2 & moves & E1 & E2 & Hlog & Hmoves).
  exists existing, w1, w2. eexists. cbv zeta.
  split; [exact E1|]. split; [|split; [|split; [exact E2|split; [exact Hlog|]]]].
  - intros get key Hin. rewrite updatedProperties_lookup.
    destruct keys_distinct as (H1 & H2 & H3 & H4 & H5 & H6).
    unfold editableProperty in Hin. simpl in Hin.
    destruct Hin as [[= <- <-]|[[= <- <-]|[[= <- <-]|[[= <- <-]|[]]]]];
      repeat case_bool_decide; try congruence;
      match goal with |- context [from_option _ _ ?o] => destruct o end;
      reflexivity.
  - intros key Hkey. rewrite updatedProperties_lookup.
    repeat case_bool_decide; subst; try reflexivity; exfalso;
      eapply Hkey; unfold editableProperty; simpl; eauto 6.
  - intros id properties.
    assert (Hm : forall id p, ~ In (Spy.UpdateFileProperties id p) moves).
    { intros id' p Hin.
      destruct (BookService.authorsChanged existing metadata).
      - destruct Hmoves as (lib & new & ? & ? & ? & ? & _ & _ & ->).
        unfold moveCalls in Hin. apply in_app_iff in Hin as [Hin|Hin].
        + simpl in Hin. intuition discriminate.
        + destruct (head (DriveFile.parents existing)) as [old|]; [|destruct Hin].
          destruct (JS.truthy old && negb (JS.eqb old new)); simpl in Hin;
            intuition discriminate.
      - subst moves. destruct Hin. }
    rewrite !in_app_iff. simpl. split.
    + intros [[Hg|[[= <- <-]|[]]]|[Hr|Hmv]].
      * discriminate.
      * split; reflexivity.
      * destruct (JS.eqb _ _); simpl in Hr; intuition discriminate.
      * destruct (Hm _ _ Hmv).
    + intros [-> ->]. left. right. left. reflexivity.
Qed.

End UpdateBookProperties.

Section UpdateBookExamples.
Import BookServiceSpec LibraryExamples.

(** Changing only the title of the registered sample on the mock store:
    the other properties stay, and one update is sent. *)
Lemma updateBook_merges_supplied_fields_witness :
  exists file s' existing,
    BookService.updateBook (Spy.bookService bookService) sampleId
      (onlyTitle (JS.lit "T")) ((registered.1, []), registered.2) = (Ok file, s') /\
    GoogleDriveService.getFile MockGoogleDriveService.service sampleId registered.1
      = (Ok existing, registered.1) /\
    DriveFile.properties file !! Key.title = Some (JS.lit "T") /\
    DriveFile.properties file !! Key.authors = Some [0x592A; 0x5BB0; 0x6CBB] /\
    forall id properties,
      In (Spy.UpdateFileProperties id properties) s'.1.2 ->
      id = sampleId /\
      properties = BookService.updatedProperties (DriveFile.properties existing)
                     (onlyTitle (JS.lit "T")).
Proof.
  pose (r := BookService.updateBook (Spy.bookService bookService) sampleId
               (onlyTitle (JS.lit "T")) ((registered.1, []), registered.2)).
  assert (E : exists file, r = (Ok file, r.2)) by (eexists; vm_compute; reflexivity).
  destruct E as [file E].
  destruct (updateBook_merges_supplied_fields _ bookService _ _ _ _ _ _ _ E)
    as (existing & w1 & w2 & calls & Hget & _ & _ & Hupd & Hlog & Hcalls).
  assert (Hget' : GoogleDriveService.getFile MockGoogleDriveService.service
                    sampleId registered.1 = (Ok existing, registered.1)).
  { assert (Hw1 : w1 = registered.1)
      by (revert Hget; vm_compute; intros [= _ <-]; reflexivity).
    rewrite <- Hw1 at 2. exact Hget. }
  exists file, r.2, existing. split; [exact E|]. split; [exact Hget'|].
  split; [|split].
  - revert E. vm_compute. intros [= <-]. reflexivity.
  - revert E. vm_compute. intros [= <-]. reflexivity.
  - intros id properties Hin. apply Hcalls. rewrite Hlog in Hin. exact Hin.
Defined.

(** C6 as it is stated fails: a supplied [isbn] (or [description]) does
    not overwrite the property of that name. *)
Lemma updateBook_ignores_isbn :
  ~ (forall (existing : gmap (list Z) (list Z)) (metadata : PartialMetadata.t)
            get key v,
       In (get, key) correspondingProperty -> get metadata = Some v ->
       BookService.updatedProperties existing metadata !! key = Some v).
Proof.
  intros H.
  specialize (H {[ Key.isbn := JS.lit "9784101010014" ]} (onlyIsbn (JS.lit "999"))
                PartialMetadata.isbn Key.isbn (JS.lit "999")).
  assert (E : BookService.updatedProperties {[ Key.isbn := JS.lit "9784101010014" ]}
                (onlyIsbn (JS.lit "999")) !! Key.isbn = Some (JS.lit "999")).
  { apply H; [left; reflexivity|reflexivity]. }
  vm_compute in E. discriminate.
Qed.

End UpdateBookExamples.

(** ** Claim C7: when [updateBook] renames and moves the file *)

Section UpdateBookRenameMove.
Import BookServiceSpec.

Lemma or_undefined_default (o : option (list Z)) :
  BookService.or_undefined o [] = default [] o.
Proof. destruct o as [[|c s]|]; reflexivity. Qed.

Lemma or_undefined_supplied (o : option (list Z)) (b : list Z) :
  o <> Some [] -> BookService.or_undefined o b = from_option id b o.
Proof. destruct o as [[|c s]|]; [congruence|reflexivity|reflexivity]. Qed.

(** Unless an empty title or an empty authors string is supplied, the
    name [updateBook] computes is the name made from the resulting
    properties. *)
Lemma newFileName_resulting (existing : DriveFile.t) (metadata : PartialMetadata.t) :
  PartialMetadata.title metadata <> Some [] ->
  PartialMetadata.authors metadata <> Some [] ->
  BookService.newFileName existing metadata = resultingFileName existing metadata.
Proof.
  intros Ht Ha. unfold BookService.newFileName, resultingFileName.
  rewrite !updatedProperties_lookup.
  rewrite (or_undefined_supplied _ _ Ht), (or_undefined_supplied _ _ Ha).
  rewrite !or_undefined_default.
  destruct keys_distinct as (H1 & H2 & H3 & H4 & H5 & H6).
  repeat case_bool_decide; try congruence.
  destruct (PartialMetadata.title metadata), (PartialMetadata.authors metadata);
    reflexivity.
Qed.

Lemma authorsChanged_iff (existing : DriveFile.t) (metadata : PartialMetadata.t) :
  BookService.authorsChanged existing metadata = true <->
  exists supplied,
    PartialMetadata.authors metadata = Some supplied /\ supplied <> [] /\
    Some supplied <> DriveFile.properties existing !! Key.authors.
Proof.
  unfold BookService.authorsChanged, BookService.truthy_undefined.
  destruct (PartialMetadata.authors metadata) as [a|]; simpl.
  - rewrite andb_true_iff, negb_true_iff, bool_decide_eq_false. split.
    + intros [Ht Hne]. exists a. repeat split; [|exact Hne].
      intros ->. discriminate.
    + intros (s & [= <-] & Hs & Hne). split; [|exact Hne].
      destruct a; [contradiction|reflexivity].
  - split; [discriminate|]. intros (s & [=] & _).
Qed.

End UpdateBookRenameMove.

Section UpdateBookRenameMoveExamples.
Import BookServiceSpec LibraryExamples UpdateExamples.

(** C7.  [updateBook] with an empty authors string, on the mock store.
    The comments of the code say "Rename file if title or authors
    changed" and "Move to new author folder if authors changed", and the
    property is written whenever authors are supplied; but the name is
    made from [metadata.authors || existing authors] and the move is
    guarded by [metadata.authors && ...].  So on a record whose file is
    named "[] 人間失格.epub" while its authors property is "太宰治", the
    file is renamed to a name other than that of the resulting title and
    authors; and on the registered sample the authors are supplied and
    changed, yet no author folder is resolved and the file is not
    moved. *)
Lemma updateBook_empty_authors :
  ~ (forall (W : Type) (this : BookService.t W) fileId metadata w ch file s'
            existing w1 n,
       BookService.updateBook (Spy.bookService this) fileId metadata ((w, []), ch)
         = (Ok file, s') ->
       GoogleDriveService.getFile (BookService.driveService this) fileId w
         = (Ok existing, w1) ->
       In (Spy.RenameFile fileId n) s'.1.2 ->
       n = resultingFileName existing metadata /\ n <> DriveFile.name existing) /\
  ~ (forall (W : Type) (this : BookService.t W) fileId metadata w ch file s'
            existing w1 supplied,
       BookService.updateBook (Spy.bookService this) fileId metadata ((w, []), ch)
         = (Ok file, s') ->
       GoogleDriveService.getFile (BookService.driveService this) fileId w
         = (Ok existing, w1) ->
       PartialMetadata.authors metadata = Some supplied ->
       Some supplied <> DriveFile.properties existing !! Key.authors ->
       exists lib,
         In (Spy.EnsureAuthorFolder lib (FileName.getFirstAuthor supplied)) s'.1.2).
Proof.
  split.
  - intros H.
    pose (r := BookService.updateBook (Spy.bookService bookService) sampleId
                 (onlyAuthors []) ((renamedInStore.1, []), renamedInStore.2)).
    pose (g := GoogleDriveService.getFile MockGoogleDriveService.service sampleId
                 renamedInStore.1).
    assert (E : exists file, r = (Ok file, r.2)) by (eexists; vm_compute; reflexivity).
    assert (G : exists existing, g = (Ok existing, g.2))
      by (eexists; vm_compute; reflexivity).
    destruct E as [file E]. destruct G as [existing G].
    destruct (H _ bookService sampleId (onlyAuthors []) _ _ file r.2 existing g.2
                (FileName.formatFileName (BookMetadata.authors sampleMetadata)
                   (BookMetadata.title sampleMetadata) (JS.lit "epub")) E G)
      as [Hn _].
    + vm_compute. tauto.
    + revert G Hn. vm_compute. intros [= <-]. discriminate.
  - intros H.
    pose (r := BookService.updateBook (Spy.bookService bookService) sampleId
                 (onlyAuthors []) ((registered.1, []), registered.2)).
    pose (g := GoogleDriveService.getFile MockGoogleDriveService.service sampleId
                 registered.1).
    assert (E : exists file, r = (Ok file, r.2)) by (eexists; vm_compute; reflexivity).
    assert (G : exists existing, g = (Ok existing, g.2))
      by (eexists; vm_compute; reflexivity).
    destruct E as [file E]. destruct G as [existing G].
    destruct (H _ bookService sampleId (onlyAuthors []) _ _ file r.2 existing g.2
                [] E G eq_refl) as [lib Hin].
    + revert G. vm_compute. intros [= <-]. discriminate.
    + revert Hin. vm_compute. intros [Hx|[Hx|[]]]; discriminate.
Qed.

End UpdateBookRenameMoveExamples.

(** ** The migrator follows the folder walk *)

Section MigratorWalk.
Import CalibreMigrator.
Context (toLowerCase : list Z -> list Z).
Context (parseMetadataOpf : list Z -> PartialMetadata.t).
Context {W : Type} (this : CalibreMigrator.t W).

Abbreviation St := (W * CacheService.t DriveFileList.t)%type.
Abbreviation migrateBook' := (migrateBook toLowerCase parseMetadataOpf this).
Abbreviation migrateUnit' := (migrateUnit toLowerCase parseMetadataOpf this).
Abbreviation bookLoop' := (bookLoop toLowerCase parseMetadataOpf this).
Abbreviation authorLoop' := (authorLoop toLowerCase parseMetadataOpf this).
Abbreviation migrate' := (migrate toLowerCase parseMetadataOpf this).
Abbreviation unitsWalk' := (unitsWalk toLowerCase parseMetadataOpf this).
Abbreviation authorsWalk' := (authorsWalk toLowerCase parseMetadataOpf this).
Abbreviation listing :=
  (fun id => liftL (S2 := CacheService.t DriveFileList.t)
               (GoogleDriveService.findFilesByParent (driveService this) id)).

(** A unit never throws: what [migrateBook] throws becomes a detail. *)
Lemma migrateUnit_run (bookFolder : DriveFile.t) (options : MigrationOptions.t)
    (s s1 : St) (out : Result MigrationDetail.t) :
  migrateBook' (DriveFile.id bookFolder) (DriveFile.name bookFolder) options s
    = (out, s1) ->
  migrateUnit' bookFolder options s = (Ok (detailOf (bookFolder, out)), s1).
Proof.
  intros E. unfold migrateUnit, try_catch. rewrite E.
  destruct out; reflexivity.
Qed.

Lemma total_recordVisit (result : MigrationResult.t) (v : Visit) :
  MigrationResult.total (recordVisit result v) = S (MigrationResult.total result).
Proof.
  unfold recordVisit, record.
  destruct (MigrationDetail.status (detailOf v)); reflexivity.
Qed.

Lemma recordAll_app (result : MigrationResult.t) (vs1 vs2 : list Visit) :
  recordAll result (vs1 ++ vs2) = recordAll (recordAll result vs1) vs2.
Proof. unfold recordAll. apply fold_left_app. Qed.

Lemma total_recordAll (result : MigrationResult.t) (visits : list Visit) :
  MigrationResult.total (recordAll result visits)
  = (MigrationResult.total result + length visits)%nat.
Proof.
  revert result. induction visits as [|v vs IH]; intros result; simpl; [lia|].
  change (MigrationResult.total (recordAll (recordVisit result v) vs)
          = (MigrationResult.total result + S (length vs))%nat).
  rewrite IH, total_recordVisit. lia.
Qed.

(** The inner loop on a walk of the children of one author folder. *)
Lemma bookLoop_walk (options : MigrationOptions.t) (bookFolders : list DriveFile.t)
    (result : MigrationResult.t) (s s' : St) (visits : list Visit) (stopped : bool) :
  unitsWalk' options (MigrationResult.total result) s bookFolders visits stopped s' ->
  bookLoop' options bookFolders result s = (Ok (stopped, recordAll result visits), s').
Proof.
  remember (MigrationResult.total result) as n eqn:Hn.
  intros Hw. revert result Hn.
  induction Hw as [n s|n s f rest vs stopped s' Hf Hw IH|n s f rest Hf Hl
                  |n s f rest out s1 vs stopped s' Hf Hl Hrun Hw IH];
    intros result Hn; subst n; cbn [bookLoop].
  - reflexivity.
  - rewrite Hf. cbn [negb]. apply IH. reflexivity.
  - rewrite Hf, Hl. reflexivity.
  - rewrite Hf, Hl. cbn [negb].
    rewrite (bind_run _ _ _ _ _ (migrateUnit_run f options s s1 out Hrun)).
    change (recordAll result ((f, out) :: vs))
      with (recordAll (recordVisit result (f, out)) vs).
    apply IH. rewrite total_recordVisit. reflexivity.
Qed.

(** The outer loop on a walk of a prefix of the children of the source
    folder: if the walk was stopped the loop returns, otherwise it goes
    on with the rest. *)
Lemma authorLoop_walk (options : MigrationOptions.t) (pre rest : list DriveFile.t)
    (result : MigrationResult.t) (s s' : St) (visits : list Visit) (stopped : bool) :
  authorsWalk' options (MigrationResult.total result) s pre visits stopped s' ->
  authorLoop' options (pre ++ rest) result s =
    if stopped then (Ok (recordAll result visits), s')
    else authorLoop' options rest (recordAll result visits) s'.
Proof.
  remember (MigrationResult.total result) as n eqn:Hn.
  intros Hw. revert result Hn.
  induction Hw as [n s|n s f pre' vs stopped s' Hf Hw IH
                  |n s f pre' bookFolders s1 vs s' Hf Hlist Hunits
                  |n s f pre' bookFolders s1 vs1 s2 vs2 stopped s' Hf Hlist Hunits Hw IH];
    intros result Hn; subst n; cbn [app authorLoop].
  - reflexivity.
  - rewrite Hf. cbn [negb]. apply IH. reflexivity.
  - rewrite Hf. cbn [negb]. rewrite (bind_run _ _ _ _ _ Hlist).
    rewrite (bind_run _ _ _ _ _ (bookLoop_walk _ _ _ _ _ _ _ Hunits)).
    reflexivity.
  - rewrite Hf. cbn [negb]. rewrite (bind_run _ _ _ _ _ Hlist).
    rewrite (bind_run _ _ _ _ _ (bookLoop_walk _ _ _ _ _ _ _ Hunits)).
    cbn [fst snd]. rewrite recordAll_app. apply IH.
    rewrite total_recordAll. reflexivity.
Qed.

Lemma migrate_walk (sourceFolderId : list Z) (options : MigrationOptions.t)
    (s s0 s' : St) (authorFolders : list DriveFile.t) (visits : list Visit)
    (stopped : bool) :
  listing sourceFolderId s = (Ok authorFolders, s0) ->
  authorsWalk' options 0 s0 authorFolders visits stopped s' ->
  migrate' sourceFolderId options s
  = (Ok (recordAll MigrationResult.empty visits), s').
Proof.
  intros Hlist Hw. unfold migrate. rewrite (bind_run _ _ _ _ _ Hlist).
  pose proof (authorLoop_walk options authorFolders [] MigrationResult.empty
                s0 s' visits stopped Hw) as H.
  rewrite app_nil_r in H. rewrite H. destruct stopped; reflexivity.
Qed.

(** Conversely, every run of the loops that returns is such a walk. *)
Lemma bookLoop_inv (options : MigrationOptions.t) (bookFolders : list DriveFile.t)
    (result result' : MigrationResult.t) (s s' : St) (stopped : bool) :
  bookLoop' options bookFolders result s = (Ok (stopped, result'), s') ->
  exists visits,
    unitsWalk' options (MigrationResult.total result) s bookFolders visits stopped s' /\
    result' = recordAll result visits.
Proof.
  revert result s. induction bookFolders as [|f rest IH]; intros result s H;
    cbn [bookLoop] in H.
  - injection H as <- <- <-. exists []. split; [constructor|reflexivity].
  - destruct (isFolder f) eqn:Hf; cbn [negb] in H.
    + destruct (limitReached options (MigrationResult.total result)) eqn:Hl.
      * injection H as <- <- <-. exists [].
        split; [apply units_stop; assumption|reflexivity].
      * destruct (migrateBook' (DriveFile.id f) (DriveFile.name f) options s)
          as [out s1] eqn:Hrun.
        rewrite (bind_run _ _ _ _ _ (migrateUnit_run f options s s1 out Hrun)) in H.
        destruct (IH _ _ H) as (vs & Hw & ->).
        exists ((f, out) :: vs). split; [|reflexivity].
        eapply units_visit; try eassumption.
        change (record (countUnit result) (detailOf (f, out)))
          with (recordVisit result (f, out)) in Hw.
        rewrite total_recordVisit in Hw. exact Hw.
    + destruct (IH _ _ H) as (vs & Hw & ->).
      exists vs. split; [apply units_pass; assumption|reflexivity].
Qed.

Lemma authorLoop_inv (options : MigrationOptions.t) (authorFolders : list DriveFile.t)
    (result result' : MigrationResult.t) (s s' : St) :
  authorLoop' options authorFolders result s = (Ok result', s') ->
  exists visits stopped,
    authorsWalk' options (MigrationResult.total result) s authorFolders
      visits stopped s' /\
    result' = recordAll result visits.
Proof.
  revert result s. induction authorFolders as [|f rest IH]; intros result s H;
    cbn [authorLoop] in H.
  - injection H as <- <-. exists [], false. split; [constructor|reflexivity].
  - destruct (isFolder f) eqn:Hf; cbn [negb] in H.
    + apply bind_Ok in H as (bookFolders & s1 & Hlist & H).
      apply bind_Ok in H as ([stopped r1] & s2 & Hloop & H).
      apply bookLoop_inv in Hloop as (vs1 & Hunits & ->).
      cbn [fst snd] in H. destruct stopped.
      * injection H as <- <-. exists vs1, true. split; [|reflexivity].
        eapply authors_stop; eassumption.
      * destruct (IH _ _ H) as (vs2 & stopped & Hw & ->).
        exists (vs1 ++ vs2), stopped. split; [|symmetry; apply recordAll_app].
        eapply authors_visit; try eassumption.
        rewrite total_recordAll in Hw. exact Hw.
    + destruct (IH _ _ H) as (vs & stopped & Hw & ->).
      exists vs, stopped. split; [apply authors_pass; assumption|reflexivity].
Qed.

End MigratorWalk.

(** ** What a walk reports *)

Section WalkReport.
Import CalibreMigrator.
Context (toLowerCase : list Z -> list Z).
Context (parseMetadataOpf : list Z -> PartialMetadata.t).
Context {W : Type} (this : CalibreMigrator.t W).

Abbreviation St := (W * CacheService.t DriveFileList.t)%type.
Abbreviation migrateBook' := (migrateBook toLowerCase parseMetadataOpf this).
Abbreviation unitsWalk' := (unitsWalk toLowerCase parseMetadataOpf this).
Abbreviation authorsWalk' := (authorsWalk toLowerCase parseMetadataOpf this).
Abbreviation listing :=
  (fun id => liftL (S2 := CacheService.t DriveFileList.t)
               (GoogleDriveService.findFilesByParent (driveService this) id)).

Abbreviation processed := (CalibreMigrator.processed toLowerCase parseMetadataOpf this).

(** [migrateBook] itself reports [succeeded] or [skipped] only. *)
Lemma migrateBook_status (bookFolderId bookFolderName : list Z)
    (options : MigrationOptions.t) (s s' : St) (d : MigrationDetail.t) :
  migrateBook' bookFolderId bookFolderName options s = (Ok d, s') ->
  MigrationDetail.isError d = false.
Proof.
  intros H. unfold migrateBook in H.
  apply bind_Ok in H as (files & s1 & _ & H).
  apply bind_Ok in H as (metadata & s2 & _ & H).
  apply bind_Ok in H as (existing & s3 & _ & H).
  destruct existing; [injection H as <- _; reflexivity|].
  destruct (selectBookFile toLowerCase files); [|injection H as <- _; reflexivity].
  destruct (bool_decide (MigrationOptions.dryRun options = Some true));
    [injection H as <- _; reflexivity|].
  apply bind_Ok in H as (content & s4 & _ & H).
  apply bind_Ok in H as (registered & s5 & _ & H).
  apply bind_Ok in H as (u & s6 & _ & H).
  injection H as <- _. reflexivity.
Qed.

Lemma processed_isError (options : MigrationOptions.t) (v : Visit) :
  processed options v -> MigrationDetail.isError (detailOf v) = threw v.
Proof.
  intros (s1 & s2 & H). destruct v as [f [d|e]]; cbn [fst snd] in H.
  - apply migrateBook_status in H. exact H.
  - reflexivity.
Qed.

Lemma unitsWalk_processed (options : MigrationOptions.t) n s bookFolders visits
    stopped s' :
  unitsWalk' options n s bookFolders visits stopped s' ->
  Forall (processed options) visits.
Proof.
  induction 1; try constructor; try assumption.
  exists s, s1. assumption.
Qed.

Lemma unitsWalk_order (options : MigrationOptions.t) n s bookFolders visits
    stopped s' :
  unitsWalk' options n s bookFolders visits stopped s' ->
  map fst visits `prefix_of` List.filter isFolder bookFolders /\
  (stopped = false -> map fst visits = List.filter isFolder bookFolders).
Proof.
  induction 1 as [n s|n s f rest vs stopped s' Hf Hw [IH1 IH2]|n s f rest Hf Hl
                 |n s f rest out s1 vs stopped s' Hf Hl Hrun Hw [IH1 IH2]];
    cbn [List.filter map fst].
  - split; [apply prefix_nil|reflexivity].
  - rewrite Hf. split; assumption.
  - split; [apply prefix_nil|discriminate].
  - rewrite Hf. split; [apply prefix_cons, IH1|].
    intros Hs. rewrite IH2 by exact Hs. reflexivity.
Qed.

Lemma unitsWalk_unlimited (options : MigrationOptions.t) n s bookFolders visits
    stopped s' :
  MigrationOptions.limit options = None ->
  unitsWalk' options n s bookFolders visits stopped s' -> stopped = false.
Proof.
  intros Hlim. induction 1 as [| | n s f rest Hf Hl |]; try assumption; try reflexivity.
  unfold limitReached in Hl. rewrite Hlim in Hl. discriminate.
Qed.

(** The walk of the source folder, author folder by author folder. *)
Lemma authorsWalk_groups (options : MigrationOptions.t) n s authorFolders visits
    stopped s' :
  authorsWalk' options n s authorFolders visits stopped s' ->
  exists groups : list WalkGroup.t,
    visits = concat (map WalkGroup.visits groups) /\
    map WalkGroup.author groups `prefix_of` List.filter isFolder authorFolders /\
    (stopped = false ->
     map WalkGroup.author groups = List.filter isFolder authorFolders) /\
    Forall (fun g =>
      (exists s1 s2 : St,
         listing (DriveFile.id (WalkGroup.author g)) s1 = (Ok (WalkGroup.children g), s2)) /\
      map fst (WalkGroup.visits g) `prefix_of` List.filter isFolder (WalkGroup.children g) /\
      (MigrationOptions.limit options = None ->
       map fst (WalkGroup.visits g) = List.filter isFolder (WalkGroup.children g)) /\
      Forall (processed options) (WalkGroup.visits g)) groups.
Proof.
  induction 1 as [n s|n s f rest vs stopped s' Hf Hw IH
                 |n s f rest bookFolders s1 vs s' Hf Hlist Hunits
                 |n s f rest bookFolders s1 vs1 s2 vs2 stopped s' Hf Hlist Hunits Hw IH];
    cbn [List.filter].
  - exists []. repeat split; try constructor. apply prefix_nil.
  - rewrite Hf. exact IH.
  - rewrite Hf. exists [WalkGroup.Build f bookFolders vs]. cbn.
    rewrite app_nil_r. split; [reflexivity|].
    split; [apply prefix_cons, prefix_nil|]. split; [discriminate|].
    constructor; [|constructor]. cbn.
    split; [eauto|]. split; [apply (unitsWalk_order _ _ _ _ _ _ _ Hunits)|].
    split; [|apply (unitsWalk_processed _ _ _ _ _ _ _ Hunits)].
    intros Hlim. pose proof (unitsWalk_unlimited _ _ _ _ _ _ _ Hlim Hunits).
    discriminate.
  - rewrite Hf. destruct IH as (groups & -> & Hpre & Hall & Hgroups).
    exists (WalkGroup.Build f bookFolders vs1 :: groups). cbn.
    split; [reflexivity|]. split; [apply prefix_cons, Hpre|].
    split; [intros Hs; rewrite Hall by exact Hs; reflexivity|].
    constructor; [|exact Hgroups]. cbn.
    split; [eauto|]. split; [apply (unitsWalk_order _ _ _ _ _ _ _ Hunits)|].
    split; [|apply (unitsWalk_processed _ _ _ _ _ _ _ Hunits)].
    intros _. apply (unitsWalk_order _ _ _ _ _ _ _ Hunits). reflexivity.
Qed.

Lemma authorsWalk_unlimited (options : MigrationOptions.t) n s authorFolders visits
    stopped s' :
  MigrationOptions.limit options = None ->
  authorsWalk' options n s authorFolders visits stopped s' -> stopped = false.
Proof.
  intros Hlim.
  induction 1 as [| |n s f rest bookFolders s1 vs s' Hf Hlist Hunits|];
    try assumption; try reflexivity.
  apply (unitsWalk_unlimited _ _ _ _ _ _ _ Hlim Hunits).
Qed.

Lemma authorsWalk_processed (options : MigrationOptions.t) n s authorFolders visits
    stopped s' :
  authorsWalk' options n s authorFolders visits stopped s' ->
  Forall (processed options) visits.
Proof.
  induction 1 as [| |n s f rest bookFolders s1 vs s' Hf Hlist Hunits
                 |n s f rest bookFolders s1 vs1 s2 vs2 stopped s' Hf Hlist Hunits Hw IH];
    try constructor; try assumption.
  - apply (unitsWalk_processed _ _ _ _ _ _ _ Hunits).
  - apply Forall_app. split; [apply (unitsWalk_processed _ _ _ _ _ _ _ Hunits)|exact IH].
Qed.

(** The counters and the details of a report. *)
Lemma recordAll_report (result : MigrationResult.t) (visits : list Visit) :
  let r := recordAll result visits in
  MigrationResult.details r = MigrationResult.details result ++ map detailOf visits /\
  MigrationResult.succeeded r =
    (MigrationResult.succeeded result
     + length (List.filter (fun v => MigrationDetail.isSucceeded (detailOf v)) visits))%nat /\
  MigrationResult.skipped r =
    (MigrationResult.skipped result
     + length (List.filter (fun v => MigrationDetail.isSkipped (detailOf v)) visits))%nat /\
  MigrationResult.errors r =
    (MigrationResult.errors result
     + length (List.filter (fun v => MigrationDetail.isError (detailOf v)) visits))%nat.
Proof.
  revert result. induction visits as [|v vs IH]; intros result; cbn zeta.
  - cbn. rewrite app_nil_r. repeat split; lia.
  - change (recordAll result (v :: vs)) with (recordAll (recordVisit result v) vs).
    destruct (IH (recordVisit result v)) as (Hd & Hs & Hk & He).
    rewrite Hd, Hs, Hk, He. cbn [List.filter map].
    unfold recordVisit, record, countUnit,
      MigrationDetail.isSucceeded, MigrationDetail.isSkipped, MigrationDetail.isError.
    destruct (MigrationDetail.status (detailOf v)); cbn;
      rewrite <- app_assoc; repeat split; lia.
Qed.

Lemma status_partition (visits : list Visit) :
  (length (List.filter (fun v => MigrationDetail.isSucceeded (detailOf v)) visits)
   + length (List.filter (fun v => MigrationDetail.isSkipped (detailOf v)) visits)
   + length (List.filter (fun v => MigrationDetail.isError (detailOf v)) visits)
   = length visits)%nat.
Proof.
  induction visits as [|v vs IH]; [reflexivity|]. cbn [List.filter].
  unfold MigrationDetail.isSucceeded, MigrationDetail.isSkipped,
    MigrationDetail.isError in *.
  destruct (MigrationDetail.status (detailOf v)); cbn [length]; lia.
Qed.

Lemma filter_isError_threw (options : MigrationOptions.t) (visits : list Visit) :
  Forall (processed options) visits ->
  List.filter (fun v => MigrationDetail.isError (detailOf v)) visits
  = List.filter threw visits.
Proof.
  induction 1 as [|v vs Hv Hvs IH]; [reflexivity|]. cbn [List.filter].
  rewrite (processed_isError options v Hv), IH. reflexivity.
Qed.

End WalkReport.

(** ** Claims C4 and C10: what [migrate] returns *)

Section MigrateClaims.
Import CalibreMigrator.
Context (toLowerCase : list Z -> list Z).
Context (parseMetadataOpf : list Z -> PartialMetadata.t).
Context {W : Type} (this : CalibreMigrator.t W).

Abbreviation St := (W * CacheService.t DriveFileList.t)%type.
Abbreviation migrateBook' := (migrateBook toLowerCase parseMetadataOpf this).
Abbreviation migrateUnit' := (migrateUnit toLowerCase parseMetadataOpf this).
Abbreviation migrate' := (migrate toLowerCase parseMetadataOpf this).
Abbreviation authorsWalk' := (authorsWalk toLowerCase parseMetadataOpf this).
Abbreviation processed' := (processed toLowerCase parseMetadataOpf this).
Abbreviation listing :=
  (fun id => liftL (S2 := CacheService.t DriveFileList.t)
               (GoogleDriveService.findFilesByParent (driveService this) id)).

(** A unit never throws: whatever [migrateBook] throws is recorded as an
    error detail that carries the folder's name and the message.  And
    whenever the folder walk can be made, that is, whenever the listings
    of the source folder and of the author folders succeed, [migrate]
    returns a report that has one detail for every unit of the walk, in
    order: the detail [migrateBook] returned, or the error detail of
    what it threw.  The units after a failing one are processed all the
    same.  So for a walk of three units of which exactly one throws,
    [total] is 3, [errors] is 1, and the two others keep their
    [succeeded] or [skipped] detail. *)
Lemma thrown_units_are_recorded
    (sourceFolderId : list Z) (options : MigrationOptions.t)
    (s s0 s' : St) (authorFolders : list DriveFile.t) (visits : list Visit)
    (stopped : bool) :
  listing sourceFolderId s = (Ok authorFolders, s0) ->
  authorsWalk' options 0 s0 authorFolders visits stopped s' ->
  (forall bookFolder s1 s2 e,
     migrateBook' (DriveFile.id bookFolder) (DriveFile.name bookFolder) options s1
       = (Throw e, s2) ->
     migrateUnit' bookFolder options s1
       = (Ok (MigrationDetail.Build (DriveFile.name bookFolder)
                MigrationDetail.error (Some e)), s2)) /\
  exists result,
    migrate' sourceFolderId options s = (Ok result, s') /\
    MigrationResult.total result = length visits /\
    MigrationResult.details result = map detailOf visits /\
    MigrationResult.errors result = length (List.filter threw visits) /\
    (MigrationResult.succeeded result + MigrationResult.skipped result
     = length (List.filter (fun v => negb (threw v)) visits))%nat /\
    Forall2 (fun v d =>
               match v.2 with
               | Ok d0 => d = d0 /\ MigrationDetail.isError d0 = false
               | Throw e => d = MigrationDetail.Build (DriveFile.name v.1)
                                  MigrationDetail.error (Some e)
               end) visits (MigrationResult.details result) /\
    (length visits = 3%nat -> length (List.filter threw visits) = 1%nat ->
     MigrationResult.total result = 3%nat /\
     MigrationResult.errors result = 1%nat /\
     (MigrationResult.succeeded result + MigrationResult.skipped result = 2)%nat).
Proof.
  intros Hlist Hwalk. split.
  { intros bookFolder s1 s2 e H.
    exact (migrateUnit_run toLowerCase parseMetadataOpf this _ _ _ _ _ H). }
  exists (recordAll MigrationResult.empty visits).
  pose proof (authorsWalk_processed _ _ _ _ _ _ _ _ _ _ Hwalk) as Hproc.
  destruct (recordAll_report MigrationResult.empty visits) as (Hd & Hs & Hk & He).
  cbn [MigrationResult.empty MigrationResult.details MigrationResult.succeeded
       MigrationResult.skipped MigrationResult.errors app Nat.add] in Hd, Hs, Hk, He.
  pose proof (status_partition visits) as Hpart.
  rewrite (filter_isError_threw _ _ _ _ visits Hproc) in He, Hpart.
  assert (Hsplit : (length (List.filter threw visits)
                    + length (List.filter (fun v => negb (threw v)) visits)
                    = length visits)%nat).
  { clear. induction visits as [|v vs IH]; [reflexivity|]. cbn [List.filter].
    destruct (threw v); cbn [negb length]; lia. }
  split; [eapply migrate_walk; eassumption|].
  split; [rewrite total_recordAll; reflexivity|].
  split; [exact Hd|]. split; [exact He|]. split; [lia|]. split.
  - rewrite Hd. clear -Hproc. induction Hproc as [|v vs Hv Hvs IH]; [constructor|].
    cbn [map]. constructor; [|exact IH].
    pose proof (processed_isError _ _ _ _ v Hv) as Herr.
    destruct v as [f [d0|e]]; cbn in *; [split; [reflexivity|exact Herr]|reflexivity].
  - intros H3 H1. rewrite total_recordAll. cbn. lia.
Qed.

(** C4.  Every report [migrate] returns has [total = succeeded + skipped
    + errors] and as many details as [total]; and its details are those
    of the units in the order of discovery: the author folders are the
    folders among the listed children of the source, in listing order,
    the units of each are the folders among its listed children, in
    listing order, up to the point where the limit stopped the walk, and
    the details follow the units one for one. *)
Theorem report_is_consistent_and_in_discovery_order
    (sourceFolderId : list Z) (options : MigrationOptions.t) (s s' : St)
    (result : MigrationResult.t) :
  migrate' sourceFolderId options s = (Ok result, s') ->
  (MigrationResult.total result
   = MigrationResult.succeeded result + MigrationResult.skipped result
     + MigrationResult.errors result)%nat /\
  length (MigrationResult.details result) = MigrationResult.total result /\
  exists (authorFolders : list DriveFile.t) (s0 : St) (groups : list WalkGroup.t),
    listing sourceFolderId s = (Ok authorFolders, s0) /\
    map WalkGroup.author groups `prefix_of` List.filter isFolder authorFolders /\
    Forall (fun g =>
      (exists s1 s2 : St,
         listing (DriveFile.id (WalkGroup.author g)) s1
           = (Ok (WalkGroup.children g), s2)) /\
      map fst (WalkGroup.visits g)
        `prefix_of` List.filter isFolder (WalkGroup.children g) /\
      (MigrationOptions.limit options = None ->
       map fst (WalkGroup.visits g) = List.filter isFolder (WalkGroup.children g)) /\
      Forall (fun v => exists s1 s2 : St,
                migrateUnit' v.1 options s1 = (Ok (detailOf v), s2))
             (WalkGroup.visits g)) groups /\
    (MigrationOptions.limit options = None ->
     map WalkGroup.author groups = List.filter isFolder authorFolders) /\
    MigrationResult.details result
    = map detailOf (concat (map WalkGroup.visits groups)).
Proof.
  intros H. unfold migrate in H.
  apply bind_Ok in H as (authorFolders & s0 & Hlist & H).
  apply authorLoop_inv in H as (visits & stopped & Hwalk & ->).
  destruct (recordAll_report MigrationResult.empty visits) as (Hd & Hs & Hk & He).
  cbn [MigrationResult.empty MigrationResult.details MigrationResult.succeeded
       MigrationResult.skipped MigrationResult.errors app Nat.add] in Hd, Hs, Hk, He.
  pose proof (status_partition visits) as Hpart.
  split; [rewrite total_recordAll, Hs, Hk, He; cbn; lia|].
  split; [rewrite total_recordAll, Hd, length_map; cbn; lia|].
  destruct (authorsWalk_groups _ _ _ _ _ _ _ _ _ _ Hwalk)
    as (groups & -> & Hpre & Hall & Hgroups).
  exists authorFolders, s0, groups.
  split; [exact Hlist|]. split; [exact Hpre|]. split; [|split; [|exact Hd]].
  - eapply Forall_impl; [exact Hgroups|].
    intros g (Hl & Ho & Hu & Hp). split; [exact Hl|]. split; [exact Ho|].
    split; [exact Hu|].
    eapply Forall_impl; [exact Hp|].
    intros v (s1 & s2 & Hv). exists s1, s2.
    destruct v as [f out].
    exact (migrateUnit_run toLowerCase parseMetadataOpf this _ _ _ _ _ Hv).
  - intros Hlim. apply Hall.
    exact (authorsWalk_unlimited _ _ _ _ _ _ _ _ _ _ Hlim Hwalk).
Qed.

(** C10.  A failure of the outer walk is not caught: when listing the
    source folder throws, and when listing an author folder that the
    walk reaches throws, [migrate] throws the same error and returns no
    report; the units processed before are lost with it. *)
Theorem listing_failures_abort_the_run
    (sourceFolderId : list Z) (options : MigrationOptions.t) (s : St) :
  (forall e s1,
     listing sourceFolderId s = (Throw e, s1) ->
     migrate' sourceFolderId options s = (Throw e, s1)) /\
  (forall pre authorFolder post s0 visits s1 e s2,
     listing sourceFolderId s = (Ok (pre ++ authorFolder :: post), s0) ->
     authorsWalk' options 0 s0 pre visits false s1 ->
     isFolder authorFolder = true ->
     listing (DriveFile.id authorFolder) s1 = (Throw e, s2) ->
     migrate' sourceFolderId options s = (Throw e, s2)).
Proof.
  split.
  - intros e s1 H. unfold migrate. apply bind_throw. exact H.
  - intros pre authorFolder post s0 visits s1 e s2 Hlist Hwalk Hf Hthrow.
    unfold migrate. rewrite (bind_run _ _ _ _ _ Hlist).
    rewrite (authorLoop_walk toLowerCase parseMetadataOpf this options pre
               (authorFolder :: post) MigrationResult.empty s0 s1 visits false Hwalk).
    cbn [authorLoop]. rewrite Hf. cbn [negb]. apply bind_throw. exact Hthrow.
Qed.

End MigrateClaims.

(** ** The claims on the tests' library *)

Ltac run := vm_compute; reflexivity.

Ltac walk_units :=
  first [ eapply CalibreMigrator.units_done
        | eapply CalibreMigrator.units_visit; [run | run | run | walk_units]
        | eapply CalibreMigrator.units_stop; [run | run]
        | eapply CalibreMigrator.units_pass; [run | walk_units] ].

Ltac walk_authors :=
  first [ eapply CalibreMigrator.authors_done
        | eapply CalibreMigrator.authors_visit; [run | run | walk_units | walk_authors]
        | eapply CalibreMigrator.authors_stop; [run | run | walk_units]
        | eapply CalibreMigrator.authors_pass; [run | walk_authors] ].

Section MigrateExamples.
Import CalibreExamples.

(** The test MGRSCRIPT-11: with a limit of two, two of the three books
    are processed. *)
Lemma report_is_consistent_and_in_discovery_order_witness :
  exists result s',
    migrate "" (MigrationOptions.Build None (Some (Number.Finite (2 # 1))))
      = (Ok result, s') /\
    (MigrationResult.total result
     = MigrationResult.succeeded result + MigrationResult.skipped result
       + MigrationResult.errors result)%nat /\
    length (MigrationResult.details result) = MigrationResult.total result /\
    MigrationResult.total result = 2%nat.
Proof.
  pose (r := migrate "" (MigrationOptions.Build None (Some (Number.Finite (2 # 1))))).
  assert (E : exists result, r = (Ok result, r.2)) by (eexists; run).
  destruct E as [result E]. exists result, r.2. split; [exact E|].
  destruct (report_is_consistent_and_in_discovery_order lowerAscii
              Opf.parseMetadataOpf (migrator "") _ _ _ _ _ E) as (Hsum & Hlen & _).
  split; [exact Hsum|]. split; [exact Hlen|].
  revert E. vm_compute. intros [= <-]. reflexivity.
Defined.

(** Listing the source folder throws; and listing the second author
    folder throws after the first book has been migrated. *)
Lemma listing_failures_abort_the_run_witness :
  migrate "source" MigrationOptions.default
    = (Throw (JS.lit "API Error for specific folder"), state) /\
  exists s',
    migrate "af-author2" MigrationOptions.default
      = (Throw (JS.lit "API Error for specific folder"), s') /\
    exists registered,
      GoogleDriveService.findBookByIsbn MockGoogleDriveService.service
        (JS.lit "9780000001001") s'.1 = (Ok (Some registered), s'.1).
Proof.
  split.
  - apply (listing_failures_abort_the_run lowerAscii Opf.parseMetadataOpf
             (migrator "source") (JS.lit "source") MigrationOptions.default state).
    run.
  - assert (Hwalk : exists s0 visits s1,
      liftL (GoogleDriveService.findFilesByParent
               (CalibreMigrator.driveService (migrator "af-author2")) (JS.lit "source"))
            state = (Ok ([authorFolder "1"] ++ authorFolder "2" :: [authorFolder "3"]), s0) /\
      CalibreMigrator.authorsWalk lowerAscii Opf.parseMetadataOpf (migrator "af-author2")
        MigrationOptions.default 0 s0 [authorFolder "1"] visits false s1).
    { eexists _, _, _. split; [run|walk_authors]. }
    destruct Hwalk as (s0 & visits & [w1 c1] & Hlist & Hwalk).
    pose (r := migrate "af-author2" MigrationOptions.default).
    assert (Hr : r = (Throw (JS.lit "API Error for specific folder"), (w1, c1))).
    { eapply (proj2 (listing_failures_abort_the_run lowerAscii Opf.parseMetadataOpf
               (migrator "af-author2") (JS.lit "source") MigrationOptions.default state)
               _ _ _ _ _ _ _ _ Hlist Hwalk); run. }
    exists r.2. split.
    + change (r = (Throw (JS.lit "API Error for specific folder"), r.2)).
      rewrite Hr. reflexivity.
    + eexists. run.
Defined.

End MigrateExamples.

(** ** Claim C9: a dry run only reads *)

Section QuietFacts.
Import Quiet.
Context {W : Type} (P : Prop).

Abbreviation SpyState := (BookService.State (W * list Spy.Call)).

Lemma quiet_ret {A : Type} (a : A) : quiet P (ret (S := SpyState) a).
Proof.
  intros w log ch. exists w, []. rewrite app_nil_r.
  split; [reflexivity|]. split; [constructor|reflexivity].
Qed.

Lemma quiet_bind {A B : Type} (m : M SpyState A) (f : A -> M SpyState B) :
  quiet P m -> (forall a, quiet P (f a)) -> quiet P (bind m f).
Proof.
  intros Hm Hf w log ch. unfold bind.
  destruct (Hm w log ch) as (w1 & calls1 & E1 & Hr1 & Hw1).
  destruct (m (w, log, ch)) as [[a|e] s1]; cbn [snd] in E1; subst s1.
  - destruct (Hf a w1 (log ++ calls1) ch) as (w2 & calls2 & E2 & Hr2 & Hw2).
    exists w2, (calls1 ++ calls2). rewrite app_assoc.
    split; [exact E2|]. split; [apply Forall_app; split; assumption|].
    intros HP. rewrite (Hw2 HP). apply Hw1, HP.
  - exists w1, calls1. split; [reflexivity|]. split; assumption.
Qed.

Lemma quiet_try_catch {A : Type} (m : M SpyState A) (h : list Z -> M SpyState A) :
  quiet P m -> (forall e, quiet P (h e)) -> quiet P (try_catch m h).
Proof.
  intros Hm Hh w log ch. unfold try_catch.
  destruct (Hm w log ch) as (w1 & calls1 & E1 & Hr1 & Hw1).
  destruct (m (w, log, ch)) as [[a|e] s1]; cbn [snd] in E1; subst s1.
  - exists w1, calls1. split; [reflexivity|]. split; assumption.
  - destruct (Hh e w1 (log ++ calls1) ch) as (w2 & calls2 & E2 & Hr2 & Hw2).
    exists w2, (calls1 ++ calls2). rewrite app_assoc.
    split; [exact E2|]. split; [apply Forall_app; split; assumption|].
    intros HP. rewrite (Hw2 HP). apply Hw1, HP.
Qed.

(** A recorded reading call of a store that reads without changing. *)
Lemma quiet_call {A : Type} (c : Spy.Call) (m : M W A) :
  Spy.reads c = true -> (P -> forall w, (m w).2 = w) ->
  quiet P (liftL (Spy.logged c m)).
Proof.
  intros Hc Hm w log ch. exists (m w).2, [c].
  unfold liftL, Spy.logged. cbn. destruct (m w) as [r w1] eqn:E. cbn.
  split; [reflexivity|]. split; [repeat constructor; exact Hc|].
  intros HP. specialize (Hm HP w). rewrite E in Hm. exact Hm.
Qed.

End QuietFacts.

Section DryRun.
Import CalibreMigrator MigratorSpec Quiet.
Context (toLowerCase : list Z -> list Z).
Context (parseMetadataOpf : list Z -> PartialMetadata.t).
Context {W : Type} (this : CalibreMigrator.t W).
Context (options : MigrationOptions.t).
Hypothesis dry : MigrationOptions.dryRun options = Some true.

Abbreviation drive := (driveService this).
Abbreviation bookDrive := (BookService.driveService (bookService this)).
Abbreviation stores := (readOnly drive /\ readOnly bookDrive).

Lemma readMetadata_quiet (files : list DriveFile.t) :
  quiet stores (readMetadata parseMetadataOpf (spied this) files).
Proof.
  unfold readMetadata. destruct (find _ files) as [opfFile|]; [|apply quiet_ret].
  apply quiet_bind; [|intros content; apply quiet_ret].
  apply quiet_call; [reflexivity|]. intros [Hd _] w. apply Hd.
Qed.

Lemma probeDuplicate_quiet (metadata : PartialMetadata.t) :
  quiet stores (probeDuplicate (spied this) metadata).
Proof.
  unfold probeDuplicate.
  destruct (BookService.truthy_undefined _); [|apply quiet_ret].
  apply quiet_call; [reflexivity|]. intros [_ Hb] w. apply Hb.
Qed.

Lemma migrateBook_quiet (bookFolderId bookFolderName : list Z) :
  quiet stores (migrateBook toLowerCase parseMetadataOpf (spied this)
                  bookFolderId bookFolderName options).
Proof using dry.
  unfold migrateBook. apply quiet_bind.
  { apply quiet_call; [reflexivity|]. intros [Hd _] w. apply Hd. }
  intros files. apply quiet_bind; [apply readMetadata_quiet|].
  intros metadata. apply quiet_bind; [apply probeDuplicate_quiet|].
  intros [existing|]; [apply quiet_ret|].
  destruct (selectBookFile toLowerCase files); [|apply quiet_ret].
  rewrite bool_decide_eq_true_2 by exact dry. apply quiet_ret.
Qed.

Lemma bookLoop_quiet (bookFolders : list DriveFile.t) (result : MigrationResult.t) :
  quiet stores (bookLoop toLowerCase parseMetadataOpf (spied this) options
                  bookFolders result).
Proof using dry.
  revert result. induction bookFolders as [|f rest IH]; intros result;
    cbn [bookLoop]; [apply quiet_ret|].
  destruct (isFolder f); cbn [negb]; [|apply IH].
  destruct (limitReached options _); [apply quiet_ret|].
  apply quiet_bind; [|intros detail; apply IH].
  apply quiet_try_catch; [apply migrateBook_quiet|intros e; apply quiet_ret].
Qed.

Lemma authorLoop_quiet (authorFolders : list DriveFile.t) (result : MigrationResult.t) :
  quiet stores (authorLoop toLowerCase parseMetadataOpf (spied this) options
                  authorFolders result).
Proof using dry.
  revert result. induction authorFolders as [|f rest IH]; intros result;
    cbn [authorLoop]; [apply quiet_ret|].
  destruct (isFolder f); cbn [negb]; [|apply IH].
  apply quiet_bind.
  { apply quiet_call; [reflexivity|]. intros [Hd _] w. apply Hd. }
  intros bookFolders. apply quiet_bind; [apply bookLoop_quiet|].
  intros [[|] r]; cbn [fst snd]; [apply quiet_ret|apply IH].
Qed.

Lemma migrate_quiet (sourceFolderId : list Z) :
  quiet stores (migrate toLowerCase parseMetadataOpf (spied this)
                  sourceFolderId options).
Proof using dry.
  unfold migrate. apply quiet_bind; [|intros; apply authorLoop_quiet].
  apply quiet_call; [reflexivity|]. intros [Hd _] w. apply Hd.
Qed.

(** C9.  In a dry run, a unit whose folder holds a supported book file
    and whose isbn, if it has one, is not found among the records, is
    reported as [succeeded] after reading calls only: the folder
    listing, the content of the metadata document, the isbn probe.
    [registerBook], whose first call is [ensureMyLibraryFolder], is not
    called.  The whole run makes reading calls only and leaves the cache
    as it is; and on a store whose reading operations change nothing, it
    leaves the store as it is, so that an isbn that was not found before
    the run is not found after it. *)
Theorem dry_run_registers_nothing :
  (forall bookFolderId bookFolderName w log0 ch files metadata bookFile,
     GoogleDriveService.findFilesByParent drive bookFolderId w = (Ok files, w) ->
     match find (named (JS.lit "metadata.opf")) files with
     | Some opfFile =>
         exists content,
           GoogleDriveService.getFileContent drive (DriveFile.id opfFile) w
             = (Ok content, w) /\
           metadata = parseMetadataOpf (Utf8.decode content)
     | None => metadata = PartialMetadata.empty
     end ->
     (BookService.truthy_undefined (PartialMetadata.isbn metadata) = true ->
      GoogleDriveService.findBookByIsbn bookDrive
        (default [] (PartialMetadata.isbn metadata)) w = (Ok None, w)) ->
     selectBookFile toLowerCase files = Some bookFile ->
     exists calls,
       migrateBook toLowerCase parseMetadataOpf (spied this)
         bookFolderId bookFolderName options ((w, log0), ch)
       = (Ok (MigrationDetail.Build
                (BookService.or_undefined (PartialMetadata.title metadata)
                   bookFolderName)
                MigrationDetail.succeeded None),
          ((w, log0 ++ calls), ch)) /\
       Forall (fun c => Spy.reads c = true) calls) /\
  (forall sourceFolderId w log0 ch,
     exists w' calls,
       (migrate toLowerCase parseMetadataOpf (spied this) sourceFolderId options
          ((w, log0), ch)).2 = ((w', log0 ++ calls), ch) /\
       Forall (fun c => Spy.reads c = true) calls /\
       (readOnly drive -> readOnly bookDrive ->
        w' = w /\
        forall isbn,
          GoogleDriveService.findBookByIsbn bookDrive isbn w = (Ok None, w) ->
          GoogleDriveService.findBookByIsbn bookDrive isbn w' = (Ok None, w'))).
Proof using dry.
  split.
  - intros bookFolderId bookFolderName w log0 ch files metadata bookFile
      Hfiles Hmeta Hprobe Hfile.
    unfold migrateBook.
    assert (Hstep : forall {A : Type} (c : Spy.Call) (m : M W A) (a : A) log,
      m w = (Ok a, w) ->
      liftL (Spy.logged c m) ((w, log), ch) = (Ok a, ((w, log ++ [c]), ch))).
    { intros A c m a log E. unfold liftL, Spy.logged. cbn. rewrite E. reflexivity. }
    rewrite (bind_run _ _ _ _ _ (Hstep _ (Spy.FindFilesByParent bookFolderId)
               _ _ log0 Hfiles)).
    assert (Hread : exists calls1,
      readMetadata parseMetadataOpf (spied this) files
        ((w, log0 ++ [Spy.FindFilesByParent bookFolderId]), ch)
      = (Ok metadata, ((w, (log0 ++ [Spy.FindFilesByParent bookFolderId]) ++ calls1), ch))
      /\ Forall (fun c => Spy.reads c = true) calls1).
    { unfold readMetadata.
      destruct (find (named (JS.lit "metadata.opf")) files) as [opfFile|].
      - destruct Hmeta as (content & Hcontent & ->).
        exists [Spy.GetFileContent (DriveFile.id opfFile)].
        split; [|repeat constructor].
        erewrite bind_run;
          [reflexivity|exact (Hstep _ (Spy.GetFileContent _) _ _ _ Hcontent)].
      - subst metadata. exists []. rewrite app_nil_r.
        split; [reflexivity|constructor]. }
    destruct Hread as (calls1 & Eread & Hreads1).
    rewrite (bind_run _ _ _ _ _ Eread).
    assert (Hdup : exists calls2,
      probeDuplicate (spied this) metadata
        ((w, (log0 ++ [Spy.FindFilesByParent bookFolderId]) ++ calls1), ch)
      = (Ok None,
         ((w, ((log0 ++ [Spy.FindFilesByParent bookFolderId]) ++ calls1) ++ calls2), ch))
      /\ Forall (fun c => Spy.reads c = true) calls2).
    { unfold probeDuplicate.
      destruct (BookService.truthy_undefined (PartialMetadata.isbn metadata)).
      - exists [Spy.FindBookByIsbn (default [] (PartialMetadata.isbn metadata))].
        split; [|repeat constructor].
        exact (Hstep _ (Spy.FindBookByIsbn _) _ _ _ (Hprobe eq_refl)).
      - exists []. rewrite app_nil_r. split; [reflexivity|constructor]. }
    destruct Hdup as (calls2 & Edup & Hreads2).
    rewrite (bind_run _ _ _ _ _ Edup), Hfile.
    rewrite bool_decide_eq_true_2 by exact dry.
    exists ([Spy.FindFilesByParent bookFolderId] ++ calls1 ++ calls2).
    split; [rewrite !app_assoc; reflexivity|].
    rewrite !Forall_app. split; [repeat constructor|]. split; assumption.
  - intros sourceFolderId w log0 ch.
    destruct (migrate_quiet sourceFolderId w log0 ch) as (w' & calls & E & Hr & Hw).
    exists w', calls. split; [exact E|]. split; [exact Hr|].
    intros Hd Hb. assert (w' = w) as -> by (apply Hw; split; assumption).
    split; [reflexivity|]. intros isbn H. exact H.
Qed.

End DryRun.

Section DryRunExample.
Import CalibreExamples.

(** The reading operations of the mock store return the store they were
    given, also when they throw. *)
Lemma mock_readOnly (failForFolderId : list Z) :
  MigratorSpec.readOnly (MockGoogleDriveService.partiallyFailing failForFolderId).
Proof.
  intros id w. cbn.
  unfold MockGoogleDriveService.getFile, MockGoogleDriveService.getFileContent,
    MockGoogleDriveService.findBookByIsbn, MockGoogleDriveService.findFilesByParent,
    MockGoogleDriveService.checkFail, MockGoogleDriveService.notFound, bind, throw.
  destruct (JS.eqb id failForFolderId);
    destruct (MockGoogleDriveService.shouldFail w);
    destruct (MockGoogleDriveService.map_get id (MockGoogleDriveService.files w));
    repeat split.
Qed.

(** The test MGRSCRIPT-10: a dry run over the three books.  The first
    book is reported as succeeded after three reading calls, the run
    leaves the store as it was, and the isbn of the first book is still
    not found. *)
Lemma dry_run_registers_nothing_witness :
  let start := ((library, []), state.2) in
  (exists calls,
     CalibreMigrator.migrateBook lowerAscii Opf.parseMetadataOpf
       (MigratorSpec.spied (migrator EmptyString))
       (JS.lit "bf-book1") (JS.lit "Book 1 (2020)") dryRun start
     = (Ok (MigrationDetail.Build (JS.lit "Book 1") MigrationDetail.succeeded None),
        ((library, calls), state.2)) /\
     Forall (fun c => Spy.reads c = true) calls) /\
  (exists calls,
     (CalibreMigrator.migrate lowerAscii Opf.parseMetadataOpf
        (MigratorSpec.spied (migrator EmptyString)) (JS.lit "source") dryRun start).2
     = ((library, calls), state.2) /\
     Forall (fun c => Spy.reads c = true) calls /\
     GoogleDriveService.findBookByIsbn MockGoogleDriveService.service
       (JS.lit "9780000001001") library = (Ok None, library)).
Proof.
  intros start.
  destruct (dry_run_registers_nothing lowerAscii Opf.parseMetadataOpf
              (migrator EmptyString) dryRun eq_refl) as [Hunit Hrun].
  split.
  - pose (content := Utf8.encode (makeOpf (JS.lit "Book 1") (JS.lit "Author 1")
                                    (JS.lit "978-0-00-000100-1"))).
    pose (files := match (GoogleDriveService.findFilesByParent
                            (CalibreMigrator.driveService (migrator EmptyString))
                            (JS.lit "bf-book1") library).1 with
                   | Ok fs => fs
                   | Throw _ => []
                   end).
    pose (bookFile := MockGoogleDriveService.file
            (entry "epub-bf-book1" "Book 1.epub" "application/epub+zip" "bf-book1"
               (Some [1])).2).
    destruct (Hunit (JS.lit "bf-book1") (JS.lit "Book 1 (2020)") library [] state.2
                files (Opf.parseMetadataOpf (Utf8.decode content)) bookFile)
      as (calls & E & Hreads).
    + run.
    + exists content. split; run.
    + intros _. run.
    + run.
    + exists calls. split; [|exact Hreads].
      revert E. vm_compute. intros E. exact E.
  - destruct (Hrun (JS.lit "source") library [] state.2) as (w' & calls & E & Hreads & Hsame).
    destruct (Hsame (mock_readOnly _) (mock_readOnly _)) as [-> Hprobe].
    exists calls. split; [exact E|]. split; [exact Hreads|].
    apply (Hprobe (JS.lit "9780000001001")). run.
Defined.

End DryRunExample.

(** * Further properties of the code *)

(** ** [CompositeMetadataService]: failing sources *)

Section CompositeFailures.
Import CompositeMetadataService.
Context {W : Type}.

Lemma loop_returns (services : list (BookMetadataService.t W)) (isbn0 : list Z)
    (acc : option BookMetadata.t) (w : W) :
  exists r w', loop services isbn0 acc w = (Ok r, w').
Proof.
  revert acc w. induction services as [|svc rest IH]; intros acc w; cbn [loop].
  - eexists _, _. reflexivity.
  - destruct (BookMetadataService.fetchByIsbn svc isbn0 w) as [[[c|]|e] w1];
      try apply IH.
    destruct (isComplete _); [eexists _, _; reflexivity|apply IH].
Qed.

(** X1.  [fetchByIsbn] of the composite never throws, whatever its sources
    do.  A source that throws, or that answers [null], is passed over:
    the composite goes on with the remaining sources, in the world that
    source left.  When no source answers, the result is [null]. *)
Theorem composite_swallows_source_failures
    (services : list (BookMetadataService.t W)) (isbn0 : list Z) (w : W) :
  (exists r w', fetchByIsbn services isbn0 w = (Ok r, w')) /\
  (forall svc e w1,
     BookMetadataService.fetchByIsbn svc isbn0 w = (Throw e, w1) ->
     fetchByIsbn (svc :: services) isbn0 w = fetchByIsbn services isbn0 w1) /\
  (forall svc w1,
     BookMetadataService.fetchByIsbn svc isbn0 w = (Ok None, w1) ->
     fetchByIsbn (svc :: services) isbn0 w = fetchByIsbn services isbn0 w1) /\
  (Forall (fun svc => forall w0 c,
             (BookMetadataService.fetchByIsbn svc isbn0 w0).1 <> Ok (Some c))
          services ->
   (fetchByIsbn services isbn0 w).1 = Ok None).
Proof.
  split; [apply loop_returns|].
  split; [intros svc e w1 E; unfold fetchByIsbn; cbn [loop]; rewrite E; reflexivity|].
  split; [intros svc w1 E; unfold fetchByIsbn; cbn [loop]; rewrite E; reflexivity|].
  unfold fetchByIsbn. revert w.
  induction services as [|svc rest IH]; intros w Hall; [reflexivity|].
  apply Forall_cons in Hall as [Hsvc Hrest]. cbn [loop].
  specialize (Hsvc w).
  destruct (BookMetadataService.fetchByIsbn svc isbn0 w) as [[[c|]|e] w1];
    [exfalso; apply (Hsvc c); reflexivity|apply IH, Hrest|apply IH, Hrest].
Qed.

End CompositeFailures.

(** A throwing source followed by one that has nothing: the result is
    [null], and a throwing source in front of source A changes nothing. *)
Lemma composite_swallows_source_failures_witness :
  (CompositeMetadataService.fetchByIsbn
     [throwingService (W := unit); constantService None]
     (JS.lit "9784101010014") tt).1 = Ok None /\
  CompositeMetadataService.fetchByIsbn
    [throwingService (W := unit); constantService (Some MetadataExamples.sourceA)]
    (JS.lit "9784101010014") tt
  = CompositeMetadataService.fetchByIsbn
      [constantService (Some MetadataExamples.sourceA)] (JS.lit "9784101010014") tt.
Proof.
  split.
  - apply (composite_swallows_source_failures
             [throwingService (W := unit); constantService None]).
    repeat constructor; intros w0 c; discriminate.
  - apply (proj1 (proj2 (composite_swallows_source_failures
             [constantService (Some MetadataExamples.sourceA)]
             (JS.lit "9784101010014") tt))
             throwingService (JS.lit "Service error") tt).
    reflexivity.
Defined.

(** ** [CacheService]: expiry and prefixes *)

Section CacheFacts.
Import CacheService.
Context {T : Type}.

(** X2.  An entry is returned up to and including the instant
    [now + ttl] and not after it; the read that finds it expired removes
    it.  [has] answers as [get] does. *)
Theorem cache_get_after_set (now now' : Z) (key : list Z) (d : T) (c : t T) :
  get now' key (set now key d c)
  = (if now + ttl c <? now'
     then (None, invalidate key c)
     else (Some d, set now key d c)) /\
  has now' key (set now key d c)
  = (if now + ttl c <? now'
     then (false, invalidate key c)
     else (true, set now key d c)).
Proof.
  unfold get, has, set, invalidate. cbn [cache ttl].
  rewrite lookup_insert_eq. cbn [expiry data].
  rewrite delete_insert_eq.
  split; destruct (now + ttl c <? now'); reflexivity.
Qed.

(** X3.  [invalidateByPrefix] removes the entries whose key starts with the
    prefix and keeps every other entry as it is.  With the empty prefix
    it empties the cache, as [invalidateAll] does; it never adds an
    entry, and doing it twice is doing it once. *)
Theorem invalidateByPrefix_removes_the_prefix (prefix : list Z) (c : t T) :
  (forall key,
     cache (invalidateByPrefix prefix c) !! key
     = if JS.startsWith key prefix then None else cache c !! key) /\
  invalidateByPrefix [] c = invalidateAll c /\
  (size (invalidateByPrefix prefix c) <= size c)%nat /\
  invalidateByPrefix prefix (invalidateByPrefix prefix c)
  = invalidateByPrefix prefix c /\
  ttl (invalidateByPrefix prefix c) = ttl c.
Proof.
  split; [intros key; apply invalidateByPrefix_lookup|].
  split.
  { unfold invalidateByPrefix, invalidateAll. f_equal.
    apply map_eq. intros key. rewrite lookup_empty.
    apply map_lookup_filter_None. right. intros x _. cbn.
    destruct key; discriminate. }
  split.
  { unfold size, invalidateByPrefix. cbn [cache].
    apply map_subseteq_size, map_filter_subseteq. }
  split; [|reflexivity].
  assert (E : cache (invalidateByPrefix prefix (invalidateByPrefix prefix c))
              = cache (invalidateByPrefix prefix c)).
  { apply map_eq. intros key. rewrite !invalidateByPrefix_lookup.
    destruct (JS.startsWith key prefix); reflexivity. }
  destruct (invalidateByPrefix prefix (invalidateByPrefix prefix c)) as [m1 t1] eqn:E1.
  destruct (invalidateByPrefix prefix c) as [m2 t2] eqn:E2.
  cbn [cache] in E. subst m1. f_equal.
  apply (f_equal ttl) in E1. apply (f_equal ttl) in E2. cbn in E1, E2. congruence.
Qed.

End CacheFacts.

(** ** Strings: [split] and [trim] *)

Section StringFacts.
Import JS.

Lemma split_nonempty (sep : Z) (s : list Z) : split sep s <> [].
Proof.
  destruct s as [|c s]; cbn; [discriminate|].
  destruct (c =? sep); [discriminate|]. destruct (split sep s); discriminate.
Qed.

Lemma split_without (sep : Z) (s : list Z) : ~ In sep s -> split sep s = [s].
Proof.
  induction s as [|c s IH]; intros Hs; [reflexivity|]. cbn.
  destruct (Z.eqb_spec c sep) as [->|_]; [exfalso; apply Hs; left; reflexivity|].
  rewrite IH; [reflexivity|]. intros H. apply Hs. right. exact H.
Qed.

(** Splitting at an occurrence of the separator. *)
Lemma split_app (sep : Z) (s b : list Z) :
  split sep (s ++ sep :: b) = split sep s ++ split sep b.
Proof.
  induction s as [|c s IH]; cbn.
  - rewrite Z.eqb_refl. reflexivity.
  - destruct (c =? sep); [rewrite IH; reflexivity|].
    rewrite IH. pose proof (split_nonempty sep s) as Hne.
    destruct (split sep s) as [|w ws]; [contradiction|reflexivity].
Qed.

Lemma split_hd_without (sep : Z) (s : list Z) :
  ~ In sep (hd [] (split sep s)).
Proof.
  induction s as [|c s IH]; cbn; [tauto|].
  destruct (Z.eqb_spec c sep) as [->|Hc]; [cbn; tauto|].
  destruct (split sep s) as [|w ws]; cbn in *; intros [H|H]; congruence || tauto.
Qed.

Lemma split_last_without (sep : Z) (s : list Z) :
  ~ In sep (default [] (last (split sep s))).
Proof.
  induction s as [|c s IH]; cbn; [tauto|].
  destruct (Z.eqb_spec c sep) as [->|Hc].
  - pose proof (split_nonempty sep s) as Hne.
    destruct (split sep s) as [|w ws]; [contradiction|]. exact IH.
  - destruct (split sep s) as [|w ws]; cbn; [intros [H|[]]; congruence|].
    destruct ws as [|w' ws]; [|exact IH].
    cbn in *. intros [H|H]; [congruence|tauto].
Qed.

Lemma last_rev (s : list Z) : last (rev s) = head s.
Proof. destruct s as [|c s]; [reflexivity|]. cbn. apply last_snoc. Qed.

Lemma head_rev (s : list Z) : head (rev s) = last s.
Proof. rewrite <- (rev_involutive s) at 2. symmetry. apply last_rev. Qed.

Lemma trimStart_suffix (s : list Z) : exists pre, s = pre ++ trimStart s.
Proof.
  induction s as [|c s [pre IH]]; [exists []; reflexivity|]. cbn.
  destruct (is_space c); [exists (c :: pre); cbn; congruence|exists []; reflexivity].
Qed.

Lemma trimStart_head (s : list Z) (c : Z) :
  head (trimStart s) = Some c -> is_space c = false.
Proof.
  induction s as [|d s IH]; cbn; [discriminate|].
  destruct (is_space d) eqn:E; [exact IH|]. cbn. intros [= <-]. exact E.
Qed.

Lemma trimStart_In (s : list Z) (c : Z) : In c (trimStart s) -> In c s.
Proof.
  destruct (trimStart_suffix s) as [pre E]. intros H. rewrite E.
  apply in_or_app. right. exact H.
Qed.

Lemma trim_In (s : list Z) (c : Z) : In c (trim s) -> In c s.
Proof.
  unfold trim. rewrite <- in_rev. intros H%trimStart_In.
  rewrite <- in_rev in H. apply trimStart_In, H.
Qed.

Lemma trim_last (s : list Z) (c : Z) : last (trim s) = Some c -> is_space c = false.
Proof.
  unfold trim. rewrite last_rev. apply trimStart_head.
Qed.

Lemma trim_head (s : list Z) (c : Z) : head (trim s) = Some c -> is_space c = false.
Proof.
  unfold trim. rewrite head_rev.
  destruct (trimStart_suffix (rev (trimStart s))) as [pre E].
  intros Hl.
  assert (Hlast : last (rev (trimStart s)) = Some c).
  { rewrite E. destruct (trimStart (rev (trimStart s))) as [|x l] eqn:Et;
      [discriminate|].
    rewrite last_app. rewrite Hl. reflexivity. }
  rewrite last_rev in Hlast. apply trimStart_head in Hlast. exact Hlast.
Qed.

End StringFacts.

(** A code unit does not occur in a literal. *)
Ltac not_in_literal :=
  let Hin := fresh "Hin" in
  cbn; intros Hin; repeat destruct Hin as [Hin|Hin]; try discriminate Hin; exact Hin.

(** ** The file-name helpers of [drive.ts] *)

Section FileNameFacts.
Import FileName.

(** X4.  [getFirstAuthor] gives the text before the first hyphen, without the
    white space around it: the result holds no hyphen and neither starts
    nor ends with white space.  A name that itself contains a hyphen is
    cut at it. *)
Theorem getFirstAuthor_before_first_hyphen (authors : list Z) :
  ~ In 45 (getFirstAuthor authors) /\
  (forall c, head (getFirstAuthor authors) = Some c -> JS.is_space c = false) /\
  (forall c, last (getFirstAuthor authors) = Some c -> JS.is_space c = false) /\
  (~ In 45 authors -> getFirstAuthor authors = JS.trim authors) /\
  (forall first rest,
     authors = first ++ 45 :: rest -> ~ In 45 first ->
     getFirstAuthor authors = JS.trim first).
Proof.
  unfold getFirstAuthor. repeat split.
  - intros H%trim_In. exact (split_hd_without 45 authors H).
  - apply trim_head.
  - apply trim_last.
  - intros H. rewrite split_without by exact H. reflexivity.
  - intros first rest -> H. rewrite split_app, (split_without 45 first) by exact H.
    reflexivity.
Qed.

(** "Jean-Paul Sartre - Simone" gives "Jean". *)
Lemma getFirstAuthor_before_first_hyphen_witness :
  getFirstAuthor (JS.lit "Jean-Paul Sartre - Simone") = JS.lit "Jean" /\
  getFirstAuthor (JS.lit "  Dazai  ") = JS.lit "Dazai".
Proof.
  split.
  - rewrite (proj2 (proj2 (proj2 (proj2
      (getFirstAuthor_before_first_hyphen (JS.lit "Jean-Paul Sartre - Simone")))))
      (JS.lit "Jean") (JS.lit "Paul Sartre - Simone")).
    + reflexivity.
    + reflexivity.
    + not_in_literal.
  - rewrite (proj1 (proj2 (proj2 (proj2
      (getFirstAuthor_before_first_hyphen (JS.lit "  Dazai  ")))))).
    + reflexivity.
    + not_in_literal.
Defined.

(** X5.  [getExtension] gives the text after the last slash of a MIME type
    other than the two it knows by name; a string with no slash is
    returned whole.  The result holds no slash. *)
Theorem getExtension_after_last_slash (mimeType : list Z) :
  ~ In 47 (getExtension mimeType) /\
  (~ In 47 mimeType -> getExtension mimeType = mimeType) /\
  (forall type subtype,
     mimeType = type ++ 47 :: subtype -> ~ In 47 subtype ->
     mimeType <> JS.lit "application/epub+zip" ->
     mimeType <> JS.lit "application/pdf" ->
     getExtension mimeType = subtype).
Proof.
  unfold getExtension, JS.eqb. repeat split.
  - repeat case_bool_decide.
    + not_in_literal.
    + not_in_literal.
    + apply split_last_without.
  - intros Hno. repeat case_bool_decide.
    + subst. exfalso. apply Hno. vm_compute. tauto.
    + subst. exfalso. apply Hno. vm_compute. tauto.
    + rewrite split_without by exact Hno. reflexivity.
  - intros type subtype -> Hno H1 H2.
    rewrite !bool_decide_eq_false_2 by assumption.
    rewrite split_app, (split_without 47 subtype) by exact Hno.
    rewrite last_snoc. reflexivity.
Qed.

Lemma getExtension_after_last_slash_witness :
  getExtension (JS.lit "application/x-mobipocket-ebook") = JS.lit "x-mobipocket-ebook" /\
  getExtension (JS.lit "epub") = JS.lit "epub".
Proof.
  split.
  - apply (proj2 (proj2 (getExtension_after_last_slash
             (JS.lit "application/x-mobipocket-ebook"))) (JS.lit "application")).
    + reflexivity.
    + not_in_literal.
    + discriminate.
    + discriminate.
  - apply (proj1 (proj2 (getExtension_after_last_slash (JS.lit "epub")))).
    not_in_literal.
Defined.

End FileNameFacts.

(** ** [sanitizeProperties]: long keys, and sanitising twice *)

Section SanitizeMore.
Import JS Utf8 Drive.

Lemma encode_code_point_nonempty (c : Z) : encode_code_point c <> [].
Proof.
  unfold encode_code_point.
  repeat match goal with |- context [if ?b then _ else _] => destruct b end;
    discriminate.
Qed.

Lemma encode_empty (s : list Z) : encode s = [] -> s = [].
Proof.
  destruct s as [|u rest]; [reflexivity|]. unfold encode. intros H. exfalso.
  assert (Hne : exists c cs, to_scalar_values (u :: rest) = c :: cs).
  { cbn. destruct (is_high_surrogate u).
    - destruct rest as [|l rest']; [eexists _, _; reflexivity|].
      destruct (is_low_surrogate l); eexists _, _; reflexivity.
    - destruct (is_low_surrogate u); eexists _, _; reflexivity. }
  destruct Hne as (c & cs & E). rewrite E in H.
  rewrite encode_code_points_cons in H.
  apply app_eq_nil in H as [H _]. exact (encode_code_point_nonempty c H).
Qed.

Lemma truncateToBytes_zero (str : list Z) : truncateToBytes str 0 = [].
Proof.
  unfold truncateToBytes.
  destruct (Nat.leb_spec (length (encode str)) 0) as [Hle|Hlt].
  - apply encode_empty. destruct (encode str); [reflexivity|cbn in Hle; lia].
  - reflexivity.
Qed.

(** X6.  An entry whose key alone takes 124 bytes or more is kept, with the
    empty string as its value. *)
Theorem long_key_empties_the_value
    (properties : gmap (list Z) (list Z)) (key value : list Z) :
  properties !! key = Some value ->
  (124 <= length (encode key))%nat ->
  sanitizeProperties properties !! key = Some [].
Proof.
  intros Hkey Hlong. rewrite sanitizeProperties_lookup, Hkey. cbn. f_equal.
  rewrite maxValueBytes_eq.
  replace (124 - length (encode key))%nat with 0%nat by lia.
  apply truncateToBytes_zero.
Qed.

Lemma long_key_empties_the_value_witness :
  sanitizeProperties {[ repeat 97 124 := lit "abc" ]} !! repeat 97 124 = Some [].
Proof.
  apply (long_key_empties_the_value _ _ (lit "abc")).
  - apply lookup_singleton_eq.
  - vm_compute. lia.
Defined.

Lemma truncateToBytes_idempotent (str : list Z) (maxBytes : nat) :
  wf_string str ->
  truncateToBytes (truncateToBytes str maxBytes) maxBytes = truncateToBytes str maxBytes.
Proof.
  intros Hwf. destruct (truncateToBytes_spec str maxBytes Hwf) as [Hlen _].
  unfold truncateToBytes at 1.
  destruct (Nat.leb_spec (length (encode (truncateToBytes str maxBytes))) maxBytes);
    [reflexivity|lia].
Qed.

(** X7.  Sanitising a second time changes nothing: what [sanitizeProperties]
    returns is already within the limit it enforces. *)
Theorem sanitizeProperties_idempotent (properties : gmap (list Z) (list Z)) :
  map_Forall (fun _ value => wf_string value) properties ->
  sanitizeProperties (sanitizeProperties properties) = sanitizeProperties properties.
Proof.
  intros Hwf. apply map_eq. intros key.
  rewrite !sanitizeProperties_lookup.
  destruct (properties !! key) as [value|] eqn:E; [|reflexivity]. cbn. f_equal.
  apply truncateToBytes_idempotent. exact (Hwf key value E).
Qed.

Lemma sanitizeProperties_idempotent_witness :
  let properties : gmap (list Z) (list Z) :=
    {[ lit "description" := repeat 0x3042 100 ]} in
  sanitizeProperties (sanitizeProperties properties) = sanitizeProperties properties /\
  sanitizeProperties properties <> properties.
Proof.
  intros properties. split.
  - apply sanitizeProperties_idempotent.
    apply map_Forall_singleton. apply wf_string_repeat. unfold code_unit. lia.
  - intros E. apply (f_equal (fun m => length <$> m !! lit "description")) in E.
    rewrite sanitizeProperties_lookup in E. unfold properties in E.
    rewrite lookup_singleton_eq in E. vm_compute in E. discriminate E.
Defined.

End SanitizeMore.

(** ** [updateBook] and the extension of a name made by [formatFileName] *)

Section ExtensionRoundTrip.
Import FileName.
Context {W : Type} (this : BookService.t W).

Lemma currentExtension_formatFileName (existing : DriveFile.t)
    (authors title extension : list Z) :
  DriveFile.name existing = formatFileName authors title extension ->
  ~ In 46 extension ->
  BookService.currentExtension existing
  = if JS.truthy extension then extension else JS.lit "epub".
Proof.
  intros Hname Hext. unfold BookService.currentExtension. rewrite Hname.
  unfold formatFileName.
  replace (JS.lit "[" ++ authors ++ JS.lit "] " ++ title ++ JS.lit "." ++ extension)
    with ((JS.lit "[" ++ authors ++ JS.lit "] " ++ title) ++ 46 :: extension)
    by (rewrite <- !app_assoc; reflexivity).
  rewrite split_app, (split_without 46 extension) by exact Hext.
  rewrite last_snoc. cbn. unfold JS.or. reflexivity.
Qed.

(** X8.  A file named by [formatFileName] from the authors and the title it
    has as properties, with an extension that is not empty and holds no
    dot, keeps its name through an update that gives neither a title nor
    authors: [updateBook] computes the same name again and makes no
    [renameFile] call. *)
Theorem updateBook_keeps_a_formatted_name
    (fileId : list Z) (metadata : PartialMetadata.t) (w : W)
    (ch : CacheService.t DriveFileList.t) (file existing : DriveFile.t) (w1 : W)
    (s' : BookService.State (W * list Spy.Call))
    (authors title extension : list Z) :
  BookService.updateBook (Spy.bookService this) fileId metadata ((w, []), ch)
    = (Ok file, s') ->
  GoogleDriveService.getFile (BookService.driveService this) fileId w
    = (Ok existing, w1) ->
  DriveFile.name existing = formatFileName authors title extension ->
  DriveFile.properties existing !! Key.authors = Some authors ->
  DriveFile.properties existing !! Key.title = Some title ->
  extension <> [] -> ~ In 46 extension ->
  PartialMetadata.title metadata = None ->
  PartialMetadata.authors metadata = None ->
  BookService.newFileName existing metadata = DriveFile.name existing /\
  forall id n, ~ In (Spy.RenameFile id n) s'.1.2.
Proof.
  intros Hrun Hget Hname Ha Ht Hne Hdot Hmt Hma.
  assert (Hsame : BookService.newFileName existing metadata = DriveFile.name existing).
  { unfold BookService.newFileName. rewrite Hmt, Hma, Ha, Ht. cbn [BookService.or_undefined].
    rewrite (currentExtension_formatFileName existing authors title extension Hname Hdot).
    rewrite Hname. destruct extension; [contradiction|]. cbn [JS.truthy].
    unfold JS.or. destruct authors, title; reflexivity. }
  split; [exact Hsame|].
  destruct (updateBook_calls this fileId metadata w [] ch file s' Hrun)
    as (existing' & w1' & w2 & moves & Hget' & _ & Hlog & Hmoves).
  rewrite Hget in Hget'. injection Hget' as <- <-.
  rewrite Hsame in Hlog. unfold JS.eqb in Hlog.
  rewrite bool_decide_eq_true_2 in Hlog by reflexivity.
  assert (Hchanged : BookService.authorsChanged existing metadata = false).
  { unfold BookService.authorsChanged. rewrite Hma. reflexivity. }
  rewrite Hchanged in Hmoves. subst moves. rewrite Hlog. cbn.
  intros id n [H|[H|[]]]; discriminate.
Qed.

End ExtensionRoundTrip.

(** The sample registered in the empty store, updated with a publisher
    only. *)
Lemma updateBook_keeps_a_formatted_name_witness :
  exists file s',
    BookService.updateBook (Spy.bookService LibraryExamples.bookService)
      LibraryExamples.sampleId
      (PartialMetadata.Build None None None (Some (JS.lit "P")) None None None)
      ((LibraryExamples.registered.1, []), LibraryExamples.registered.2)
    = (Ok file, s') /\
    forall id n, ~ In (Spy.RenameFile id n) s'.1.2.
Proof.
  pose (md := PartialMetadata.Build None None None (Some (JS.lit "P")) None None None).
  pose (r := BookService.updateBook (Spy.bookService LibraryExamples.bookService)
      LibraryExamples.sampleId md
      ((LibraryExamples.registered.1, []), LibraryExamples.registered.2)).
  assert (E : exists file, r = (Ok file, r.2)) by (eexists; vm_compute; reflexivity).
  destruct E as [file E]. exists file, r.2. split; [exact E|].
  pose (g := GoogleDriveService.getFile MockGoogleDriveService.service
               LibraryExamples.sampleId LibraryExamples.registered.1).
  assert (G : exists existing, g = (Ok existing, g.2) /\
     DriveFile.name existing
     = FileName.formatFileName (BookMetadata.authors LibraryExamples.sampleMetadata)
         (BookMetadata.title LibraryExamples.sampleMetadata) (JS.lit "epub") /\
     DriveFile.properties existing !! Key.authors
     = Some (BookMetadata.authors LibraryExamples.sampleMetadata) /\
     DriveFile.properties existing !! Key.title
     = Some (BookMetadata.title LibraryExamples.sampleMetadata)).
  { eexists. split; [vm_compute; reflexivity|]. repeat split; vm_compute; reflexivity. }
  destruct G as (existing & G & Hname & Ha & Ht).
  apply (proj2 (updateBook_keeps_a_formatted_name LibraryExamples.bookService
           LibraryExamples.sampleId md LibraryExamples.registered.1
           LibraryExamples.registered.2 file existing g.2 r.2 _ _ (JS.lit "epub")
           E G Hname Ha Ht ltac:(discriminate) ltac:(not_in_literal) eq_refl eq_refl)).
Defined.

(** ** Listing through the cache *)

Section CachedListingFacts.
Import CachedListing BookServiceSpec.
Context {W : Type}.

Lemma throughCache_hit (this : Listing.t W) (key : list Z) (fetch : M W DriveFileList.t)
    (w : W) (c : CacheService.t DriveFileList.t) (data : DriveFileList.t) (expiry : Z) :
  CacheService.cache c !! key = Some (CacheService.Entry data expiry) ->
  Listing.now this w <= expiry ->
  throughCache this key fetch (w, c) = (Ok data, (w, c)).
Proof.
  intros Hentry Hfresh. unfold throughCache, cacheGet, bind, CacheService.get. cbn [fst snd].
  rewrite Hentry. cbn [CacheService.expiry CacheService.data].
  destruct (Z.ltb_spec expiry (Listing.now this w)); [lia|reflexivity].
Qed.

Lemma throughCache_miss (this : Listing.t W) (key : list Z) (fetch : M W DriveFileList.t)
    (w : W) (c : CacheService.t DriveFileList.t) :
  CacheService.cache c !! key = None ->
  throughCache this key fetch (w, c)
  = match fetch w with
    | (Ok result, w') =>
        (Ok result, (w', CacheService.set (Listing.now this w') key result c))
    | (Throw e, w') => (Throw e, (w', c))
    end.
Proof.
  intros Hentry. unfold throughCache, cacheGet, cacheSet, bind, liftL, ret,
    CacheService.get. cbn [fst snd].
  rewrite Hentry. cbn [fst snd]. destruct (fetch w) as [[result|e] w']; reflexivity.
Qed.

(** What a call that returned leaves in the cache: an entry with the
    value returned, good until an instant that is not before the end of
    the call when the time to live is not negative. *)
Lemma throughCache_leaves_entry (this : Listing.t W) (key : list Z)
    (fetch : M W DriveFileList.t) (w w' : W) (c c' : CacheService.t DriveFileList.t)
    (result : DriveFileList.t) :
  0 <= CacheService.ttl c ->
  throughCache this key fetch (w, c) = (Ok result, (w', c')) ->
  exists expiry,
    CacheService.cache c' !! key = Some (CacheService.Entry result expiry) /\
    Listing.now this w' <= expiry.
Proof.
  intros Httl. unfold throughCache, cacheGet, cacheSet, bind, liftL, ret,
    CacheService.get. cbn [fst snd].
  destruct (CacheService.cache c !! key) as [[data expiry]|] eqn:Hentry.
  - cbn [CacheService.expiry CacheService.data].
    destruct (Z.ltb_spec expiry (Listing.now this w)).
    + cbn [fst snd]. destruct (fetch w) as [[r|e] w1]; [|discriminate]. cbn [fst snd].
      intros [= <- <- <-]. eexists. cbn [CacheService.set CacheService.cache].
      rewrite lookup_insert_eq. split; [reflexivity|]. cbn [CacheService.ttl]. lia.
    + intros [= <- <- <-]. exists expiry. split; [exact Hentry|lia].
  - cbn [fst snd]. destruct (fetch w) as [[r|e] w1]; [|discriminate]. cbn [fst snd].
    intros [= <- <- <-]. eexists. cbn [CacheService.set CacheService.cache].
    rewrite lookup_insert_eq. split; [reflexivity|lia].
Qed.

(** X9.  After [listBooks] or [searchBooks] has returned, with a time to live
    that is not negative, the same request is answered from the cache
    until some instant not before the end of that call: it gives the
    same result and touches neither the world nor the cache, whatever the
    store would answer.  An absent page size, 0 and 20 are the same
    request. *)
Theorem listing_is_repeated_from_the_cache (this : Listing.t W)
    (w w' : W) (c c' : CacheService.t DriveFileList.t) (result : DriveFileList.t) :
  0 <= CacheService.ttl c ->
  (forall pageToken pageSize,
     listBooks this pageToken pageSize (w, c) = (Ok result, (w', c')) ->
     exists expiry,
       Listing.now this w' <= expiry /\
       forall (that : Listing.t W) (w2 : W) pageSize2,
         pageSizeOrDefault pageSize2 = pageSizeOrDefault pageSize ->
         Listing.now that w2 <= expiry ->
         listBooks that pageToken pageSize2 (w2, c') = (Ok result, (w2, c'))) /\
  (forall query pageToken,
     searchBooks this query pageToken (w, c) = (Ok result, (w', c')) ->
     exists expiry,
       Listing.now this w' <= expiry /\
       forall (that : Listing.t W) (w2 : W),
         Listing.now that w2 <= expiry ->
         searchBooks that query pageToken (w2, c') = (Ok result, (w2, c'))).
Proof.
  intros Httl. split.
  - intros pageToken pageSize Hrun.
    destruct (throughCache_leaves_entry _ _ _ _ _ _ _ _ Httl Hrun)
      as (expiry & Hentry & Hfresh).
    exists expiry. split; [exact Hfresh|].
    intros that w2 pageSize2 Hsize Hnow. unfold listBooks.
    apply (throughCache_hit that _ _ w2 c' result expiry); [|exact Hnow].
    unfold listCacheKey in *. rewrite Hsize. exact Hentry.
  - intros query pageToken Hrun.
    destruct (throughCache_leaves_entry _ _ _ _ _ _ _ _ Httl Hrun)
      as (expiry & Hentry & Hfresh).
    exists expiry. split; [exact Hfresh|].
    intros that w2 Hnow. unfold searchBooks.
    apply (throughCache_hit that _ _ w2 c' result expiry); assumption.
Qed.

Lemma startsWith_app (p s : list Z) : JS.startsWith (p ++ s) p = true.
Proof.
  induction p as [|c p IH]; [destruct s; reflexivity|]. cbn.
  rewrite Z.eqb_refl. exact IH.
Qed.

(** X10.  On a cache that holds no list and no search entry, which is how
    every successful [registerBook], [updateBook] and [deleteBook] leaves
    it, [listBooks] and [searchBooks] ask the store: they return what it
    returns, and they cache an answer but not a failure. *)
Theorem listing_asks_the_store_after_a_mutation (this : Listing.t W)
    (w : W) (c : CacheService.t DriveFileList.t) :
  listCacheClean c ->
  (forall pageToken pageSize,
     listBooks this pageToken pageSize (w, c)
     = match Listing.listBooks this pageToken pageSize w with
       | (Ok result, w') =>
           (Ok result,
            (w', CacheService.set (Listing.now this w')
                   (listCacheKey pageToken pageSize) result c))
       | (Throw e, w') => (Throw e, (w', c))
       end) /\
  (forall query pageToken,
     searchBooks this query pageToken (w, c)
     = match Listing.searchBooks this query pageToken w with
       | (Ok result, w') =>
           (Ok result,
            (w', CacheService.set (Listing.now this w')
                   (searchCacheKey query pageToken) result c))
       | (Throw e, w') => (Throw e, (w', c))
       end).
Proof.
  intros Hclean. split.
  - intros pageToken pageSize. apply throughCache_miss, Hclean. left.
    apply startsWith_app.
  - intros query pageToken. apply throughCache_miss, Hclean. right.
    apply startsWith_app.
Qed.

End CachedListingFacts.

Section CachedListingExamples.
Import CachedListing LibraryExamples ListingExamples BookServiceSpec.

Lemma listing_is_repeated_from_the_cache_witness :
  exists result s',
    listBooks countingListing None None (0%nat, CacheService.create 1000)
      = (Ok result, s') /\
    listBooks countingListing None (Some 20%nat) s' = (Ok result, s') /\
    listBooks countingListing None (Some 0%nat) s' = (Ok result, s').
Proof.
  pose (r := listBooks countingListing None None (0%nat, CacheService.create 1000)).
  assert (E : exists result, r = (Ok result, (r.2.1, r.2.2)))
    by (eexists; vm_compute; reflexivity).
  destruct E as [result E]. exists result, r.2. split; [vm_compute; vm_compute in E; exact E|].
  destruct (proj1 (listing_is_repeated_from_the_cache countingListing
              0%nat r.2.1 (CacheService.create 1000) r.2.2 result ltac:(cbn; lia))
              None None E) as (expiry & Hfresh & Hagain).
  split.
  - apply (Hagain countingListing r.2.1 (Some 20%nat)); [reflexivity|exact Hfresh].
  - apply (Hagain countingListing r.2.1 (Some 0%nat)); [reflexivity|exact Hfresh].
Defined.

(** The sample is registered over a warm cache; the listing that follows
    comes from the store and shows the new book. *)
Lemma listing_asks_the_store_after_a_mutation_witness :
  exists file s' result s'',
    BookService.registerBook bookService sampleMetadata [1; 2; 3] EPUB
      (emptyStore, warmCache) = (Ok file, s') /\
    CacheService.cache warmCache !! listCacheKey None None <> None /\
    listBooks onePage None None s' = (Ok result, s'') /\
    DriveFileList.files result = [file].
Proof.
  pose (r := BookService.registerBook bookService sampleMetadata [1; 2; 3] EPUB
               (emptyStore, warmCache)).
  assert (E : exists file, r = (Ok file, (r.2.1, r.2.2)))
    by (eexists; vm_compute; reflexivity).
  destruct E as [file E].
  assert (Hclean : listCacheClean r.2.2).
  { pose proof E as H. unfold r, BookService.registerBook in H.
    apply bind_Ok in H as (myLibraryId & s1 & _ & H).
    apply bind_Ok in H as (authorFolderId & s2 & _ & H).
    apply bind_Ok in H as (file0 & s3 & _ & H).
    exact (ends_with_invalidate bookService _ (fun x => x) _ _ _ H). }
  pose proof (proj1 (listing_asks_the_store_after_a_mutation onePage r.2.1 r.2.2 Hclean)
                None None) as Hlist.
  exists file, (r.2.1, r.2.2). eexists _, _.
  split; [exact E|]. split; [vm_compute; discriminate|].
  split; [rewrite Hlist; reflexivity|].
  revert E. vm_compute. intros [= <-]. reflexivity.
Defined.

End CachedListingExamples.

(** ** The mock store ([drive_mock.ts]) *)

Section JsMapFacts.
Import MockGoogleDriveService.
Context {V : Type}.

Lemma js_eqb_refl (k : list Z) : JS.eqb k k = true.
Proof. apply bool_decide_eq_true_2. reflexivity. Qed.

Lemma map_get_set_eq (k : list Z) (v : V) (m : JsMap V) :
  map_get k (map_set k v m) = Some v.
Proof.
  induction m as [|[k' v'] m IH]; cbn.
  - rewrite js_eqb_refl. reflexivity.
  - destruct (JS.eqb k k') eqn:E; cbn; [rewrite js_eqb_refl; reflexivity|].
    rewrite E. exact IH.
Qed.

Lemma map_get_set_ne (k k0 : list Z) (v : V) (m : JsMap V) :
  k0 <> k -> map_get k0 (map_set k v m) = map_get k0 m.
Proof.
  intros Hne. induction m as [|[k' v'] m IH]; cbn.
  - unfold JS.eqb. rewrite bool_decide_eq_false_2 by exact Hne. reflexivity.
  - destruct (JS.eqb k k') eqn:E; cbn.
    + apply bool_decide_eq_true_1 in E. subst k'.
      unfold JS.eqb. rewrite bool_decide_eq_false_2 by exact Hne. reflexivity.
    + rewrite IH. reflexivity.
Qed.

Lemma map_get_delete_eq (k : list Z) (m : JsMap V) : map_get k (map_delete k m) = None.
Proof.
  unfold map_delete, JsMap in *. induction m as [|[k' v'] m IH]; [reflexivity|].
  rewrite filter_cons. cbn [fst]. case_decide as Hk; [|exact IH].
  cbn. unfold JS.eqb. rewrite bool_decide_eq_false_2 by congruence. exact IH.
Qed.

Lemma map_get_delete_ne (k k0 : list Z) (m : JsMap V) :
  k0 <> k -> map_get k0 (map_delete k m) = map_get k0 m.
Proof.
  intros Hne. unfold map_delete, JsMap in *.
  induction m as [|[k' v'] m IH]; [reflexivity|].
  rewrite filter_cons. cbn [fst]. case_decide as Hk.
  - cbn. rewrite IH. reflexivity.
  - subst k'. cbn. unfold JS.eqb. rewrite bool_decide_eq_false_2 by exact Hne.
    exact IH.
Qed.

Lemma map_values_set_In (k : list Z) (v : V) (m : JsMap V) :
  In v (map_values (map_set k v m)).
Proof.
  unfold map_values. induction m as [|[k' v'] m IH]; cbn; [tauto|].
  destruct (JS.eqb k k'); cbn; tauto.
Qed.

(** A value put into a map in which nothing satisfied [P] is the one
    [find] meets. *)
Lemma find_values_set (P : V -> bool) (k : list Z) (v : V) (m : JsMap V) :
  find P (map_values m) = None -> P v = true ->
  find P (map_values (map_set k v m)) = Some v.
Proof.
  unfold map_values. intros Hnone Hv. induction m as [|[k' v'] m IH]; cbn.
  - rewrite Hv. reflexivity.
  - cbn in Hnone. destruct (P v') eqn:Ev'; [discriminate|].
    destruct (JS.eqb k k'); cbn; [rewrite Hv; reflexivity|].
    rewrite Ev'. apply IH, Hnone.
Qed.

End JsMapFacts.

Ltac mock_step H :=
  cbn [MockGoogleDriveService.files MockGoogleDriveService.nextId
       MockGoogleDriveService.myLibraryFolderId MockGoogleDriveService.shouldFail];
  rewrite ?H;
  cbn [MockGoogleDriveService.files MockGoogleDriveService.nextId
       MockGoogleDriveService.myLibraryFolderId MockGoogleDriveService.shouldFail].

Section MockStore.
Import MockGoogleDriveService.

Abbreviation driveError := (JS.lit "Drive API error").

(** X11.  A file that has been uploaded can be read back: [getFile] gives the
    file [uploadFile] returned, [getFileContent] its content, and the
    folder it was put in lists it.  It carries the sanitised properties
    and the length of its content as its size. *)
Theorem uploadFile_then_read
    (folderId fileName fileContent mimeType : list Z)
    (properties : gmap (list Z) (list Z)) (s s' : t) (f : DriveFile.t) :
  uploadFile folderId fileName fileContent mimeType properties s = (Ok f, s') ->
  getFile (DriveFile.id f) s' = (Ok f, s') /\
  getFileContent (DriveFile.id f) s' = (Ok fileContent, s') /\
  (exists listed, findFilesByParent folderId s' = (Ok listed, s') /\ In f listed) /\
  DriveFile.name f = fileName /\
  DriveFile.mimeType f = mimeType /\
  DriveFile.parents f = [folderId] /\
  DriveFile.properties f = Drive.sanitizeProperties properties /\
  DriveFile.size f = Some (JS.ofNat (length fileContent)).
Proof.
  unfold uploadFile, getFile, getFileContent, findFilesByParent, checkFail,
    generateId, bind, set_files, toDriveFile.
  destruct (shouldFail s) eqn:Hfail; [discriminate|].
  cbn [files nextId myLibraryFolderId shouldFail].
  generalize (JS.lit "file_" ++ JS.ofNat (nextId s)). intros id E.
  injection E as <- <-.
  cbn [files nextId myLibraryFolderId shouldFail DriveFile.id file content].
  rewrite Hfail. cbn [files]. rewrite map_get_set_eq. cbn [file content default].
  repeat split; try reflexivity.
  eexists. split; [reflexivity|].
  apply in_map_iff. eexists. split; [|apply list_elem_of_In, list_elem_of_filter; split;
    [|apply list_elem_of_In, map_values_set_In]]; [reflexivity|].
  cbn. rewrite js_eqb_refl. reflexivity.
Qed.

Lemma uploadFile_then_read_witness :
  exists f s',
    uploadFile (JS.lit "folder") (JS.lit "a.epub") [1; 2; 3] (JS.lit "application/epub+zip")
      ∅ LibraryExamples.emptyStore = (Ok f, s') /\
    getFileContent (DriveFile.id f) s' = (Ok [1; 2; 3], s').
Proof.
  pose (r := uploadFile (JS.lit "folder") (JS.lit "a.epub") [1; 2; 3]
               (JS.lit "application/epub+zip") ∅ LibraryExamples.emptyStore).
  exists (match r.1 with Ok f => f | Throw _ =>
            DriveFile.Build [] [] [] ∅ [] None None None end), r.2.
  assert (E : r = (Ok (match r.1 with Ok f => f | Throw _ =>
            DriveFile.Build [] [] [] ∅ [] None None None end), r.2))
    by (vm_compute; reflexivity).
  split; [exact E|].
  exact (proj1 (proj2 (uploadFile_then_read _ _ _ _ _ _ _ _ E))).
Defined.

(** X12.  A deleted file is gone: reading it, reading its content and deleting
    it again throw "File not found", and every other file reads as
    before. *)
Theorem deleteFile_then_read (fileId : list Z) (s s' : t) :
  deleteFile fileId s = (Ok tt, s') ->
  getFile fileId s' = (Throw (JS.lit "File not found: " ++ fileId), s') /\
  getFileContent fileId s' = (Throw (JS.lit "File not found: " ++ fileId), s') /\
  deleteFile fileId s' = (Throw (JS.lit "File not found: " ++ fileId), s') /\
  forall other, other <> fileId ->
    (getFile other s').1 = (getFile other s).1 /\
    (getFileContent other s').1 = (getFileContent other s).1.
Proof.
  unfold deleteFile, getFile, getFileContent, checkFail, bind, set_files, notFound, throw.
  destruct (shouldFail s) eqn:Hfail; [discriminate|].
  destruct (map_get fileId (files s)) as [f|] eqn:Hf; [|discriminate].
  intros [= <-]. cbn [files nextId myLibraryFolderId shouldFail].
  rewrite Hfail. cbn [files]. rewrite map_get_delete_eq.
  repeat split; try reflexivity.
  - rewrite (map_get_delete_ne fileId other) by assumption.
    destruct (map_get other (files s)); reflexivity.
  - rewrite (map_get_delete_ne fileId other) by assumption.
    destruct (map_get other (files s)); reflexivity.
Qed.

Lemma deleteFile_then_read_witness :
  exists s',
    deleteFile LibraryExamples.sampleId LibraryExamples.registered.1 = (Ok tt, s') /\
    getFile LibraryExamples.sampleId s'
    = (Throw (JS.lit "File not found: file_3"), s').
Proof.
  pose (r := deleteFile LibraryExamples.sampleId LibraryExamples.registered.1).
  assert (E : r = (Ok tt, r.2)) by (vm_compute; reflexivity).
  exists r.2. split; [exact E|].
  exact (proj1 (deleteFile_then_read _ _ _ E)).
Defined.

(** X13.  Asking for the library folder twice is asking once: the second call
    returns the same id and leaves the store as the first one left
    it. *)
Theorem ensureMyLibraryFolder_idempotent (s s' : t) (id : list Z) :
  ensureMyLibraryFolder s = (Ok id, s') ->
  ensureMyLibraryFolder s' = (Ok id, s').
Proof.
  unfold ensureMyLibraryFolder, checkFail, generateId, bind.
  destruct (shouldFail s) eqn:Hfail; [discriminate|].
  destruct (JS.truthy (myLibraryFolderId s)) eqn:Hknown.
  - intros [= <- <-]. rewrite Hfail, Hknown. reflexivity.
  - set (P := isFolderNamed (JS.lit "MyLibrary")).
    destruct (find P (map_values (files s))) as [f|] eqn:Hfind.
    + intros E. injection E as <- <-. mock_step Hfail.
      destruct (JS.truthy (DriveFile.id (file f))); [reflexivity|].
      rewrite Hfind. reflexivity.
    + cbn [files nextId myLibraryFolderId shouldFail].
      intros E. injection E as <- <-. mock_step Hfail. reflexivity.
Qed.

(** X14.  Asking for an author folder twice is asking once: after
    [ensureAuthorFolder] has returned, the same request returns the same
    folder and creates nothing. *)
Theorem ensureAuthorFolder_idempotent
    (myLibraryId authorName : list Z) (s s' : t) (id : list Z) :
  ensureAuthorFolder myLibraryId authorName s = (Ok id, s') ->
  ensureAuthorFolder myLibraryId authorName s' = (Ok id, s').
Proof.
  unfold ensureAuthorFolder, checkFail, generateId, bind, set_files.
  destruct (shouldFail s) eqn:Hfail; [discriminate|].
  set (P := fun f => isFolderNamed authorName f &&
                     includes (DriveFile.parents (file f)) myLibraryId).
  destruct (find P (map_values (files s))) as [f|] eqn:Hfind.
  - intros [= <- <-]. rewrite Hfail, Hfind. reflexivity.
  - cbn [files nextId myLibraryFolderId shouldFail].
    generalize (JS.lit "file_" ++ JS.ofNat (nextId s)). intros fresh E.
    injection E as <- <-. mock_step Hfail.
    rewrite (find_values_set P fresh _ _ Hfind); [reflexivity|].
    unfold P, isFolderNamed, newFolder, includes. cbn.
    rewrite !js_eqb_refl. reflexivity.
Qed.

Lemma ensureMyLibraryFolder_idempotent_witness :
  exists s1,
    ensureMyLibraryFolder LibraryExamples.emptyStore = (Ok (JS.lit "file_1"), s1) /\
    ensureMyLibraryFolder s1 = (Ok (JS.lit "file_1"), s1).
Proof.
  pose (r := ensureMyLibraryFolder LibraryExamples.emptyStore).
  assert (E : r = (Ok (JS.lit "file_1"), r.2)) by (vm_compute; reflexivity).
  exists r.2. split; [exact E|].
  exact (ensureMyLibraryFolder_idempotent _ _ _ E).
Defined.

Lemma ensureAuthorFolder_idempotent_witness :
  exists s1,
    ensureAuthorFolder (JS.lit "lib") (JS.lit "Dazai") LibraryExamples.emptyStore
      = (Ok (JS.lit "file_1"), s1) /\
    ensureAuthorFolder (JS.lit "lib") (JS.lit "Dazai") s1 = (Ok (JS.lit "file_1"), s1).
Proof.
  pose (r := ensureAuthorFolder (JS.lit "lib") (JS.lit "Dazai")
               LibraryExamples.emptyStore).
  assert (E : r = (Ok (JS.lit "file_1"), r.2)) by (vm_compute; reflexivity).
  exists r.2. split; [exact E|].
  exact (ensureAuthorFolder_idempotent _ _ _ _ _ E).
Defined.

(** X15.  With [shouldFail] set, every operation throws "Drive API error" and
    leaves the store as it is. *)
Theorem failing_store_changes_nothing (s : t) :
  shouldFail s = true ->
  ensureMyLibraryFolder s = (Throw driveError, s) /\
  (forall a b, ensureAuthorFolder a b s = (Throw driveError, s)) /\
  (forall a b c d p, uploadFile a b c d p s = (Throw driveError, s)) /\
  (forall a b c d, uploadCoverImage a b c d s = (Throw driveError, s)) /\
  (forall a p, updateFileProperties a p s = (Throw driveError, s)) /\
  (forall a b, renameFile a b s = (Throw driveError, s)) /\
  (forall a b c, moveFile a b c s = (Throw driveError, s)) /\
  (forall a, getFile a s = (Throw driveError, s)) /\
  (forall a, getFileContent a s = (Throw driveError, s)) /\
  (forall a, deleteFile a s = (Throw driveError, s)) /\
  (forall a, findBookByIsbn a s = (Throw driveError, s)) /\
  (forall a, findFilesByParent a s = (Throw driveError, s)).
Proof.
  intros Hfail.
  unfold ensureMyLibraryFolder, ensureAuthorFolder, uploadFile, uploadCoverImage,
    updateFileProperties, renameFile, moveFile, updateStored, getFile, getFileContent,
    deleteFile, findBookByIsbn, findFilesByParent, checkFail, bind, driveError.
  rewrite Hfail. repeat split.
Qed.

Lemma failing_store_changes_nothing_witness :
  let s := Build [] 1 [] true in
  getFile (JS.lit "file_1") s = (Throw driveError, s).
Proof.
  intros s.
  exact (proj1 (proj2 (proj2 (proj2 (proj2 (proj2 (proj2 (proj2
           (failing_store_changes_nothing s eq_refl)))))))) (JS.lit "file_1")).
Defined.

End MockStore.

(** ** [BookService]: what failures do *)

Section CacheFrame.
Context {W : Type}.

Abbreviation St := (BookService.State W).

(** Computations that leave the cache as it is. *)
Lemma frame_liftL {A : Type} (m : M W A) (s : St) : (liftL m s).2.2 = s.2.
Proof. unfold liftL. destruct (m s.1). reflexivity. Qed.

Lemma frame_ret {A : Type} (a : A) (s : St) : (ret a s).2.2 = s.2.
Proof. reflexivity. Qed.

Lemma frame_bind {A B : Type} (m : M St A) (f : A -> M St B) :
  (forall s, (m s).2.2 = s.2) -> (forall a s, (f a s).2.2 = s.2) ->
  forall s, (bind m f s).2.2 = s.2.
Proof.
  intros Hm Hf s. unfold bind. specialize (Hm s).
  destruct (m s) as [[a|e] s1]; [rewrite Hf|]; exact Hm.
Qed.

Lemma frame_try_catch {A : Type} (m : M St A) (h : list Z -> M St A) :
  (forall s, (m s).2.2 = s.2) -> (forall e s, (h e s).2.2 = s.2) ->
  forall s, (try_catch m h s).2.2 = s.2.
Proof.
  intros Hm Hh s. unfold try_catch. specialize (Hm s).
  destruct (m s) as [[a|e] s1]; [|rewrite Hh]; exact Hm.
Qed.

(** What throws after a part that leaves the cache as it is. *)
Lemma throw_frame_bind {A B : Type} (m : M St A) (f : A -> M St B) :
  (forall s, (m s).2.2 = s.2) ->
  (forall a s e s', f a s = (Throw e, s') -> s'.2 = s.2) ->
  forall s e s', bind m f s = (Throw e, s') -> s'.2 = s.2.
Proof.
  intros Hm Hf s e s'. unfold bind. specialize (Hm s).
  destruct (m s) as [[a|e0] s1].
  - intros H. rewrite (Hf a s1 e s' H). exact Hm.
  - intros [= <- <-]. exact Hm.
Qed.

(** [invalidateListCache] does not throw. *)
Lemma invalidate_returns (this : BookService.t W) (s : St) :
  exists c, BookService.invalidateListCache s = (Ok tt, (s.1, c)).
Proof. eexists. reflexivity. Qed.

End CacheFrame.

Ltac frame :=
  repeat first
    [ apply frame_liftL | apply frame_ret
    | apply frame_bind; [intros ?|intros ? ?]
    | apply frame_try_catch; [intros ?|intros ? ?]
    | match goal with
      | |- context [if ?b then _ else _] => destruct b
      | |- context [match ?o with Some _ => _ | None => _ end] => destruct o
      end ].

(** A throw is traced back through the parts that leave the cache as it
    is; what remains is the last step. *)
Ltac throw_frame H :=
  lazymatch type of H with
  | bind BookService.invalidateListCache _ _ = _ => idtac
  | bind _ _ ?s = (Throw ?e, ?s') =>
      refine (throw_frame_bind _ _ _ _ s e s' H);
      [ intros ?; frame
      | clear H;
        let a := fresh "a" in let s0 := fresh "s0" in
        let e0 := fresh "e0" in let s0' := fresh "s0'" in
        intros a s0 e0 s0' H; throw_frame H ]
  | _ => idtac
  end.

Section FailedMutations.
Context {W : Type} (this : BookService.t W).

(** X16.  When [registerBook], [updateBook] or [deleteBook] throws, the cache
    is as it was before the call, whatever has been done to the store by
    then: the list and search entries are invalidated by the last step
    only. *)
Theorem failed_mutation_keeps_the_cache (s s' : BookService.State W) (e : list Z) :
  (forall metadata fileContent fileMimeType,
     BookService.registerBook this metadata fileContent fileMimeType s = (Throw e, s') ->
     s'.2 = s.2) /\
  (forall fileId metadata,
     BookService.updateBook this fileId metadata s = (Throw e, s') -> s'.2 = s.2) /\
  (forall fileId,
     BookService.deleteBook this fileId s = (Throw e, s') -> s'.2 = s.2).
Proof.
  split; [|split].
  - intros metadata fileContent fileMimeType H.
    unfold BookService.registerBook in H. throw_frame H.
    match type of H with
    | bind _ _ ?x = _ =>
        destruct (invalidate_returns this x) as [c E];
        rewrite (bind_run _ _ _ _ _ E) in H; discriminate H
    end.
  - intros fileId metadata H.
    unfold BookService.updateBook in H. throw_frame H.
    match type of H with
    | bind _ _ ?x = _ =>
        destruct (invalidate_returns this x) as [c E];
        rewrite (bind_run _ _ _ _ _ E) in H; discriminate H
    end.
  - intros fileId H.
    unfold BookService.deleteBook in H. throw_frame H.
    discriminate H.
Qed.

End FailedMutations.

(** The title of the registered sample is changed on a store whose
    [renameFile] throws: the call throws after the properties have been
    written, and the cache still holds the listing. *)
Lemma failed_mutation_keeps_the_cache_witness :
  exists s',
    BookService.updateBook FailingStores.bookService LibraryExamples.sampleId
      (LibraryExamples.onlyTitle (JS.lit "T")) LibraryExamples.registered
    = (Throw (JS.lit "rename failed"), s') /\
    s'.2 = LibraryExamples.registered.2 /\
    CacheService.cache s'.2 !! JS.lit "books:list::20" <> None /\
    exists f,
      MockGoogleDriveService.getFile LibraryExamples.sampleId s'.1 = (Ok f, s'.1) /\
      DriveFile.properties f !! Key.title = Some (JS.lit "T").
Proof.
  pose (r := BookService.updateBook FailingStores.bookService LibraryExamples.sampleId
               (LibraryExamples.onlyTitle (JS.lit "T")) LibraryExamples.registered).
  assert (E : r = (Throw (JS.lit "rename failed"), r.2)) by (vm_compute; reflexivity).
  exists r.2. split; [exact E|].
  pose proof (proj1 (proj2 (failed_mutation_keeps_the_cache FailingStores.bookService
                LibraryExamples.registered r.2 (JS.lit "rename failed")))
                LibraryExamples.sampleId (LibraryExamples.onlyTitle (JS.lit "T")) E)
    as Hcache.
  split; [exact Hcache|]. split; [rewrite Hcache; vm_compute; discriminate|].
  eexists. split; vm_compute; reflexivity.
Defined.

Section RegisterAndDelete.
Context {W : Type} (this : BookService.t W).

Abbreviation drive := (BookService.driveService this).

Lemma liftL_run {A : Type} (m : M W A) (w w1 : W) (a : A)
    (c : CacheService.t DriveFileList.t) :
  m w = (Ok a, w1) -> liftL m (w, c) = (Ok a, (w1, c)).
Proof. unfold liftL. cbn. intros ->. reflexivity. Qed.

(** X18.  [deleteBook], call by call: when the file cannot be read, nothing
    else is asked of the store; otherwise the cover image, if the file
    names one, is deleted first and a failure to delete it is ignored;
    then the file is deleted, and only when that succeeds are the list
    and search entries of the cache invalidated. *)
Theorem deleteBook_call_by_call (fileId : list Z) (w : W) (log : list Spy.Call)
    (c : CacheService.t DriveFileList.t) :
  (forall e w1,
     GoogleDriveService.getFile drive fileId w = (Throw e, w1) ->
     BookService.deleteBook (Spy.bookService this) fileId ((w, log), c)
     = (Throw e, ((w1, log ++ [Spy.GetFile fileId]), c))) /\
  (forall file w1,
     GoogleDriveService.getFile drive fileId w = (Ok file, w1) ->
     let cover :=
       match DriveFile.properties file !! Key.cover_file_id with
       | Some coverId => if JS.truthy coverId then Some coverId else None
       | None => None
       end in
     let w2 :=
       match cover with
       | Some coverId => (GoogleDriveService.deleteFile drive coverId w1).2
       | None => w1
       end in
     let calls :=
       [Spy.GetFile fileId] ++
       match cover with Some coverId => [Spy.DeleteFile coverId] | None => [] end ++
       [Spy.DeleteFile fileId] in
     BookService.deleteBook (Spy.bookService this) fileId ((w, log), c)
     = match GoogleDriveService.deleteFile drive fileId w2 with
       | (Ok _, w3) =>
           (Ok tt,
            ((w3, log ++ calls),
             CacheService.invalidateByPrefix BookService.CACHE_KEY_SEARCH_PREFIX
               (CacheService.invalidateByPrefix BookService.CACHE_KEY_LIST c)))
       | (Throw e, w3) => (Throw e, ((w3, log ++ calls), c))
       end).
Proof.
  split.
  - intros e w1 Hget. unfold BookService.deleteBook.
    cbn [BookService.driveService Spy.bookService Spy.drive GoogleDriveService.getFile].
    rewrite (bind_throw _ _ ((w, log), c) ((w1, log ++ [Spy.GetFile fileId]), c) e);
      [reflexivity|].
    rewrite spy_call, Hget. reflexivity.
  - intros file w1 Hget cover w2 calls. unfold BookService.deleteBook.
    cbn [BookService.driveService Spy.bookService Spy.drive GoogleDriveService.getFile
         GoogleDriveService.deleteFile].
    rewrite (bind_run _ _ ((w, log), c) ((w1, log ++ [Spy.GetFile fileId]), c) file)
      by (rewrite spy_call, Hget; reflexivity).
    subst calls w2 cover.
    destruct (DriveFile.properties file !! Key.cover_file_id) as [coverId|];
      [destruct (JS.truthy coverId)|].
    + unfold bind at 1, try_catch. rewrite spy_call.
      destruct (GoogleDriveService.deleteFile drive coverId w1) as [[u|e] w2];
        cbn [fst snd ret]; unfold bind at 1; rewrite spy_call;
        destruct (GoogleDriveService.deleteFile drive fileId w2) as [[u'|e'] w3];
        cbn [fst snd]; rewrite <- ?app_assoc; try reflexivity;
        destruct u'; reflexivity.
    + unfold bind at 1, ret at 1. unfold bind at 1. rewrite spy_call.
      destruct (GoogleDriveService.deleteFile drive fileId w1) as [[u'|e'] w3];
        cbn [fst snd]; rewrite <- ?app_assoc; try reflexivity;
        destruct u'; reflexivity.
    + unfold bind at 1, ret at 1. unfold bind at 1. rewrite spy_call.
      destruct (GoogleDriveService.deleteFile drive fileId w1) as [[u'|e'] w3];
        cbn [fst snd]; rewrite <- ?app_assoc; try reflexivity;
        destruct u'; reflexivity.
Qed.

End RegisterAndDelete.

Lemma mock_uploadFile_returns (s : MockGoogleDriveService.t)
    (folderId fileName fileContent mimeType : list Z)
    (properties : gmap (list Z) (list Z)) :
  MockGoogleDriveService.shouldFail s = false ->
  exists uploaded s',
    MockGoogleDriveService.uploadFile folderId fileName fileContent mimeType
      properties s = (Ok uploaded, s').
Proof.
  intros Hfail.
  unfold MockGoogleDriveService.uploadFile, MockGoogleDriveService.checkFail,
    MockGoogleDriveService.generateId, bind.
  rewrite Hfail. eexists _, _. reflexivity.
Qed.

(** The registered sample has no cover: it is read, then deleted. *)
Lemma deleteBook_call_by_call_witness :
  exists s',
    BookService.deleteBook (Spy.bookService LibraryExamples.bookService)
      LibraryExamples.sampleId
      ((LibraryExamples.registered.1, []), LibraryExamples.registered.2)
    = (Ok tt, s') /\
    s'.1.2 = [Spy.GetFile LibraryExamples.sampleId;
              Spy.DeleteFile LibraryExamples.sampleId].
Proof.
  pose (g := MockGoogleDriveService.getFile LibraryExamples.sampleId
               LibraryExamples.registered.1).
  assert (G : exists file, g = (Ok file, g.2)) by (eexists; vm_compute; reflexivity).
  destruct G as [file G].
  pose proof (proj2 (deleteBook_call_by_call LibraryExamples.bookService
                LibraryExamples.sampleId LibraryExamples.registered.1 []
                LibraryExamples.registered.2) file g.2 G) as H.
  eexists. split; [rewrite H; revert G; vm_compute; intros [= <-]; reflexivity|].
  reflexivity.
Defined.

(** ** [BookService] on the mock store: register, find, delete *)

Section JsMapFind.
Import MockGoogleDriveService.
Context {V : Type}.

Lemma find_values_set_None (P : V -> bool) (k : list Z) (v : V) (m : JsMap V) :
  find P (map_values m) = None -> P v = false ->
  find P (map_values (map_set k v m)) = None.
Proof.
  unfold map_values. intros Hnone Hv. induction m as [|[k' v'] m IH]; cbn.
  - rewrite Hv. reflexivity.
  - cbn in Hnone. destruct (P v') eqn:Ev'; [discriminate|].
    destruct (JS.eqb k k'); cbn; [rewrite Hv; exact Hnone|].
    rewrite Ev'. apply IH, Hnone.
Qed.

Lemma find_values_set_Some (P : V -> bool) (k : list Z) (v : V) (m : JsMap V) :
  P v = true ->
  exists v', find P (map_values (map_set k v m)) = Some v' /\ P v' = true.
Proof.
  intros Hv.
  destruct (find P (map_values (map_set k v m))) as [v'|] eqn:E.
  - exists v'. split; [reflexivity|]. apply find_some in E. tauto.
  - exfalso. pose proof (find_none _ _ E v (map_values_set_In k v m)) as Hf.
    congruence.
Qed.

Lemma map_get_delete_None (k k' : list Z) (m : JsMap V) :
  map_get k m = None -> map_get k (map_delete k' m) = None.
Proof.
  intros H. destruct (decide (k = k')) as [->|Hne].
  - apply map_get_delete_eq.
  - rewrite map_get_delete_ne by exact Hne. exact H.
Qed.

End JsMapFind.

Section MockBookService.
Import MockGoogleDriveService.
Context (metadataService : BookMetadataService.t MockGoogleDriveService.t).

Lemma liftL_Ok {W A : Type} (m : M W A) (w : W) (c : CacheService.t DriveFileList.t)
    (a : A) (s1 : BookService.State W) :
  liftL m (w, c) = (Ok a, s1) -> exists w1, m w = (Ok a, w1) /\ s1 = (w1, c).
Proof.
  unfold liftL. cbn. destruct (m w) as [r w1]. intros [= -> <-].
  exists w1. split; reflexivity.
Qed.

(** What the folder operations do to a search among the stored files
    for something a folder is not. *)
Lemma ensureMyLibraryFolder_keeps (P : StoredFile -> bool) (w w' : t) (id : list Z) :
  (forall fid name parents, P (newFolder fid name parents) = false) ->
  ensureMyLibraryFolder w = (Ok id, w') ->
  shouldFail w' = false /\
  (find P (map_values (files w)) = None -> find P (map_values (files w')) = None).
Proof.
  intros HP. unfold ensureMyLibraryFolder, checkFail, generateId, bind.
  destruct (shouldFail w) eqn:Hfail; [discriminate|].
  destruct (JS.truthy (myLibraryFolderId w)).
  - intros [= <- <-]. tauto.
  - destruct (find _ (map_values (files w))) as [f|].
    + intros E. injection E as <- <-. cbn. tauto.
    + cbn [files nextId myLibraryFolderId shouldFail].
      intros E. injection E as <- <-. cbn [files shouldFail]. split; [exact Hfail|].
      intros Hnone. apply find_values_set_None; [exact Hnone|apply HP].
Qed.

Lemma ensureAuthorFolder_keeps (P : StoredFile -> bool) (lib name : list Z)
    (w w' : t) (id : list Z) :
  (forall fid name parents, P (newFolder fid name parents) = false) ->
  ensureAuthorFolder lib name w = (Ok id, w') ->
  shouldFail w' = false /\
  (find P (map_values (files w)) = None -> find P (map_values (files w')) = None).
Proof.
  intros HP. unfold ensureAuthorFolder, checkFail, generateId, bind, set_files.
  destruct (shouldFail w) eqn:Hfail; [discriminate|].
  destruct (find _ (map_values (files w))) as [f|].
  - intros [= <- <-]. tauto.
  - cbn [files nextId myLibraryFolderId shouldFail].
    intros E. injection E as <- <-. cbn [files shouldFail]. split; [exact Hfail|].
    intros Hnone. apply find_values_set_None; [exact Hnone|apply HP].
Qed.

Lemma uploadFile_stores (folderId fileName fileContent mimeType : list Z)
    (properties : gmap (list Z) (list Z)) (w w' : t) (f : DriveFile.t) :
  uploadFile folderId fileName fileContent mimeType properties w = (Ok f, w') ->
  shouldFail w' = false /\
  DriveFile.properties f = Drive.sanitizeProperties properties /\
  exists id, files w' = map_set id (Stored f (Some fileContent)) (files w).
Proof.
  unfold uploadFile, checkFail, generateId, bind, set_files, toDriveFile.
  destruct (shouldFail w) eqn:Hfail; [discriminate|].
  cbn [files nextId myLibraryFolderId shouldFail file].
  generalize (JS.lit "file_" ++ JS.ofNat (nextId w)). intros id E.
  injection E as <- <-. cbn [files shouldFail DriveFile.properties].
  split; [exact Hfail|]. split; [reflexivity|]. exists id. reflexivity.
Qed.

Lemma truncate_fits (str : list Z) (maxBytes : nat) :
  (length (Utf8.encode str) <= maxBytes)%nat ->
  Drive.truncateToBytes str maxBytes = str.
Proof.
  intros H. unfold Drive.truncateToBytes.
  destruct (Nat.leb_spec (length (Utf8.encode str)) maxBytes); [reflexivity|lia].
Qed.

Lemma try_catch_Ok {S A : Type} (m : M S A) (h : list Z -> M S A) (s s1 : S) (a : A) :
  m s = (Ok a, s1) -> try_catch m h s = (Ok a, s1).
Proof. unfold try_catch. intros ->. reflexivity. Qed.

Lemma fetchCoverImage_noNetwork (url : list Z)
    (s : BookService.State MockGoogleDriveService.t) :
  BookService.fetchCoverImage
    (BookService.Build MockGoogleDriveService.service metadataService
       LibraryExamples.noNetwork) url s = (Ok None, s).
Proof. destruct s as [w c]. reflexivity. Qed.

Abbreviation bookService :=
  (BookService.Build MockGoogleDriveService.service metadataService
     LibraryExamples.noNetwork).

(** X19.  A registered book is found by its isbn, when the isbn takes at most
    120 bytes (with its key, the 124 a property may take): after
    [registerBook] has returned, [findBookByIsbn] gives a book with that
    isbn, and gives the registered file itself when no book had the isbn
    before.  Here the store is the mock and there is no network. *)
Theorem registered_book_is_found_by_isbn
    (metadata : BookMetadata.t) (fileContent fileMimeType : list Z)
    (s s' : BookService.State MockGoogleDriveService.t) (file : DriveFile.t) :
  BookService.registerBook bookService metadata fileContent fileMimeType s
    = (Ok file, s') ->
  (length (Utf8.encode (BookMetadata.isbn metadata)) <= 120)%nat ->
  exists found,
    BookService.findBookByIsbn bookService (BookMetadata.isbn metadata) s'
      = (Ok (Some found), s') /\
    DriveFile.properties found !! Key.isbn = Some (BookMetadata.isbn metadata) /\
    DriveFile.properties found !! Key.app_type = Some APP_TYPE_VALUE /\
    (BookService.findBookByIsbn bookService (BookMetadata.isbn metadata) s
       = (Ok None, s) ->
     found = file).
Proof.
  intros Hrun Hisbn. destruct s as [w0 c0].
  unfold BookService.registerBook in Hrun.
  cbn [BookService.driveService GoogleDriveService.ensureMyLibraryFolder
       GoogleDriveService.ensureAuthorFolder GoogleDriveService.uploadFile service]
    in Hrun.
  apply bind_Ok in Hrun as (lib & s1 & H1 & Hrun).
  apply liftL_Ok in H1 as (w1 & H1 & ->).
  apply bind_Ok in Hrun as (folder & s2 & H2 & Hrun).
  apply liftL_Ok in H2 as (w2 & H2 & ->).
  apply bind_Ok in Hrun as (file0 & s3 & H3 & Hrun).
  apply liftL_Ok in H3 as (w3 & H3 & ->).
  assert (Hcover : s' = (w3, CacheService.invalidateByPrefix
                                BookService.CACHE_KEY_SEARCH_PREFIX
                                (CacheService.invalidateByPrefix
                                   BookService.CACHE_KEY_LIST c0)) /\ file = file0).
  { revert Hrun. destruct (JS.truthy (BookMetadata.coverImageUrl metadata)).
    - rewrite (bind_run _ _ (w3, c0) (w3, c0) file0).
      + intros [= <- <-]. split; reflexivity.
      + apply try_catch_Ok.
        rewrite (bind_run _ _ _ _ _ (fetchCoverImage_noNetwork _ (w3, c0))).
        reflexivity.
    - intros [= <- <-]. split; reflexivity. }
  destruct Hcover as [-> ->]. clear Hrun.
  set (P := isBookWithIsbn (BookMetadata.isbn metadata)).
  assert (HP : forall fid name parents, P (newFolder fid name parents) = false)
    by reflexivity.
  destruct (ensureMyLibraryFolder_keeps P _ _ _ HP H1) as [_ K1].
  destruct (ensureAuthorFolder_keeps P _ _ _ _ _ HP H2) as [_ K2].
  apply uploadFile_stores in H3 as (Hfail & Hprops & id & Hfiles).
  assert (Hbook : P (Stored file0 (Some fileContent)) = true).
  { unfold P, isBookWithIsbn. cbn [file]. rewrite Hprops.
    rewrite !sanitizeProperties_lookup.
    apply andb_true_intro. split; apply bool_decide_eq_true_2.
    - destruct (JS.truthy (BookMetadata.description metadata));
        rewrite ?(lookup_insert_ne _ Key.description) by discriminate;
        rewrite (lookup_insert_ne _ Key.published_date) by discriminate;
        rewrite (lookup_insert_ne _ Key.publisher) by discriminate;
        rewrite (lookup_insert_ne _ Key.authors) by discriminate;
        rewrite (lookup_insert_ne _ Key.title) by discriminate;
        rewrite (lookup_insert_ne _ Key.isbn) by discriminate;
        rewrite lookup_insert_eq; vm_compute; reflexivity.
    - assert (Hmax : Drive.maxValueBytes Key.isbn = 120%nat)
        by (vm_compute; reflexivity).
      destruct (JS.truthy (BookMetadata.description metadata));
        rewrite ?(lookup_insert_ne _ Key.description) by discriminate;
        rewrite (lookup_insert_ne _ Key.published_date) by discriminate;
        rewrite (lookup_insert_ne _ Key.publisher) by discriminate;
        rewrite (lookup_insert_ne _ Key.authors) by discriminate;
        rewrite (lookup_insert_ne _ Key.title) by discriminate;
        rewrite lookup_insert_eq; cbn [fmap option_fmap option_map]; f_equal;
        (replace (JS.or (BookMetadata.isbn metadata) [])
           with (BookMetadata.isbn metadata)
           by (destruct (BookMetadata.isbn metadata); reflexivity));
        apply truncate_fits; rewrite Hmax; exact Hisbn. }
  destruct (find_values_set_Some P id _ (files w2) Hbook) as (found & Hfind & Hfound).
  rewrite <- Hfiles in Hfind.
  exists (toDriveFile found).
  unfold BookService.findBookByIsbn.
  cbn [BookService.driveService GoogleDriveService.findBookByIsbn service].
  unfold liftL, findBookByIsbn, checkFail, bind. cbn [fst snd].
  rewrite Hfail. fold P. rewrite Hfind. cbn [fmap option_fmap option_map].
  split; [reflexivity|].
  unfold P, isBookWithIsbn in Hfound. apply andb_prop in Hfound as [Ha Hi].
  apply bool_decide_eq_true_1 in Ha, Hi.
  split; [exact Hi|]. split; [exact Ha|].
  destruct (shouldFail w0) eqn:Hfail0; [discriminate|]. fold P.
  destruct (find P (map_values (files w0))) as [g|] eqn:Hnone; [discriminate|].
  intros _. specialize (K2 (K1 eq_refl)).
  rewrite Hfiles, (find_values_set P id _ _ K2 Hbook) in Hfind.
  injection Hfind as <-. reflexivity.
Qed.

End MockBookService.

(** The sample registered in the empty store is found by its isbn. *)
Lemma registered_book_is_found_by_isbn_witness :
  exists file s',
    BookService.registerBook LibraryExamples.bookService LibraryExamples.sampleMetadata
      [1; 2; 3] LibraryExamples.EPUB
      (LibraryExamples.emptyStore, LibraryExamples.warmCache) = (Ok file, s') /\
    BookService.findBookByIsbn LibraryExamples.bookService (JS.lit "9784101010014") s'
    = (Ok (Some file), s').
Proof.
  pose (r := BookService.registerBook LibraryExamples.bookService
               LibraryExamples.sampleMetadata [1; 2; 3] LibraryExamples.EPUB
               (LibraryExamples.emptyStore, LibraryExamples.warmCache)).
  assert (E : exists file, r = (Ok file, r.2)) by (eexists; vm_compute; reflexivity).
  destruct E as [file E]. exists file, r.2. split; [exact E|].
  destruct (registered_book_is_found_by_isbn (constantService None)
              LibraryExamples.sampleMetadata [1; 2; 3] LibraryExamples.EPUB
              (LibraryExamples.emptyStore, LibraryExamples.warmCache) r.2 file E)
    as (found & Hfind & _ & _ & Hsame).
  - vm_compute. lia.
  - rewrite <- (Hsame eq_refl). exact Hfind.
Defined.

Section MockDelete.
Import MockGoogleDriveService.
Context (this : BookService.t MockGoogleDriveService.t).
Hypothesis mock : BookService.driveService this = MockGoogleDriveService.service.

Lemma deleteFile_absent (coverId : list Z) (w : t) :
  shouldFail w = false ->
  shouldFail (deleteFile coverId w).2 = false /\
  map_get coverId (files (deleteFile coverId w).2) = None /\
  forall k, map_get k (files w) = None ->
            map_get k (files (deleteFile coverId w).2) = None.
Proof.
  intros Hfail. unfold deleteFile, checkFail, bind, set_files, notFound, throw.
  rewrite Hfail.
  destruct (map_get coverId (files w)) as [f|] eqn:E; cbn [snd files shouldFail].
  - split; [exact Hfail|]. split; [apply map_get_delete_eq|].
    intros k. apply map_get_delete_None.
  - tauto.
Qed.

(** X20.  After [deleteBook] has returned, on the mock store, the book is
    gone and so is the cover image its properties named: reading either
    throws "File not found". *)
Theorem deleteBook_removes_book_and_cover
    (fileId : list Z) (w w' : MockGoogleDriveService.t)
    (c c' : CacheService.t DriveFileList.t) :
  BookService.deleteBook this fileId (w, c) = (Ok tt, (w', c')) ->
  BookService.getBook this fileId (w', c')
    = (Throw (JS.lit "File not found: " ++ fileId), (w', c')) /\
  forall file coverId,
    getFile fileId w = (Ok file, w) ->
    DriveFile.properties file !! Key.cover_file_id = Some coverId ->
    coverId <> [] ->
    BookService.getCoverImageContent this coverId (w', c')
    = (Throw (JS.lit "File not found: " ++ coverId), (w', c')).
Proof using mock.
  unfold BookService.deleteBook, BookService.getBook, BookService.getCoverImageContent.
  rewrite mock.
  cbn [GoogleDriveService.getFile GoogleDriveService.deleteFile
       GoogleDriveService.getFileContent service].
  intros Hrun.
  apply bind_Ok in Hrun as (file & s1 & H1 & Hrun).
  apply liftL_Ok in H1 as (w1 & H1 & ->).
  assert (Hget : shouldFail w = false /\ w1 = w /\ getFile fileId w = (Ok file, w)).
  { revert H1. unfold getFile, checkFail, bind, notFound, throw.
    destruct (shouldFail w); [discriminate|].
    destruct (map_get fileId (files w)); [|discriminate].
    intros [= <- <-]. repeat split. }
  destruct Hget as (Hfail & -> & Hget). clear H1.
  apply bind_Ok in Hrun as (u & s2 & H2 & Hrun).
  assert (Hcover : exists w2, s2 = (w2, c) /\ shouldFail w2 = false /\
    forall coverId,
      DriveFile.properties file !! Key.cover_file_id = Some coverId ->
      coverId <> [] -> map_get coverId (files w2) = None).
  { revert H2.
    destruct (DriveFile.properties file !! Key.cover_file_id) as [coverId|];
      [destruct (JS.truthy coverId) eqn:Ht|].
    - unfold try_catch, liftL. cbn [fst snd].
      destruct (deleteFile_absent coverId w Hfail) as (Hf & Habs & _).
      destruct (deleteFile coverId w) as [[u'|e] w2]; cbn [snd] in *;
        intros [= _ <-]; exists w2; (split; [reflexivity|]); (split; [exact Hf|]);
        intros k [= <-] _; exact Habs.
    - intros [= _ <-]. exists w. split; [reflexivity|]. split; [exact Hfail|].
      intros k [= <-] Hne. destruct coverId; [contradiction|discriminate].
    - intros [= _ <-]. exists w. split; [reflexivity|]. split; [exact Hfail|].
      discriminate. }
  destruct Hcover as (w2 & -> & Hfail2 & Hcover). clear H2.
  apply bind_Ok in Hrun as (u2 & s3 & H3 & Hrun).
  apply liftL_Ok in H3 as (w3 & H3 & ->).
  injection Hrun as <- <-.
  pose proof (deleteFile_absent fileId w2 Hfail2) as (Hf3 & Habs3 & Hkeep3).
  rewrite H3 in Hf3, Habs3, Hkeep3. cbn [snd] in *.
  split.
  - unfold liftL, getFile, checkFail, bind, notFound, throw. cbn [fst snd].
    rewrite Hf3, Habs3. reflexivity.
  - intros file' coverId Hget' Hprop Hne.
    rewrite Hget in Hget'. injection Hget' as <-.
    unfold liftL, getFileContent, checkFail, bind, notFound, throw. cbn [fst snd].
    rewrite Hf3, (Hkeep3 coverId (Hcover coverId Hprop Hne)). reflexivity.
Qed.

End MockDelete.

(** ** The migrator: choosing the book file *)

Section SelectBookFile.
Import CalibreMigrator.
Context (toLowerCase : list Z -> list Z).

Abbreviation hasExtension ext f :=
  (JS.endsWith (toLowerCase (DriveFile.name f)) ext).

Lemma selectByPriority_spec (exts : list (list Z)) (files : list DriveFile.t) :
  match selectByPriority toLowerCase exts files with
  | Some f =>
      exists earlier ext later pre post,
        exts = earlier ++ ext :: later /\
        files = pre ++ f :: post /\
        hasExtension ext f = true /\
        Forall (fun g => hasExtension ext g = false) pre /\
        Forall (fun ext' => Forall (fun g => hasExtension ext' g = false) files) earlier
  | None =>
      Forall (fun ext => Forall (fun g => hasExtension ext g = false) files) exts
  end.
Proof.
  induction exts as [|ext rest IH]; cbn [selectByPriority]; [constructor|].
  destruct (find (fun f => hasExtension ext f) files) as [f|] eqn:Hfind.
  - exists [], ext, rest.
    assert (Hsplit : exists pre post, files = pre ++ f :: post /\
              hasExtension ext f = true /\
              Forall (fun g => hasExtension ext g = false) pre).
    { clear IH. induction files as [|g files IHf]; [discriminate|].
      cbn in Hfind. destruct (hasExtension ext g) eqn:Eg.
      - injection Hfind as <-. exists [], files. repeat split; [exact Eg|constructor].
      - destruct (IHf Hfind) as (pre & post & -> & Hf & Hpre).
        exists (g :: pre), post. repeat split; [exact Hf|].
        constructor; assumption. }
    destruct Hsplit as (pre & post & Hfiles & Hf & Hpre).
    exists pre, post. repeat split; try assumption. constructor.
  - assert (Hnone : Forall (fun g => hasExtension ext g = false) files).
    { apply List.Forall_forall. intros g Hg. exact (find_none _ _ Hfind g Hg). }
    destruct (selectByPriority toLowerCase rest files) as [f|].
    + destruct IH as (earlier & ext' & later & pre & post & -> & Hfiles & Hf & Hpre & Hearlier).
      exists (ext :: earlier), ext', later, pre, post.
      repeat split; try assumption. constructor; assumption.
    + constructor; assumption.
Qed.

(** X21.  [selectBookFile] goes by the extension first and by the place in
    the listing second: the file it returns ends, lower-cased, with one
    of the five extensions; no file of the listing has an extension of
    higher priority, and no file listed before it has the same one.  It
    returns [null] only when no file has any of the five. *)
Theorem selectBookFile_by_extension_priority (files : list DriveFile.t) :
  match selectBookFile toLowerCase files with
  | Some f =>
      exists earlier ext later pre post,
        EXTENSION_PRIORITY = earlier ++ ext :: later /\
        files = pre ++ f :: post /\
        hasExtension ext f = true /\
        Forall (fun g => hasExtension ext g = false) pre /\
        Forall (fun ext' => Forall (fun g => hasExtension ext' g = false) files) earlier
  | None =>
      Forall (fun ext => Forall (fun g => hasExtension ext g = false) files)
             EXTENSION_PRIORITY
  end.
Proof. apply selectByPriority_spec. Qed.

(** X22.  The MIME type the migrator gives a book file, and the extension
    [registerBook] makes of it for the name of the registered file: an
    EPUB and a PDF keep their extension; a [.mobi] file is registered as
    [.x-mobipocket-ebook] and any other file, [.azw3] and [.azw]
    included, as [.octet-stream]. *)
Theorem migrated_file_extension (filename : list Z) :
  let lower := toLowerCase filename in
  let extension := FileName.getExtension (getMimeType toLowerCase filename) in
  (JS.endsWith lower (JS.lit ".epub") = true -> extension = JS.lit "epub") /\
  (JS.endsWith lower (JS.lit ".epub") = false ->
   JS.endsWith lower (JS.lit ".pdf") = true -> extension = JS.lit "pdf") /\
  (JS.endsWith lower (JS.lit ".epub") = false ->
   JS.endsWith lower (JS.lit ".pdf") = false ->
   JS.endsWith lower (JS.lit ".mobi") = true ->
   extension = JS.lit "x-mobipocket-ebook") /\
  (JS.endsWith lower (JS.lit ".epub") = false ->
   JS.endsWith lower (JS.lit ".pdf") = false ->
   JS.endsWith lower (JS.lit ".mobi") = false ->
   extension = JS.lit "octet-stream").
Proof.
  cbv zeta. unfold getMimeType.
  destruct (JS.endsWith (toLowerCase filename) (JS.lit ".epub"));
    destruct (JS.endsWith (toLowerCase filename) (JS.lit ".pdf"));
    destruct (JS.endsWith (toLowerCase filename) (JS.lit ".mobi"));
    repeat split; intros; try discriminate; vm_compute; reflexivity.
Qed.

End SelectBookFile.

(** A listing with a PDF before an EPUB: the EPUB is chosen.  And an
    [.azw3] file is registered with the extension [octet-stream]. *)
Lemma selectBookFile_by_extension_priority_witness :
  let listed (n : string) :=
    DriveFile.Build (JS.lit n) (JS.lit n) [] ∅ [] None None None in
  let files :=
    map listed ["cover.jpg"; "Book.PDF"; "Book.epub"; "Book.mobi"]%string in
  CalibreMigrator.selectBookFile CalibreExamples.lowerAscii files
    = Some (listed "Book.epub"%string) /\
  exists ext,
    In ext CalibreMigrator.EXTENSION_PRIORITY /\
    JS.endsWith (CalibreExamples.lowerAscii (JS.lit "Book.epub")) ext = true.
Proof.
  intros listed files.
  pose proof (selectBookFile_by_extension_priority CalibreExamples.lowerAscii files) as H.
  assert (E : CalibreMigrator.selectBookFile CalibreExamples.lowerAscii files
              = Some (listed "Book.epub"%string)) by (vm_compute; reflexivity).
  split; [exact E|]. rewrite E in H.
  destruct H as (earlier & ext & later & pre & post & Hexts & _ & Hf & _).
  exists ext. split; [|exact Hf].
  rewrite Hexts. apply in_or_app. right. left. reflexivity.
Defined.

Lemma migrated_file_extension_witness :
  FileName.getExtension
    (CalibreMigrator.getMimeType CalibreExamples.lowerAscii (JS.lit "Book.AZW3"))
  = JS.lit "octet-stream".
Proof.
  apply (proj2 (proj2 (proj2
    (migrated_file_extension CalibreExamples.lowerAscii (JS.lit "Book.AZW3")))));
    vm_compute; reflexivity.
Defined.

(** ** [parseMetadataOpf]: what it normalises *)

Section OpfFacts.
Import Opf.

Lemma isbnFrom_stripped (fuel : nat) (s : list Z) (c : Z) :
  In c (isbnFrom fuel s) -> c <> 45 /\ JS.is_space c = false.
Proof.
  revert s. induction fuel as [|fuel IH]; intros s; cbn [isbnFrom]; [intros []|].
  destruct (identifierAt s) as [[[attrs text] rest]|].
  - destruct (hasIsbnScheme attrs); [|apply IH].
    unfold stripSeparators. intros H. apply List.filter_In in H as [_ H].
    apply negb_true_iff, orb_false_iff in H as [H1 H2].
    split; [|exact H2]. intros ->. discriminate H1.
  - destruct s as [|d s]; [intros []|apply IH].
Qed.

(** X23.  Whatever the document, the isbn [parseMetadataOpf] returns holds
    neither a hyphen nor white space, the date holds no "T", the cover
    address is empty, and no field is left undefined. *)
Theorem parseMetadataOpf_normalises (xml : list Z) :
  exists isbn title authors publisher publishedDate description,
    parseMetadataOpf xml
    = PartialMetadata.Build (Some isbn) (Some title) (Some authors) (Some publisher)
        (Some publishedDate) (Some description) (Some []) /\
    (forall c, In c isbn -> c <> 45 /\ JS.is_space c = false) /\
    ~ In 84 publishedDate /\
    (forall c, head title = Some c \/ last title = Some c -> JS.is_space c = false).
Proof.
  unfold parseMetadataOpf. eexists _, _, _, _, _, _. split; [reflexivity|].
  split; [intros c; apply isbnFrom_stripped|]. split.
  - destruct (JS.truthy (getFirst xml (JS.lit "date"))); [|intros []].
    apply split_hd_without.
  - unfold getFirst. destruct (firstElement (JS.lit "title") xml) as [m|].
    + intros c [H|H]; [exact (trim_head _ _ H)|exact (trim_last _ _ H)].
    + intros c [H|H]; discriminate.
Qed.

(** The document of the tests, with a hyphenated isbn and a time of
    day in the date. *)
Lemma parseMetadataOpf_normalises_witness :
  let md := parseMetadataOpf
    (CalibreExamples.makeOpf (JS.lit "Book 1") (JS.lit "Author 1")
       (JS.lit "978-0-00-000100-1")) in
  PartialMetadata.isbn md = Some (JS.lit "9780000001001") /\
  PartialMetadata.publishedDate md = Some (JS.lit "2020-06-15") /\
  ~ In 45 (default [] (PartialMetadata.isbn md)).
Proof.
  intros md. split; [vm_compute; reflexivity|]. split; [vm_compute; reflexivity|].
  destruct (parseMetadataOpf_normalises
              (CalibreExamples.makeOpf (JS.lit "Book 1") (JS.lit "Author 1")
                 (JS.lit "978-0-00-000100-1")))
    as (isbn & title & authors & publisher & publishedDate & description & E & Hisbn & _).
  unfold md. rewrite E. cbn. intros H. apply Hisbn in H as [H _]. apply H. reflexivity.
Defined.

Lemma getFirstAuthor_join (creator : list Z) (others : list (list Z)) :
  FileName.getFirstAuthor (join (JS.lit "-") (creator :: others))
  = FileName.getFirstAuthor creator.
Proof.
  unfold FileName.getFirstAuthor. f_equal.
  destruct others as [|c2 rest]; [reflexivity|].
  change (join (JS.lit "-") (creator :: c2 :: rest))
    with (creator ++ 45 :: join (JS.lit "-") (c2 :: rest)).
  rewrite split_app. pose proof (split_nonempty 45 creator) as Hne.
  destruct (JS.split 45 creator); [contradiction|reflexivity].
Qed.

(** X24.  The creators of a document are joined with the hyphen that
    [getFirstAuthor] cuts at: the author folder of a migrated book is
    chosen by its first creator alone, and by the part of that name
    before its own first hyphen. *)
Theorem first_creator_names_the_folder (xml creator : list Z) (others : list (list Z)) :
  creatorsFrom (S (length xml)) xml = creator :: others ->
  exists authors,
    PartialMetadata.authors (parseMetadataOpf xml) = Some authors /\
    authors = join (JS.lit "-") (creator :: others) /\
    FileName.getFirstAuthor authors = FileName.getFirstAuthor creator.
Proof.
  intros Hcreators. unfold parseMetadataOpf. cbn [PartialMetadata.authors].
  rewrite Hcreators. eexists. split; [reflexivity|]. split; [reflexivity|].
  apply getFirstAuthor_join.
Qed.

(** Two creators, the first with a hyphen in the name. *)
Lemma first_creator_names_the_folder_witness :
  let xml := JS.lit
    "<dc:creator>Jean-Paul Sartre</dc:creator><dc:creator>Simone de Beauvoir</dc:creator>" in
  PartialMetadata.authors (parseMetadataOpf xml)
    = Some (JS.lit "Jean-Paul Sartre-Simone de Beauvoir") /\
  FileName.getFirstAuthor (JS.lit "Jean-Paul Sartre-Simone de Beauvoir") = JS.lit "Jean".
Proof.
  intros xml.
  destruct (first_creator_names_the_folder xml (JS.lit "Jean-Paul Sartre")
              [JS.lit "Simone de Beauvoir"]) as (authors & Ha & -> & Hfirst).
  - vm_compute. reflexivity.
  - split; [exact Ha|]. etransitivity; [exact Hfirst|]. vm_compute. reflexivity.
Defined.

End OpfFacts.

(** ** [escapeXml] *)

Section EscapeXml.
Import Opds OpdsSpec.

Lemma replaceAll_flat_map (c : Z) (r : list Z) (f : Z -> list Z) (s : list Z) :
  replaceAll c r (flat_map f s) = flat_map (fun d => replaceAll c r (f d)) s.
Proof.
  unfold replaceAll. induction s as [|d s IH]; [reflexivity|].
  cbn [flat_map]. rewrite flat_map_app, IH. reflexivity.
Qed.

Lemma entityOf_steps (d : Z) :
  replaceAll 39 (JS.lit "&apos;")
    (replaceAll 34 (JS.lit "&quot;")
       (replaceAll 62 (JS.lit "&gt;")
          (replaceAll 60 (JS.lit "&lt;")
             (if d =? 38 then JS.lit "&amp;" else [d]))))
  = entityOf d.
Proof.
  unfold entityOf.
  destruct (Z.eqb_spec d 38) as [->|H38]; [reflexivity|].
  unfold replaceAll at 4. cbn [flat_map app].
  destruct (Z.eqb_spec d 60) as [->|H60]; [reflexivity|].
  unfold replaceAll at 3. cbn [flat_map app].
  destruct (Z.eqb_spec d 62) as [->|H62]; [reflexivity|].
  unfold replaceAll at 2. cbn [flat_map app].
  destruct (Z.eqb_spec d 34) as [->|H34]; [reflexivity|].
  unfold replaceAll. cbn [flat_map app].
  destruct (Z.eqb_spec d 39) as [->|H39]; reflexivity.
Qed.

(** The five replacements, done one after the other, come to one pass:
    the entities written by an earlier replacement are not rewritten by
    a later one. *)
Lemma escapeXml_one_pass (str : list Z) : escapeXml str = flat_map entityOf str.
Proof.
  unfold escapeXml. unfold replaceAll at 5.
  rewrite !replaceAll_flat_map.
  apply flat_map_ext. intros d. apply entityOf_steps.
Qed.

Lemma entityOf_cases (c : Z) :
  (c = 38 /\ entityOf c = JS.lit "&amp;") \/
  (c = 60 /\ entityOf c = JS.lit "&lt;") \/
  (c = 62 /\ entityOf c = JS.lit "&gt;") \/
  (c = 34 /\ entityOf c = JS.lit "&quot;") \/
  (c = 39 /\ entityOf c = JS.lit "&apos;") \/
  (~ special c /\ entityOf c = [c]).
Proof.
  unfold entityOf, special.
  destruct (Z.eqb_spec c 38); [tauto|]. destruct (Z.eqb_spec c 60); [tauto|].
  destruct (Z.eqb_spec c 62); [tauto|]. destruct (Z.eqb_spec c 34); [tauto|].
  destruct (Z.eqb_spec c 39); [tauto|].
  right. right. right. right. right. split; [|reflexivity]. lia.
Qed.

Lemma flat_map_entityOf_injective (s t : list Z) :
  flat_map entityOf s = flat_map entityOf t -> s = t.
Proof.
  revert t. induction s as [|c s IH]; intros [|d t]; cbn [flat_map].
  - reflexivity.
  - intros H. symmetry in H. apply app_eq_nil in H as [H _].
    destruct (entityOf_cases d) as [[_ E]|[[_ E]|[[_ E]|[[_ E]|[[_ E]|[_ E]]]]]];
      rewrite E in H; discriminate H.
  - intros H. apply app_eq_nil in H as [H _].
    destruct (entityOf_cases c) as [[_ E]|[[_ E]|[[_ E]|[[_ E]|[[_ E]|[_ E]]]]]];
      rewrite E in H; discriminate H.
  - destruct (entityOf_cases c) as [[Hc E]|[[Hc E]|[[Hc E]|[[Hc E]|[[Hc E]|[Hc E]]]]]];
      destruct (entityOf_cases d) as [[Hd F]|[[Hd F]|[[Hd F]|[[Hd F]|[[Hd F]|[Hd F]]]]]];
      rewrite E, F; cbn; intros H;
      try (injection H as H; try discriminate; subst;
           first [ f_equal; apply IH; assumption
                 | exfalso; unfold special in *; lia
                 | exfalso; discriminate ]).
Qed.

(** X28.  [escapeXml] leaves none of [<], [>], the double quote and the
    apostrophe in its result, and the text can be had back from the
    result: two different strings are never escaped to the same one.  It
    works code unit by code unit, so it distributes over concatenation,
    and a string with none of the five special code units is returned as
    it is. *)
Theorem escapeXml_escapes (str : list Z) :
  (forall c, In c (escapeXml str) -> c <> 60 /\ c <> 62 /\ c <> 34 /\ c <> 39) /\
  (forall other, escapeXml str = escapeXml other -> str = other) /\
  (forall rest, escapeXml (str ++ rest) = escapeXml str ++ escapeXml rest) /\
  (Forall (fun c => ~ special c) str -> escapeXml str = str).
Proof.
  split; [|split; [|split]].
  - intros c. rewrite escapeXml_one_pass. intros H.
    apply in_flat_map in H as (d & _ & H).
    destruct (entityOf_cases d) as [[_ E]|[[_ E]|[[_ E]|[[_ E]|[[_ E]|[Hd E]]]]]];
      rewrite E in H; cbn in H;
      repeat (destruct H as [H|H]; [subst c; repeat split; try discriminate|]);
      try contradiction; unfold special in Hd; lia.
  - intros other. rewrite !escapeXml_one_pass. apply flat_map_entityOf_injective.
  - intros rest. rewrite !escapeXml_one_pass. apply flat_map_app.
  - rewrite escapeXml_one_pass. induction 1 as [|c s Hc _ IH]; [reflexivity|].
    cbn [flat_map]. rewrite IH.
    destruct (entityOf_cases c) as [[-> E]|[[-> E]|[[-> E]|[[-> E]|[[-> E]|[_ E]]]]]];
      try (exfalso; apply Hc; unfold special; lia).
    rewrite E. reflexivity.
Qed.

(** "Tom & Jerry's <b>": the ampersand of an entity written first is not
    escaped again. *)
Lemma escapeXml_escapes_witness :
  escapeXml (JS.lit "Tom & Jerry's <b>") = JS.lit "Tom &amp; Jerry&apos;s &lt;b&gt;" /\
  escapeXml (JS.lit "plain") = JS.lit "plain".
Proof.
  split; [vm_compute; reflexivity|].
  apply (proj2 (proj2 (proj2 (escapeXml_escapes (JS.lit "plain"))))).
  set (l := JS.lit "plain"). vm_compute in l. subst l.
  repeat (constructor; [unfold special; lia|]). constructor.
Defined.

End EscapeXml.

(** ** The mock store never gives out an id twice *)

Section Numbering.
Import MockGoogleDriveService MockSpec.

Lemma lit_injective (a b : string) : JS.lit a = JS.lit b -> a = b.
Proof.
  unfold JS.lit. intros H.
  rewrite <- (string_of_list_ascii_of_string a), <- (string_of_list_ascii_of_string b).
  f_equal. revert H. generalize (list_ascii_of_string a) (list_ascii_of_string b).
  intros l1. induction l1 as [|x l1 IH]; intros [|y l2]; cbn; try discriminate;
    [reflexivity|].
  intros [= Hxy Hl]. f_equal; [|apply IH, Hl].
  apply N2Z.inj in Hxy.
  rewrite <- (ascii_N_embedding x), <- (ascii_N_embedding y). congruence.
Qed.

Lemma ofNat_injective (n m : nat) : JS.ofNat n = JS.ofNat m -> n = m.
Proof.
  unfold JS.ofNat. intros H%lit_injective.
  apply (f_equal NilEmpty.uint_of_string) in H. rewrite !NilEmpty.usu in H.
  injection H as H. apply (f_equal Nat.of_uint) in H.
  rewrite !Unsigned.of_to in H. exact H.
Qed.

Lemma numbered_injective (n m : nat) : numbered n = numbered m -> n = m.
Proof. unfold numbered. intros H%app_inv_head. apply ofNat_injective, H. Qed.

Lemma fresh_number (s : t) :
  wellNumbered s -> map_get (numbered (nextId s)) (files s) = None.
Proof.
  intros Hs. destruct (map_get (numbered (nextId s)) (files s)) eqn:E; [|reflexivity].
  exfalso. specialize (Hs (nextId s)). rewrite E in Hs.
  specialize (Hs (mk_is_Some _ _ eq_refl)). lia.
Qed.

Lemma wellNumbered_created (s : t) (v : StoredFile) (lib : list Z) (fail : bool) :
  wellNumbered s ->
  wellNumbered (Build (map_set (numbered (nextId s)) v (files s)) (S (nextId s)) lib fail).
Proof.
  intros Hs n. cbn [files nextId].
  destruct (decide (numbered n = numbered (nextId s))) as [E|Hne].
  - apply numbered_injective in E. lia.
  - rewrite map_get_set_ne by exact Hne. intros H. specialize (Hs n H). lia.
Qed.

Lemma wellNumbered_same_keys (s s' : t) :
  wellNumbered s -> nextId s' = nextId s ->
  (forall k, is_Some (map_get k (files s')) -> is_Some (map_get k (files s))) ->
  wellNumbered s'.
Proof. intros Hs Hn Hk n H. rewrite Hn. apply Hs, Hk, H. Qed.

Lemma created_keeps (s : t) (v : StoredFile) (k : list Z) :
  wellNumbered s -> k <> numbered (nextId s) ->
  map_get k (map_set (numbered (nextId s)) v (files s)) = map_get k (files s).
Proof. intros _ Hne. apply map_get_set_ne, Hne. Qed.

Lemma updateStored_numbered (fileId : list Z) (change : DriveFile.t -> DriveFile.t)
    (s s' : t) (r : Result DriveFile.t) :
  wellNumbered s -> updateStored fileId change s = (r, s') -> wellNumbered s'.
Proof.
  intros Hs. unfold updateStored, checkFail, bind, notFound, throw, set_files.
  destruct (shouldFail s); [intros [= _ <-]; exact Hs|].
  destruct (map_get fileId (files s)) as [f|] eqn:E; [|intros [= _ <-]; exact Hs].
  intros [= _ <-]. apply (wellNumbered_same_keys s); [exact Hs|reflexivity|].
  intros k. cbn [files]. destruct (decide (k = fileId)) as [->|Hne].
  - intros _. rewrite E. eexists. reflexivity.
  - rewrite map_get_set_ne by exact Hne. tauto.
Qed.

(** X29.  In a store in which every id of the form [file_n] has been given
    out already, as in the empty store, an upload gets an id under which
    nothing was stored and leaves every other file as it is; creating a
    folder replaces no file; and every operation keeps the store that
    way. *)
Theorem generated_ids_are_fresh (s : t) :
  wellNumbered s ->
  (forall folderId fileName fileContent mimeType properties f s',
     uploadFile folderId fileName fileContent mimeType properties s = (Ok f, s') ->
     map_get (DriveFile.id f) (files s) = None /\
     wellNumbered s' /\
     forall k, k <> DriveFile.id f -> map_get k (files s') = map_get k (files s)) /\
  (forall folderId fileName imageData mimeType f s',
     uploadCoverImage folderId fileName imageData mimeType s = (Ok f, s') ->
     map_get (DriveFile.id f) (files s) = None /\
     wellNumbered s' /\
     forall k, k <> DriveFile.id f -> map_get k (files s') = map_get k (files s)) /\
  (forall id s',
     ensureMyLibraryFolder s = (Ok id, s') ->
     wellNumbered s' /\
     forall k, is_Some (map_get k (files s)) ->
               map_get k (files s') = map_get k (files s)) /\
  (forall myLibraryId authorName id s',
     ensureAuthorFolder myLibraryId authorName s = (Ok id, s') ->
     wellNumbered s' /\
     forall k, is_Some (map_get k (files s)) ->
               map_get k (files s') = map_get k (files s)) /\
  (forall fileId properties r s',
     updateFileProperties fileId properties s = (r, s') -> wellNumbered s') /\
  (forall fileId newName r s', renameFile fileId newName s = (r, s') -> wellNumbered s') /\
  (forall fileId newFolderId oldFolderId r s',
     moveFile fileId newFolderId oldFolderId s = (r, s') -> wellNumbered s') /\
  (forall fileId r s', deleteFile fileId s = (r, s') -> wellNumbered s').
Proof.
  intros Hs. pose proof (fresh_number s Hs) as Hfresh.
  assert (Hkeep : forall k, is_Some (map_get k (files s)) -> k <> numbered (nextId s)).
  { intros k Hk ->. rewrite Hfresh in Hk. destruct Hk as [x Hx]. discriminate Hx. }
  split; [|split; [|split; [|split; [|split; [|split; [|split]]]]]].
  - intros folderId fileName fileContent mimeType properties f s'.
    unfold uploadFile, checkFail, generateId, bind, set_files, toDriveFile.
    destruct (shouldFail s); [discriminate|].
    cbn [files nextId myLibraryFolderId shouldFail file].
    intros E. injection E as <- <-. cbn [files DriveFile.id].
    split; [exact Hfresh|]. split; [apply wellNumbered_created, Hs|].
    intros k Hk. apply map_get_set_ne, Hk.
  - intros folderId fileName imageData mimeType f s'.
    unfold uploadCoverImage, checkFail, generateId, bind, set_files, toDriveFile.
    destruct (shouldFail s); [discriminate|].
    cbn [files nextId myLibraryFolderId shouldFail file].
    intros E. injection E as <- <-. cbn [files DriveFile.id].
    split; [exact Hfresh|]. split; [apply wellNumbered_created, Hs|].
    intros k Hk. apply map_get_set_ne, Hk.
  - intros id s'. unfold ensureMyLibraryFolder, checkFail, generateId, bind.
    destruct (shouldFail s); [discriminate|].
    destruct (JS.truthy (myLibraryFolderId s));
      [intros [= _ <-]; split; [exact Hs|reflexivity]|].
    destruct (find _ (map_values (files s))) as [f|].
    + intros E. injection E as _ <-. split; [|reflexivity].
      apply (wellNumbered_same_keys s); [exact Hs|reflexivity|tauto].
    + cbn [files nextId myLibraryFolderId shouldFail].
      intros E. injection E as _ <-. split; [apply wellNumbered_created, Hs|].
      cbn [files]. intros k Hk. apply map_get_set_ne, Hkeep, Hk.
  - intros myLibraryId authorName id s'.
    unfold ensureAuthorFolder, checkFail, generateId, bind, set_files.
    destruct (shouldFail s); [discriminate|].
    destruct (find _ (map_values (files s))) as [f|];
      [intros [= _ <-]; split; [exact Hs|reflexivity]|].
    cbn [files nextId myLibraryFolderId shouldFail].
    intros E. injection E as _ <-. split; [apply wellNumbered_created, Hs|].
    cbn [files]. intros k Hk. apply map_get_set_ne, Hkeep, Hk.
  - intros fileId properties r s' H. exact (updateStored_numbered _ _ _ _ _ Hs H).
  - intros fileId newName r s' H. exact (updateStored_numbered _ _ _ _ _ Hs H).
  - intros fileId newFolderId oldFolderId r s' H.
    exact (updateStored_numbered _ _ _ _ _ Hs H).
  - intros fileId r s'. unfold deleteFile, checkFail, bind, notFound, throw, set_files.
    destruct (shouldFail s); [intros [= _ <-]; exact Hs|].
    destruct (map_get fileId (files s)) as [f|]; [|intros [= _ <-]; exact Hs].
    intros [= _ <-]. apply (wellNumbered_same_keys s); [exact Hs|reflexivity|].
    intros k. cbn [files]. destruct (decide (k = fileId)) as [->|Hne].
    + rewrite map_get_delete_eq. intros [x Hx]. discriminate Hx.
    + rewrite map_get_delete_ne by exact Hne. tauto.
Qed.

(** The empty store is well numbered; the first upload into it gets the
    id [file_1]. *)
Lemma generated_ids_are_fresh_witness :
  wellNumbered LibraryExamples.emptyStore /\
  exists f s',
    uploadFile (JS.lit "folder") (JS.lit "a.epub") [1] (JS.lit "application/epub+zip")
      ∅ LibraryExamples.emptyStore = (Ok f, s') /\
    DriveFile.id f = JS.lit "file_1" /\
    wellNumbered s'.
Proof.
  assert (Hempty : wellNumbered LibraryExamples.emptyStore).
  { intros n [x Hx]. discriminate Hx. }
  split; [exact Hempty|].
  pose (r := uploadFile (JS.lit "folder") (JS.lit "a.epub") [1]
               (JS.lit "application/epub+zip") ∅ LibraryExamples.emptyStore).
  pose (f := match r.1 with
             | Ok f => f
             | Throw _ => DriveFile.Build [] [] [] ∅ [] None None None
             end).
  assert (E : r = (Ok f, r.2)) by (vm_compute; reflexivity).
  exists f, r.2. split; [exact E|]. split; [vm_compute; reflexivity|].
  exact (proj1 (proj2 (proj1 (generated_ids_are_fresh _ Hempty) _ _ _ _ _ _ _ E))).
Defined.

End Numbering.

(** ** The migrator, store call by store call *)

Section UnitStepsFacts.
Import CalibreMigrator UnitSteps.
Context (toLowerCase : list Z -> list Z).
Context (parseMetadataOpf : list Z -> PartialMetadata.t).
Context {W : Type} (this : CalibreMigrator.t W).

Abbreviation drive := (driveService this).
Abbreviation bookDrive := (BookService.driveService (bookService this)).
Abbreviation Cache := (CacheService.t DriveFileList.t).
Abbreviation St := (W * Cache)%type.
Abbreviation migrateBook' := (migrateBook toLowerCase parseMetadataOpf this).
Abbreviation migrateUnit' := (migrateUnit toLowerCase parseMetadataOpf this).
Abbreviation prepared' := (prepared toLowerCase parseMetadataOpf this).
Abbreviation throwsAt' := (throwsAt toLowerCase parseMetadataOpf this).

Lemma liftL_throw {A : Type} (m : M W A) (w w1 : W) (e : list Z) (c : Cache) :
  m w = (Throw e, w1) -> liftL m (w, c) = (Throw e, (w1, c)).
Proof. unfold liftL. cbn. intros ->. reflexivity. Qed.

Lemma readMetadata_run (files : list DriveFile.t) (w w' : W)
    (metadata : PartialMetadata.t) (ch : Cache) :
  metadataRead parseMetadataOpf this files w metadata w' ->
  readMetadata parseMetadataOpf this files (w, ch) = (Ok metadata, (w', ch)).
Proof.
  unfold metadataRead, readMetadata.
  destruct (find _ files) as [opfFile|].
  - intros (content & Hcontent & ->).
    rewrite (bind_run _ _ _ _ _ (liftL_run _ _ _ _ ch Hcontent)). reflexivity.
  - intros [-> ->]. reflexivity.
Qed.

Lemma probeDuplicate_run (metadata : PartialMetadata.t) (w w' : W)
    (existing : option DriveFile.t) (ch : Cache) :
  isbnProbed this metadata w existing w' ->
  probeDuplicate this metadata (w, ch) = (Ok existing, (w', ch)).
Proof.
  unfold isbnProbed, probeDuplicate, BookService.findBookByIsbn.
  destruct (BookService.truthy_undefined _).
  - intros H. exact (liftL_run _ _ _ _ ch H).
  - intros [-> ->]. reflexivity.
Qed.

(** A prepared unit goes on with the download of its book file. *)
Lemma migrateBook_prepared (bookFolderId bookFolderName : list Z)
    (options : MigrationOptions.t) (w : W) (ch : Cache) (files : list DriveFile.t)
    (metadata : PartialMetadata.t) (bookFile : DriveFile.t) (w3 : W) :
  prepared' bookFolderId options w files metadata bookFile w3 ->
  migrateBook' bookFolderId bookFolderName options (w, ch)
  = (let* bookContent :=
       liftL (GoogleDriveService.getFileContent drive (DriveFile.id bookFile)) in
     let* registeredFile :=
       BookService.registerBook (bookService this)
         (fullMetadata metadata bookFolderName) bookContent
         (getMimeType toLowerCase (DriveFile.name bookFile)) in
     let* _ :=
       match find (named (JS.lit "cover.jpg")) files with
       | Some coverFile =>
           try_catch (registerCover this coverFile registeredFile) (fun _ => ret tt)
       | None => ret tt
       end in
     ret (MigrationDetail.Build (titleOf metadata bookFolderName)
            MigrationDetail.succeeded None)) (w3, ch).
Proof.
  intros (w1 & w2 & Hfiles & Hmeta & Hprobe & Hsel & Hdry).
  unfold migrateBook.
  rewrite (bind_run _ _ _ _ _ (liftL_run _ _ _ _ ch Hfiles)).
  rewrite (bind_run _ _ _ _ _ (readMetadata_run _ _ _ _ ch Hmeta)).
  rewrite (bind_run _ _ _ _ _ (probeDuplicate_run _ _ _ _ ch Hprobe)).
  rewrite Hsel. rewrite bool_decide_eq_false_2 by exact Hdry.
  reflexivity.
Qed.

(** What throws before the cover step is what [migrateBook] throws. *)
Lemma throwsAt_migrateBook (bookFolderId bookFolderName : list Z)
    (options : MigrationOptions.t) (w : W) (ch : Cache) (e : list Z) (s' : St) :
  throwsAt' bookFolderId bookFolderName options w ch e s' ->
  migrateBook' bookFolderId bookFolderName options (w, ch) = (Throw e, s').
Proof.
  intros [w1 Hlist
         |files w1 opfFile w2 Hlist Hfind Hcontent
         |files w1 metadata w2 w3 Hlist Hmeta Hisbn Hprobe
         |files metadata bookFile w3 w4 Hprep Hcontent
         |files metadata bookFile w3 bookContent w4 s5 Hprep Hcontent Hreg].
  - unfold migrateBook. apply bind_throw. exact (liftL_throw _ _ _ _ ch Hlist).
  - unfold migrateBook.
    rewrite (bind_run _ _ _ _ _ (liftL_run _ _ _ _ ch Hlist)).
    apply bind_throw. unfold readMetadata. rewrite Hfind.
    apply bind_throw. exact (liftL_throw _ _ _ _ ch Hcontent).
  - unfold migrateBook.
    rewrite (bind_run _ _ _ _ _ (liftL_run _ _ _ _ ch Hlist)).
    rewrite (bind_run _ _ _ _ _ (readMetadata_run _ _ _ _ ch Hmeta)).
    apply bind_throw. unfold probeDuplicate, BookService.findBookByIsbn.
    rewrite Hisbn. exact (liftL_throw _ _ _ _ ch Hprobe).
  - rewrite (migrateBook_prepared _ _ _ _ _ _ _ _ _ Hprep).
    apply bind_throw. exact (liftL_throw _ _ _ _ ch Hcontent).
  - rewrite (migrateBook_prepared _ _ _ _ _ _ _ _ _ Hprep).
    rewrite (bind_run _ _ _ _ _ (liftL_run _ _ _ _ ch Hcontent)).
    apply bind_throw. exact Hreg.
Qed.

(** A throw of the cover step, in terms of the store. *)
Lemma registerCover_throws (coverFile registeredFile : DriveFile.t) (w w' : W)
    (e : list Z) (ch : Cache) :
  coverThrows this coverFile registeredFile w e w' ->
  registerCover this coverFile registeredFile (w, ch) = (Throw e, (w', ch)).
Proof.
  intros [w1 Hdata|coverData w1 w2 Hdata Hup
         |coverData w1 coverDriveFile w2 w3 Hdata Hup Hprops];
    unfold registerCover.
  - apply bind_throw. exact (liftL_throw _ _ _ _ ch Hdata).
  - rewrite (bind_run _ _ _ _ _ (liftL_run _ _ _ _ ch Hdata)).
    apply bind_throw. exact (liftL_throw _ _ _ _ ch Hup).
  - rewrite (bind_run _ _ _ _ _ (liftL_run _ _ _ _ ch Hdata)).
    rewrite (bind_run _ _ _ _ _ (liftL_run _ _ _ _ ch Hup)).
    apply bind_throw. exact (liftL_throw _ _ _ _ ch Hprops).
Qed.

(** A registered unit is reported as succeeded, in the state the cover
    step leaves. *)
Lemma migrateBook_registered (bookFolderId bookFolderName : list Z)
    (options : MigrationOptions.t) (w : W) (ch : Cache) (files : list DriveFile.t)
    (metadata : PartialMetadata.t) (bookFile : DriveFile.t) (w3 : W)
    (bookContent : list Z) (w4 : W) (registeredFile : DriveFile.t) (s5 : St)
    (coverFile : DriveFile.t) :
  prepared' bookFolderId options w files metadata bookFile w3 ->
  GoogleDriveService.getFileContent drive (DriveFile.id bookFile) w3
    = (Ok bookContent, w4) ->
  BookService.registerBook (bookService this)
    (fullMetadata metadata bookFolderName) bookContent
    (getMimeType toLowerCase (DriveFile.name bookFile)) (w4, ch)
    = (Ok registeredFile, s5) ->
  find (named (JS.lit "cover.jpg")) files = Some coverFile ->
  migrateBook' bookFolderId bookFolderName options (w, ch)
  = (Ok (MigrationDetail.Build (titleOf metadata bookFolderName)
           MigrationDetail.succeeded None),
     (registerCover this coverFile registeredFile s5).2).
Proof.
  intros Hprep Hcontent Hreg Hcover.
  rewrite (migrateBook_prepared _ _ _ _ _ _ _ _ _ Hprep).
  rewrite (bind_run _ _ _ _ _ (liftL_run _ _ _ _ ch Hcontent)).
  rewrite (bind_run _ _ _ _ _ Hreg). rewrite Hcover.
  unfold bind at 1, try_catch.
  destruct (registerCover this coverFile registeredFile s5) as [[u|e] s6];
    reflexivity.
Qed.

End UnitStepsFacts.

(** ** Claim C2: a failing unit is recorded and the run goes on; the cover,
    skipped units and the limit *)

Section UnitFailures.
Import CalibreMigrator UnitSteps.
Context (toLowerCase : list Z -> list Z).
Context (parseMetadataOpf : list Z -> PartialMetadata.t).
Context {W : Type} (this : CalibreMigrator.t W).

Abbreviation drive := (driveService this).
Abbreviation Cache := (CacheService.t DriveFileList.t).
Abbreviation St := (W * Cache)%type.
Abbreviation migrateBook' := (migrateBook toLowerCase parseMetadataOpf this).
Abbreviation migrateUnit' := (migrateUnit toLowerCase parseMetadataOpf this).
Abbreviation migrate' := (migrate toLowerCase parseMetadataOpf this).
Abbreviation authorsWalk' := (authorsWalk toLowerCase parseMetadataOpf this).
Abbreviation prepared' := (prepared toLowerCase parseMetadataOpf this).
Abbreviation throwsAt' := (throwsAt toLowerCase parseMetadataOpf this).
Abbreviation listing :=
  (fun id => liftL (S2 := Cache)
               (GoogleDriveService.findFilesByParent (driveService this) id)).

(** C2.  A unit whose processing throws before the cover step is recorded
    as an error with the message thrown, whichever store call it is that
    throws: the listing of the folder, the reading of the metadata
    document, the isbn probe, the download of the book file, or the
    registration.  (Parsing the document and choosing the book file are
    computations on what was read; they do not throw.)  A throw in the
    cover step is not an error of the unit: it is swallowed, and the
    unit is recorded as succeeded.  And the run goes on after a unit
    that throws: whenever the listings of the source folder and of the
    author folders succeed, [migrate] returns a report with one detail
    for every unit of the walk, in order, the detail [migrateBook]
    returned or the error detail of what it threw; so for a walk of
    three units of which exactly one throws, [total] is 3, [errors] is
    1, and the two others keep their [succeeded] or [skipped] detail. *)
Theorem unit_failures_do_not_stop_the_run :
  (forall (bookFolder : DriveFile.t) (options : MigrationOptions.t) (w : W)
          (ch : Cache) (e : list Z) (s' : St),
     throwsAt' (DriveFile.id bookFolder) (DriveFile.name bookFolder) options w ch e s' ->
     migrateUnit' bookFolder options (w, ch)
     = (Ok (MigrationDetail.Build (DriveFile.name bookFolder)
              MigrationDetail.error (Some e)), s')) /\
  (forall (bookFolder : DriveFile.t) (options : MigrationOptions.t) (w : W)
          (ch : Cache) (files : list DriveFile.t) (metadata : PartialMetadata.t)
          (bookFile : DriveFile.t) (w3 : W) (bookContent : list Z) (w4 : W)
          (registeredFile : DriveFile.t) (w5 : W) (ch5 : Cache)
          (coverFile : DriveFile.t) (e : list Z) (w6 : W),
     prepared' (DriveFile.id bookFolder) options w files metadata bookFile w3 ->
     GoogleDriveService.getFileContent drive (DriveFile.id bookFile) w3
       = (Ok bookContent, w4) ->
     BookService.registerBook (bookService this)
       (fullMetadata metadata (DriveFile.name bookFolder)) bookContent
       (getMimeType toLowerCase (DriveFile.name bookFile)) (w4, ch)
       = (Ok registeredFile, (w5, ch5)) ->
     find (named (JS.lit "cover.jpg")) files = Some coverFile ->
     coverThrows this coverFile registeredFile w5 e w6 ->
     migrateUnit' bookFolder options (w, ch)
     = (Ok (MigrationDetail.Build (titleOf metadata (DriveFile.name bookFolder))
              MigrationDetail.succeeded None), (w6, ch5))) /\
  (forall (sourceFolderId : list Z) (options : MigrationOptions.t)
          (s s0 s' : St) (authorFolders : list DriveFile.t) (visits : list Visit)
          (stopped : bool),
     listing sourceFolderId s = (Ok authorFolders, s0) ->
     authorsWalk' options 0 s0 authorFolders visits stopped s' ->
     (forall bookFolder s1 s2 e,
        migrateBook' (DriveFile.id bookFolder) (DriveFile.name bookFolder) options s1
          = (Throw e, s2) ->
        migrateUnit' bookFolder options s1
          = (Ok (MigrationDetail.Build (DriveFile.name bookFolder)
                   MigrationDetail.error (Some e)), s2)) /\
     exists result,
       migrate' sourceFolderId options s = (Ok result, s') /\
       MigrationResult.total result = length visits /\
       MigrationResult.details result = map detailOf visits /\
       MigrationResult.errors result = length (List.filter threw visits) /\
       (MigrationResult.succeeded result + MigrationResult.skipped result
        = length (List.filter (fun v => negb (threw v)) visits))%nat /\
       Forall2 (fun v d =>
                  match v.2 with
                  | Ok d0 => d = d0 /\ MigrationDetail.isError d0 = false
                  | Throw e => d = MigrationDetail.Build (DriveFile.name v.1)
                                     MigrationDetail.error (Some e)
                  end) visits (MigrationResult.details result) /\
       (length visits = 3%nat -> length (List.filter threw visits) = 1%nat ->
        MigrationResult.total result = 3%nat /\
        MigrationResult.errors result = 1%nat /\
        (MigrationResult.succeeded result + MigrationResult.skipped result = 2)%nat)).
Proof.
  split; [|split].
  - intros bookFolder options w ch e s' Hthrow.
    apply throwsAt_migrateBook in Hthrow.
    exact (migrateUnit_run toLowerCase parseMetadataOpf this _ _ _ _ _ Hthrow).
  - intros bookFolder options w ch files metadata bookFile w3 bookContent w4
      registeredFile w5 ch5 coverFile e w6 Hprep Hcontent Hreg Hcover Hthrow.
    pose proof (migrateBook_registered toLowerCase parseMetadataOpf this
                  _ _ _ _ _ _ _ _ _ _ _ _ _ _ Hprep Hcontent Hreg Hcover) as Hrun.
    rewrite (registerCover_throws this _ _ _ _ _ ch5 Hthrow) in Hrun.
    exact (migrateUnit_run toLowerCase parseMetadataOpf this _ _ _ _ _ Hrun).
  - intros sourceFolderId options s s0 s' authorFolders visits stopped Hlist Hwalk.
    exact (thrown_units_are_recorded toLowerCase parseMetadataOpf this
             _ _ _ _ _ _ _ _ Hlist Hwalk).
Qed.

(** *** The cover step *)

(** X27.  The cover step cannot fail a unit.  For a unit that has been
    registered and whose folder holds a [cover.jpg]: when reading the
    image, uploading it or writing its id into the properties of the
    registered file throws, the unit is reported as succeeded all the
    same, in the state the throwing call left, the book registered; and
    when the three calls succeed, it is reported as succeeded after the
    update of the properties. *)
Theorem migrateBook_survives_cover_failure
    (bookFolderId bookFolderName : list Z) (options : MigrationOptions.t) (w : W)
    (ch : Cache) (files : list DriveFile.t) (metadata : PartialMetadata.t)
    (bookFile : DriveFile.t) (w3 : W) (bookContent : list Z) (w4 : W)
    (registeredFile : DriveFile.t) (w5 : W) (ch5 : Cache) (coverFile : DriveFile.t) :
  prepared' bookFolderId options w files metadata bookFile w3 ->
  GoogleDriveService.getFileContent drive (DriveFile.id bookFile) w3
    = (Ok bookContent, w4) ->
  BookService.registerBook (bookService this)
    (fullMetadata metadata bookFolderName) bookContent
    (getMimeType toLowerCase (DriveFile.name bookFile)) (w4, ch)
    = (Ok registeredFile, (w5, ch5)) ->
  find (named (JS.lit "cover.jpg")) files = Some coverFile ->
  let detail :=
    MigrationDetail.Build (titleOf metadata bookFolderName)
      MigrationDetail.succeeded None in
  (forall e w6,
     coverThrows this coverFile registeredFile w5 e w6 ->
     migrateBook' bookFolderId bookFolderName options (w, ch) = (Ok detail, (w6, ch5))) /\
  (forall coverData w6 coverDriveFile w7 updated w8,
     GoogleDriveService.getFileContent drive (DriveFile.id coverFile) w5
       = (Ok coverData, w6) ->
     GoogleDriveService.uploadCoverImage drive
       (hd [] (DriveFile.parents registeredFile)) (coverFileName registeredFile)
       coverData (JS.lit "image/jpeg") w6 = (Ok coverDriveFile, w7) ->
     GoogleDriveService.updateFileProperties drive (DriveFile.id registeredFile)
       (<[Key.cover_file_id := DriveFile.id coverDriveFile]>
          (DriveFile.properties registeredFile)) w7 = (Ok updated, w8) ->
     migrateBook' bookFolderId bookFolderName options (w, ch) = (Ok detail, (w8, ch5))).
Proof.
  intros Hprep Hcontent Hreg Hcover detail.
  pose proof (migrateBook_registered toLowerCase parseMetadataOpf this
                _ bookFolderName _ _ _ _ _ _ _ _ _ _ _ _ Hprep Hcontent Hreg Hcover)
    as Hrun.
  split.
  - intros e w6 Hthrow.
    rewrite (registerCover_throws this _ _ _ _ _ ch5 Hthrow) in Hrun. exact Hrun.
  - intros coverData w6 coverDriveFile w7 updated w8 Hdata Hup Hprops.
    rewrite Hrun. f_equal. unfold registerCover.
    rewrite (bind_run _ _ _ _ _ (liftL_run _ _ _ _ ch5 Hdata)).
    rewrite (bind_run _ _ _ _ _ (liftL_run _ _ _ _ ch5 Hup)).
    rewrite (bind_run _ _ _ _ _ (liftL_run _ _ _ _ ch5 Hprops)).
    reflexivity.
Qed.

(** *** Skipped units *)

(** Recording the calls: the first steps of a unit on a recorded store,
    from the answers of the store. *)
Lemma spied_run {A : Type} (c : Spy.Call) (m : M W A) (a : A) (w w1 : W)
    (log : list Spy.Call) (ch : Cache) :
  m w = (Ok a, w1) ->
  liftL (Spy.logged c m) ((w, log), ch) = (Ok a, ((w1, log ++ [c]), ch)).
Proof. intros E. rewrite spy_call, E. reflexivity. Qed.

Lemma readMetadata_recorded (files : list DriveFile.t) (w w' : W)
    (metadata : PartialMetadata.t) (log : list Spy.Call) (ch : Cache) :
  metadataRead parseMetadataOpf this files w metadata w' ->
  readMetadata parseMetadataOpf (MigratorSpec.spied this) files ((w, log), ch)
  = (Ok metadata, ((w', log ++ metadataCalls files), ch)).
Proof.
  unfold metadataRead, metadataCalls, readMetadata.
  destruct (find _ files) as [opfFile|].
  - intros (content & Hcontent & ->).
    erewrite bind_run; [reflexivity|].
    exact (spied_run (Spy.GetFileContent _) _ _ _ _ _ _ Hcontent).
  - intros [-> ->]. rewrite app_nil_r. reflexivity.
Qed.

Lemma probeDuplicate_recorded (metadata : PartialMetadata.t) (w w' : W)
    (existing : option DriveFile.t) (log : list Spy.Call) (ch : Cache) :
  isbnProbed this metadata w existing w' ->
  probeDuplicate (MigratorSpec.spied this) metadata ((w, log), ch)
  = (Ok existing, ((w', log ++ probeCalls metadata), ch)).
Proof.
  unfold isbnProbed, probeCalls, probeDuplicate, BookService.findBookByIsbn.
  destruct (BookService.truthy_undefined _).
  - intros H. exact (spied_run (Spy.FindBookByIsbn _) _ _ _ _ _ _ H).
  - intros [-> ->]. rewrite app_nil_r. reflexivity.
Qed.

(** X26.  A skipped unit has only been read.  When the store of the
    records answers the isbn of the unit with a record, the unit is
    reported as skipped for a duplicate isbn, whether or not its folder
    holds a book file; when it answers with none, or the unit has no
    isbn, and the folder holds no file of a supported format, the unit
    is reported as skipped for the lack of one.  Either way the calls
    made are the listing of the folder, the reading of the metadata
    document if the folder lists one, and the search for the isbn if it
    is not empty, in this order and nothing else; the cache is left as
    it is. *)
Theorem skipped_units_are_only_read
    (bookFolderId bookFolderName : list Z) (options : MigrationOptions.t)
    (w w1 w2 w3 : W) (log : list Spy.Call) (ch : Cache)
    (files : list DriveFile.t) (metadata : PartialMetadata.t)
    (existing : option DriveFile.t) :
  GoogleDriveService.findFilesByParent drive bookFolderId w = (Ok files, w1) ->
  metadataRead parseMetadataOpf this files w1 metadata w2 ->
  isbnProbed this metadata w2 existing w3 ->
  (existing = None -> selectBookFile toLowerCase files = None) ->
  migrateBook toLowerCase parseMetadataOpf (MigratorSpec.spied this)
    bookFolderId bookFolderName options ((w, log), ch)
  = (Ok (MigrationDetail.Build (titleOf metadata bookFolderName)
           MigrationDetail.skipped
           (Some match existing with
                 | Some _ => REASON_DUPLICATE
                 | None => REASON_NO_FILE
                 end)),
     ((w3, log ++ [Spy.FindFilesByParent bookFolderId] ++ metadataCalls files
               ++ probeCalls metadata), ch)).
Proof.
  intros Hfiles Hmeta Hprobe Hsel. unfold migrateBook.
  erewrite bind_run;
    [|exact (spied_run (Spy.FindFilesByParent bookFolderId) _ _ _ _ log ch Hfiles)].
  rewrite (bind_run _ _ _ _ _ (readMetadata_recorded _ _ _ _ _ ch Hmeta)).
  rewrite (bind_run _ _ _ _ _ (probeDuplicate_recorded _ _ _ _ _ ch Hprobe)).
  rewrite <- !app_assoc.
  destruct existing as [record|]; [reflexivity|].
  rewrite (Hsel eq_refl). reflexivity.
Qed.

(** *** The limit *)

Lemma limitReached_bound (options : MigrationOptions.t) (q : Q) (n : nat) :
  MigrationOptions.limit options = Some (Number.Finite q) ->
  limitReached options n = false ->
  Z.of_nat n < Qceiling q.
Proof.
  unfold limitReached. intros -> H. cbn [Number.geNat] in H.
  destruct (Z_lt_le_dec (Z.of_nat n) (Qceiling q)) as [Hlt|Hle]; [exact Hlt|].
  exfalso. assert (Hq : Qle q (inject_Z (Z.of_nat n))).
  { eapply Qle_trans; [apply Qle_ceiling|]. rewrite <- Zle_Qle. exact Hle. }
  apply Qle_bool_iff in Hq. congruence.
Qed.

Lemma unitsWalk_limit (options : MigrationOptions.t) (q : Q) n s bookFolders visits
    stopped s' :
  MigrationOptions.limit options = Some (Number.Finite q) ->
  unitsWalk toLowerCase parseMetadataOpf this options n s bookFolders visits stopped s' ->
  Z.of_nat (n + length visits) <= Z.max (Z.of_nat n) (Qceiling q).
Proof.
  intros Hl Hwalk. induction Hwalk as
    [n s|n s f rest vs stopped s' Hf Hwalk IH|n s f rest Hf Hlim
    |n s f rest out s1 vs stopped s' Hf Hlim Hrun Hwalk IH].
  - cbn. lia.
  - exact IH.
  - cbn. lia.
  - pose proof (limitReached_bound options q n Hl Hlim). cbn [length]. lia.
Qed.

Lemma authorsWalk_limit (options : MigrationOptions.t) (q : Q) n s authorFolders visits
    stopped s' :
  MigrationOptions.limit options = Some (Number.Finite q) ->
  authorsWalk toLowerCase parseMetadataOpf this options n s authorFolders visits
    stopped s' ->
  Z.of_nat (n + length visits) <= Z.max (Z.of_nat n) (Qceiling q).
Proof.
  intros Hl Hwalk. induction Hwalk as
    [n s|n s f rest vs stopped s' Hf Hwalk IH
    |n s f rest bookFolders s1 vs s' Hf Hlist Hunits
    |n s f rest bookFolders s1 vs1 s2 vs2 stopped s' Hf Hlist Hunits Hwalk IH].
  - cbn. lia.
  - exact IH.
  - exact (unitsWalk_limit options q _ _ _ _ _ _ Hl Hunits).
  - pose proof (unitsWalk_limit options q _ _ _ _ _ _ Hl Hunits) as H1.
    rewrite length_app. lia.
Qed.

(** With the limit [-Infinity] the first unit met stops the walk. *)
Lemma unitsWalk_none (options : MigrationOptions.t) n s bookFolders visits stopped s' :
  MigrationOptions.limit options = Some Number.NegInfinity ->
  unitsWalk toLowerCase parseMetadataOpf this options n s bookFolders visits stopped s' ->
  visits = [].
Proof.
  intros Hl Hwalk. induction Hwalk as
    [n s|n s f rest vs stopped s' Hf Hwalk IH|n s f rest Hf Hlim
    |n s f rest out s1 vs stopped s' Hf Hlim Hrun Hwalk IH];
    try reflexivity; [exact IH|].
  unfold limitReached in Hlim. rewrite Hl in Hlim. discriminate.
Qed.

Lemma authorsWalk_none (options : MigrationOptions.t) n s authorFolders visits
    stopped s' :
  MigrationOptions.limit options = Some Number.NegInfinity ->
  authorsWalk toLowerCase parseMetadataOpf this options n s authorFolders visits
    stopped s' ->
  visits = [].
Proof.
  intros Hl Hwalk. induction Hwalk as
    [n s|n s f rest vs stopped s' Hf Hwalk IH
    |n s f rest bookFolders s1 vs s' Hf Hlist Hunits
    |n s f rest bookFolders s1 vs1 s2 vs2 stopped s' Hf Hlist Hunits Hwalk IH].
  - reflexivity.
  - exact IH.
  - exact (unitsWalk_none options _ _ _ _ _ _ Hl Hunits).
  - rewrite (unitsWalk_none options _ _ _ _ _ _ Hl Hunits), IH. reflexivity.
Qed.

(** A limit that no count reaches is no limit. *)
Lemma bookLoop_unreached (dryRun : option bool) (l : Number.t)
    (bookFolders : list DriveFile.t) (result : MigrationResult.t) (s : St) :
  (forall n, Number.geNat n l = false) ->
  bookLoop toLowerCase parseMetadataOpf this (MigrationOptions.Build dryRun (Some l))
    bookFolders result s
  = bookLoop toLowerCase parseMetadataOpf this (MigrationOptions.Build dryRun None)
    bookFolders result s.
Proof.
  intros Hl. revert result s.
  induction bookFolders as [|f rest IH]; intros result s; [reflexivity|].
  cbn [bookLoop]. destruct (isFolder f); cbn [negb]; [|apply IH].
  unfold limitReached. cbn [MigrationOptions.limit]. rewrite Hl.
  unfold bind.
  change (migrateUnit toLowerCase parseMetadataOpf this f
            (MigrationOptions.Build dryRun (Some l)) s)
    with (migrateUnit toLowerCase parseMetadataOpf this f
            (MigrationOptions.Build dryRun None) s).
  destruct (migrateUnit _ _ _ f _ s) as [[detail|e] s1]; [apply IH|reflexivity].
Qed.

Lemma authorLoop_unreached (dryRun : option bool) (l : Number.t)
    (authorFolders : list DriveFile.t) (result : MigrationResult.t) (s : St) :
  (forall n, Number.geNat n l = false) ->
  authorLoop toLowerCase parseMetadataOpf this (MigrationOptions.Build dryRun (Some l))
    authorFolders result s
  = authorLoop toLowerCase parseMetadataOpf this (MigrationOptions.Build dryRun None)
    authorFolders result s.
Proof.
  intros Hl. revert result s.
  induction authorFolders as [|f rest IH]; intros result s; [reflexivity|].
  cbn [authorLoop]. destruct (isFolder f); cbn [negb]; [|apply IH].
  unfold bind. destruct (liftL _ s) as [[bookFolders|e] s1]; [|reflexivity].
  rewrite (bookLoop_unreached dryRun l bookFolders result s1 Hl).
  destruct (bookLoop _ _ _ _ bookFolders result s1) as [[[stopped r]|e] s2];
    [|reflexivity].
  cbn [fst snd]. destruct stopped; [reflexivity|apply IH].
Qed.

(** X25.  What a limit does to a run.  A finite limit [l] bounds the
    number of units processed by [l] rounded up to an integer, and by 0
    when [l] is 0 or negative; with the limit [-Infinity] no unit is
    processed.  A limit that is [NaN] or [Infinity] is never reached:
    the run is the run without a limit.  In every report the details
    are as many as [total]. *)
Theorem limit_bounds_the_run :
  (forall (sourceFolderId : list Z) (options : MigrationOptions.t) (l : Number.t)
          (s s' : St) (result : MigrationResult.t),
     MigrationOptions.limit options = Some l ->
     migrate' sourceFolderId options s = (Ok result, s') ->
     length (MigrationResult.details result) = MigrationResult.total result /\
     match l with
     | Number.Finite q =>
         Z.of_nat (MigrationResult.total result) <= Z.max 0 (Qceiling q)
     | Number.NegInfinity => MigrationResult.total result = 0%nat
     | Number.NaN | Number.Infinity => True
     end) /\
  (forall (sourceFolderId : list Z) (dryRun : option bool) (l : Number.t) (s : St),
     l = Number.NaN \/ l = Number.Infinity ->
     migrate' sourceFolderId (MigrationOptions.Build dryRun (Some l)) s
     = migrate' sourceFolderId (MigrationOptions.Build dryRun None) s).
Proof.
  split.
  - intros sourceFolderId options l s s' result Hl Hrun. unfold migrate in Hrun.
    apply bind_Ok in Hrun as (authorFolders & s0 & _ & Hrun).
    apply authorLoop_inv in Hrun as (visits & stopped & Hwalk & ->).
    rewrite total_recordAll. cbn [MigrationResult.total MigrationResult.empty].
    split.
    + destruct (recordAll_report MigrationResult.empty visits) as (Hd & _).
      rewrite Hd. cbn. rewrite length_map. reflexivity.
    + destruct l as [| | |q]; [exact I|exact I| |].
      * rewrite (authorsWalk_none options _ _ _ _ _ _ Hl Hwalk). reflexivity.
      * exact (authorsWalk_limit options q _ _ _ _ _ _ Hl Hwalk).
  - intros sourceFolderId dryRun l s Hl. unfold migrate, bind.
    destruct (liftL _ s) as [[authorFolders|e] s0]; [|reflexivity].
    apply authorLoop_unreached. intros n. destruct Hl as [-> | ->]; reflexivity.
Qed.

End UnitFailures.

(** ** [registerBook] and the cover *)

Section RegisterCover.
Import RegisterSpec.
Context {W : Type} (this : BookService.t W).

Abbreviation drive := (BookService.driveService this).
Abbreviation Cache := (CacheService.t DriveFileList.t).

Lemma liftL_any {A : Type} (m : M W A) (w : W) (c : Cache) :
  liftL m (w, c) = ((m w).1, ((m w).2, c)).
Proof. unfold liftL. cbn. destruct (m w). reflexivity. Qed.

(** X17.  Registration does not depend on the cover.  When the library
    folder, the author folder and the upload succeed, [registerBook]
    returns, whatever the download of the cover, its upload and the
    update of the properties do, and the list and search entries of the
    cache are invalidated.  When the metadata has a cover address and
    the download, the upload of the cover and the update all succeed,
    the file returned is the uploaded one with the id of the cover
    among its properties; in every other case it is the uploaded file
    as it is. *)
Theorem registerBook_survives_cover_failure
    (metadata : BookMetadata.t) (fileContent fileMimeType : list Z)
    (w w1 w2 w3 : W) (c : Cache) (myLibraryId authorFolderId : list Z)
    (uploaded : DriveFile.t) :
  GoogleDriveService.ensureMyLibraryFolder drive w = (Ok myLibraryId, w1) ->
  GoogleDriveService.ensureAuthorFolder drive myLibraryId
    (FileName.getFirstAuthor (BookMetadata.authors metadata)) w1
    = (Ok authorFolderId, w2) ->
  GoogleDriveService.uploadFile drive authorFolderId (fileName metadata fileMimeType)
    fileContent fileMimeType (properties metadata) w2 = (Ok uploaded, w3) ->
  let c' :=
    CacheService.invalidateByPrefix BookService.CACHE_KEY_SEARCH_PREFIX
      (CacheService.invalidateByPrefix BookService.CACHE_KEY_LIST c) in
  (forall coverFile w',
     coverStored this metadata authorFolderId uploaded coverFile w3 w' ->
     BookService.registerBook this metadata fileContent fileMimeType (w, c)
     = (Ok (withCover uploaded (DriveFile.id coverFile)), (w', c'))) /\
  exists file w',
    BookService.registerBook this metadata fileContent fileMimeType (w, c)
      = (Ok file, (w', c')) /\
    (file = uploaded \/
     exists coverFile,
       coverStored this metadata authorFolderId uploaded coverFile w3 w' /\
       file = withCover uploaded (DriveFile.id coverFile)).
Proof.
  intros Hlib Hauthor Hup c'.
  assert (Hstart : forall r,
    (let* file' :=
       if JS.truthy (BookMetadata.coverImageUrl metadata) then
         try_catch
           (let* coverData :=
              BookService.fetchCoverImage this (BookMetadata.coverImageUrl metadata) in
            match coverData with
            | Some coverData =>
                let* coverFile :=
                  liftL (GoogleDriveService.uploadCoverImage drive authorFolderId
                           (coverFileName uploaded) coverData (JS.lit "image/jpeg")) in
                let* _ :=
                  liftL (GoogleDriveService.updateFileProperties drive
                           (DriveFile.id uploaded)
                           (<[Key.cover_file_id := DriveFile.id coverFile]>
                              (properties metadata))) in
                ret (withCover uploaded (DriveFile.id coverFile))
            | None => ret uploaded
            end)
           (fun _ => ret uploaded)
       else ret uploaded in
     let* _ := BookService.invalidateListCache in
     ret file') (w3, c) = r ->
    BookService.registerBook this metadata fileContent fileMimeType (w, c) = r).
  { intros r <-. unfold BookService.registerBook.
    rewrite (bind_run _ _ _ _ _ (liftL_run _ _ _ _ c Hlib)).
    rewrite (bind_run _ _ _ _ _ (liftL_run _ _ _ _ c Hauthor)).
    unfold properties, fileName in Hup.
    rewrite (bind_run _ _ _ _ _ (liftL_run _ _ _ _ c Hup)).
    reflexivity. }
  split.
  - intros coverFile w'
      (res & wa & coverData & wb & wc & updated & Hurl & Hfetch & Hok & Hbuf & Hcover
       & Hprops).
    apply Hstart. rewrite Hurl.
    unfold bind at 1, try_catch, bind at 1, BookService.fetchCoverImage, try_catch,
      bind at 1.
    rewrite (liftL_run _ _ _ _ c Hfetch), Hok. cbn [negb].
    rewrite (bind_run _ _ _ _ _ (liftL_run _ _ _ _ c Hbuf)).
    unfold ret at 1.
    rewrite (bind_run _ _ _ _ _ (liftL_run _ _ _ _ c Hcover)).
    rewrite (bind_run _ _ _ _ _ (liftL_run _ _ _ _ c Hprops)).
    reflexivity.
  - destruct (JS.truthy (BookMetadata.coverImageUrl metadata)) eqn:Hurl.
    2:{ exists uploaded, w3. split; [|left; reflexivity].
        apply Hstart. reflexivity. }
    destruct (BookService.fetch this (BookMetadata.coverImageUrl metadata) w3)
      as [[res|e] wa] eqn:Hfetch.
    2:{ exists uploaded, wa. split; [|left; reflexivity].
        apply Hstart.
        unfold bind at 1, try_catch, bind at 1, BookService.fetchCoverImage, try_catch,
          bind at 1.
        rewrite liftL_any, Hfetch. reflexivity. }
    destruct (Response.ok res) eqn:Hok.
    2:{ exists uploaded, wa. split; [|left; reflexivity].
        apply Hstart.
        unfold bind at 1, try_catch, bind at 1, BookService.fetchCoverImage, try_catch,
          bind at 1.
        rewrite liftL_any, Hfetch. cbn [fst snd]. rewrite Hok. reflexivity. }
    destruct (Response.arrayBuffer res wa) as [[coverData|e] wb] eqn:Hbuf.
    2:{ exists uploaded, wb. split; [|left; reflexivity].
        apply Hstart.
        unfold bind at 1, try_catch, bind at 1, BookService.fetchCoverImage, try_catch,
          bind at 1.
        rewrite liftL_any, Hfetch. cbn [fst snd]. rewrite Hok. cbn [negb].
        unfold bind at 1. rewrite liftL_any, Hbuf. reflexivity. }
    destruct (GoogleDriveService.uploadCoverImage drive authorFolderId
                (coverFileName uploaded) coverData (JS.lit "image/jpeg") wb)
      as [[coverFile|e] wc] eqn:Hcover.
    2:{ exists uploaded, wc. split; [|left; reflexivity].
        apply Hstart.
        unfold bind at 1, try_catch, bind at 1, BookService.fetchCoverImage, try_catch,
          bind at 1.
        rewrite liftL_any, Hfetch. cbn [fst snd]. rewrite Hok. cbn [negb].
        rewrite (bind_run _ _ _ _ _ (liftL_run _ _ _ _ c Hbuf)).
        unfold ret at 1. unfold bind at 1. rewrite liftL_any, Hcover. reflexivity. }
    destruct (GoogleDriveService.updateFileProperties drive (DriveFile.id uploaded)
                (<[Key.cover_file_id := DriveFile.id coverFile]> (properties metadata))
                wc) as [[updated|e] wd] eqn:Hprops.
    2:{ exists uploaded, wd. split; [|left; reflexivity].
        apply Hstart.
        unfold bind at 1, try_catch, bind at 1, BookService.fetchCoverImage, try_catch,
          bind at 1.
        rewrite liftL_any, Hfetch. cbn [fst snd]. rewrite Hok. cbn [negb].
        rewrite (bind_run _ _ _ _ _ (liftL_run _ _ _ _ c Hbuf)).
        unfold ret at 1.
        rewrite (bind_run _ _ _ _ _ (liftL_run _ _ _ _ c Hcover)).
        unfold bind at 1. rewrite liftL_any, Hprops. reflexivity. }
    exists (withCover uploaded (DriveFile.id coverFile)), wd.
    assert (Hstored : coverStored this metadata authorFolderId uploaded coverFile w3 wd).
    { exists res, wa, coverData, wb, wc, updated. repeat split; assumption. }
    split; [|right; exists coverFile; split; [exact Hstored|reflexivity]].
    apply Hstart.
    unfold bind at 1, try_catch, bind at 1, BookService.fetchCoverImage, try_catch,
      bind at 1.
    rewrite (liftL_run _ _ _ _ c Hfetch), Hok. cbn [negb].
    rewrite (bind_run _ _ _ _ _ (liftL_run _ _ _ _ c Hbuf)).
    unfold ret at 1.
    rewrite (bind_run _ _ _ _ _ (liftL_run _ _ _ _ c Hcover)).
    rewrite (bind_run _ _ _ _ _ (liftL_run _ _ _ _ c Hprops)).
    reflexivity.
Qed.

End RegisterCover.

(** A book with a cover address is registered with a network that
    answers: the cover is stored as [file_4] and its id is among the
    properties of the file returned.  With no network the download
    fails, and the book is registered without a cover. *)
Lemma registerBook_survives_cover_failure_witness :
  (exists file s',
     BookService.registerBook OnlineExamples.bookService MetadataExamples.complete
       [1; 2; 3] LibraryExamples.EPUB
       (LibraryExamples.emptyStore, LibraryExamples.warmCache) = (Ok file, s') /\
     DriveFile.properties file !! Key.cover_file_id = Some (JS.lit "file_4")) /\
  (exists file s',
     BookService.registerBook LibraryExamples.bookService MetadataExamples.complete
       [1; 2; 3] LibraryExamples.EPUB
       (LibraryExamples.emptyStore, LibraryExamples.warmCache) = (Ok file, s') /\
     DriveFile.properties file !! Key.cover_file_id = None).
Proof.
  split.
  - edestruct (registerBook_survives_cover_failure OnlineExamples.bookService
                 MetadataExamples.complete [1; 2; 3] LibraryExamples.EPUB
                 LibraryExamples.emptyStore) as [Hstored _]; [run|run|run|].
    eexists _, _. split.
    + eapply (Hstored _ _).
      eexists _, _, _, _, _, _.
      split; [run|]. split; [run|]. split; [run|]. split; [run|]. split; [run|run].
    + run.
  - edestruct (registerBook_survives_cover_failure LibraryExamples.bookService
                 MetadataExamples.complete [1; 2; 3] LibraryExamples.EPUB
                 LibraryExamples.emptyStore) as [_ (file & w' & Hrun & _)];
      [run|run|run|].
    exists file. eexists. split; [exact Hrun|].
    revert Hrun. vm_compute. intros [= <- _]. reflexivity.
Defined.

(** The book registered with its cover is deleted: neither [file_3] nor
    the cover [file_4] can be read any more. *)
Lemma deleteBook_removes_book_and_cover_witness :
  exists s',
    BookService.deleteBook OnlineExamples.bookService (JS.lit "file_3")
      OnlineExamples.registered = (Ok tt, s') /\
    BookService.getBook OnlineExamples.bookService (JS.lit "file_3") s'
    = (Throw (JS.lit "File not found: file_3"), s') /\
    BookService.getCoverImageContent OnlineExamples.bookService (JS.lit "file_4") s'
    = (Throw (JS.lit "File not found: file_4"), s').
Proof.
  pose (r := BookService.deleteBook OnlineExamples.bookService (JS.lit "file_3")
               OnlineExamples.registered).
  assert (E : r = (Ok tt, (r.2.1, r.2.2))) by run.
  pose (g := MockGoogleDriveService.getFile (JS.lit "file_3")
               OnlineExamples.registered.1).
  assert (G : exists file, g = (Ok file, OnlineExamples.registered.1) /\
                DriveFile.properties file !! Key.cover_file_id = Some (JS.lit "file_4")).
  { eexists. split; run. }
  destruct G as (file & G & Hcover).
  destruct (deleteBook_removes_book_and_cover OnlineExamples.bookService eq_refl
              (JS.lit "file_3") OnlineExamples.registered.1 r.2.1
              OnlineExamples.registered.2 r.2.2 E) as [Hbook Hgone].
  exists (r.2.1, r.2.2). split; [exact E|]. split; [exact Hbook|].
  exact (Hgone file (JS.lit "file_4") G Hcover ltac:(discriminate)).
Defined.

(** *** The same on the mock store *)

Section UnitStepsIntro.
Import CalibreMigrator UnitSteps.
Context (parseMetadataOpf : list Z -> PartialMetadata.t).
Context {W : Type} (this : CalibreMigrator.t W).

Lemma metadataRead_document (files : list DriveFile.t) (opfFile : DriveFile.t)
    (content : list Z) (w w' : W) :
  find (named (JS.lit "metadata.opf")) files = Some opfFile ->
  GoogleDriveService.getFileContent (driveService this) (DriveFile.id opfFile) w
    = (Ok content, w') ->
  metadataRead parseMetadataOpf this files w
    (parseMetadataOpf (Utf8.decode content)) w'.
Proof.
  intros Hfind Hcontent. unfold metadataRead. rewrite Hfind.
  exists content. split; [exact Hcontent|reflexivity].
Qed.

Lemma metadataRead_none (files : list DriveFile.t) (w : W) :
  find (named (JS.lit "metadata.opf")) files = None ->
  metadataRead parseMetadataOpf this files w PartialMetadata.empty w.
Proof. intros Hfind. unfold metadataRead. rewrite Hfind. split; reflexivity. Qed.

Lemma isbnProbed_asked (metadata : PartialMetadata.t) (w w' : W)
    (existing : option DriveFile.t) :
  BookService.truthy_undefined (PartialMetadata.isbn metadata) = true ->
  GoogleDriveService.findBookByIsbn (BookService.driveService (bookService this))
    (default [] (PartialMetadata.isbn metadata)) w = (Ok existing, w') ->
  isbnProbed this metadata w existing w'.
Proof. intros Ht H. unfold isbnProbed. rewrite Ht. exact H. Qed.

Lemma isbnProbed_skipped (metadata : PartialMetadata.t) (w : W) :
  BookService.truthy_undefined (PartialMetadata.isbn metadata) = false ->
  isbnProbed this metadata w None w.
Proof. intros Ht. unfold isbnProbed. rewrite Ht. split; reflexivity. Qed.

End UnitStepsIntro.

(** A unit of the tests' library, with its metadata document and its
    isbn not yet registered, gets to the download. *)
Ltac prepare :=
  eexists _, _; split; [run|];
  split; [eapply metadataRead_document; [run|run]|];
  split; [eapply isbnProbed_asked; [run|run]|];
  split; [run|discriminate].


Section UnitFailuresExamples.
Import CalibreExamples.

(** The test MGRSCRIPT-12, three books of which the second cannot be
    listed: the unit is an error with the message of the store, and the
    run reports 3 units, 1 error.  And a book whose cover cannot be
    uploaded: the unit is succeeded. *)
Lemma unit_failures_do_not_stop_the_run_witness :
  CalibreMigrator.migrateUnit lowerAscii Opf.parseMetadataOpf (migrator "bf-book2")
    (MockGoogleDriveService.file
       (entry "bf-book2" "Book 2 (2020)" FOLDER "af-author2" None).2)
    MigrationOptions.default state
  = (Ok (MigrationDetail.Build (JS.lit "Book 2 (2020)") MigrationDetail.error
           (Some (JS.lit "API Error for specific folder"))), state) /\
  (exists s',
     CalibreMigrator.migrateUnit lowerAscii Opf.parseMetadataOpf
       CoverExamples.failingMigrator CoverExamples.bookFolder
       MigrationOptions.default CoverExamples.state
     = (Ok (MigrationDetail.Build (JS.lit "Book 1") MigrationDetail.succeeded None),
        s')) /\
  exists result s',
    migrate "bf-book2" MigrationOptions.default = (Ok result, s') /\
    MigrationResult.total result = 3%nat /\
    MigrationResult.succeeded result = 2%nat /\
    MigrationResult.errors result = 1%nat /\
    map MigrationDetail.status (MigrationResult.details result)
    = [MigrationDetail.succeeded; MigrationDetail.error; MigrationDetail.succeeded].
Proof.
  split; [|split].
  - destruct (unit_failures_do_not_stop_the_run lowerAscii Opf.parseMetadataOpf
                (migrator "bf-book2")) as (Hthrow & _ & _).
    apply (Hthrow (MockGoogleDriveService.file
                     (entry "bf-book2" "Book 2 (2020)" FOLDER "af-author2" None).2)
                  MigrationOptions.default library state.2
                  (JS.lit "API Error for specific folder") state).
    apply UnitSteps.listing_throws. run.
  - destruct (unit_failures_do_not_stop_the_run lowerAscii Opf.parseMetadataOpf
                CoverExamples.failingMigrator) as (_ & Hcover & _).
    eexists. etransitivity.
    + eapply (Hcover CoverExamples.bookFolder MigrationOptions.default
                CoverExamples.libraryWithCover CoverExamples.state.2);
        [prepare|run|run|run|].
      eapply UnitSteps.cover_upload_throws; [run|run].
    + run.
  - assert (Hwalk : exists authorFolders s0 visits stopped s',
      liftL (GoogleDriveService.findFilesByParent
               (CalibreMigrator.driveService (migrator "bf-book2")) (JS.lit "source"))
            state = (Ok authorFolders, s0) /\
      CalibreMigrator.authorsWalk lowerAscii Opf.parseMetadataOpf (migrator "bf-book2")
        MigrationOptions.default 0 s0 authorFolders visits stopped s').
    { eexists _, _, _, _, _. split; [run|walk_authors]. }
    destruct Hwalk as (authorFolders & s0 & visits & stopped & s' & Hlist & Hwalk).
    destruct (unit_failures_do_not_stop_the_run lowerAscii Opf.parseMetadataOpf
                (migrator "bf-book2")) as (_ & _ & Hgoes).
    destruct (Hgoes _ _ _ _ _ _ _ _ Hlist Hwalk) as (_ & result & Hrun & _).
    exists result, s'. split; [exact Hrun|].
    revert Hrun. vm_compute. intros [= <- _]. repeat split.
Defined.

(** C2 as it is stated fails for the cover step.  The first book of the
    library has a [cover.jpg], and the store throws when a cover is
    uploaded: the unit is recorded as succeeded, not as an error with
    that message, and the report of the run counts no error. *)
Lemma cover_failure_is_not_an_error :
  ~ (forall (W : Type) (this : CalibreMigrator.t W) (toLowerCase : list Z -> list Z)
            (parseMetadataOpf : list Z -> PartialMetadata.t)
            (bookFolder : DriveFile.t) (options : MigrationOptions.t) (w : W)
            (ch : CacheService.t DriveFileList.t) (files : list DriveFile.t)
            (metadata : PartialMetadata.t) (bookFile : DriveFile.t) (w3 : W)
            (bookContent : list Z) (w4 : W) (registeredFile : DriveFile.t)
            (s5 : W * CacheService.t DriveFileList.t) (coverFile : DriveFile.t)
            (e : list Z) (w6 : W) (detail : MigrationDetail.t)
            (s' : W * CacheService.t DriveFileList.t),
       UnitSteps.prepared toLowerCase parseMetadataOpf this (DriveFile.id bookFolder)
         options w files metadata bookFile w3 ->
       GoogleDriveService.getFileContent (CalibreMigrator.driveService this)
         (DriveFile.id bookFile) w3 = (Ok bookContent, w4) ->
       BookService.registerBook (CalibreMigrator.bookService this)
         (UnitSteps.fullMetadata metadata (DriveFile.name bookFolder)) bookContent
         (CalibreMigrator.getMimeType toLowerCase (DriveFile.name bookFile)) (w4, ch)
         = (Ok registeredFile, s5) ->
       find (CalibreMigrator.named (JS.lit "cover.jpg")) files = Some coverFile ->
       UnitSteps.coverThrows this coverFile registeredFile s5.1 e w6 ->
       CalibreMigrator.migrateUnit toLowerCase parseMetadataOpf this bookFolder
         options (w, ch) = (Ok detail, s') ->
       MigrationDetail.status detail = MigrationDetail.error /\
       MigrationDetail.reason detail = Some e) /\
  exists result s',
    CalibreMigrator.migrate lowerAscii Opf.parseMetadataOpf
      CoverExamples.failingMigrator (JS.lit "source") MigrationOptions.default
      CoverExamples.state = (Ok result, s') /\
    MigrationResult.total result = 2%nat /\
    MigrationResult.errors result = 0%nat /\
    map MigrationDetail.status (MigrationResult.details result)
    = [MigrationDetail.succeeded; MigrationDetail.skipped].
Proof.
  split.
  - intros H.
    edestruct (H _ CoverExamples.failingMigrator lowerAscii Opf.parseMetadataOpf
                 CoverExamples.bookFolder MigrationOptions.default
                 CoverExamples.libraryWithCover CoverExamples.state.2) as [Hs _];
      [prepare|run|run|run|eapply UnitSteps.cover_upload_throws; [run|run]|run|].
    revert Hs. vm_compute. discriminate.
  - eexists _, _. split; [run|]. repeat split.
Qed.

(** The same book with a store that cannot upload a cover: the book is
    registered without one.  And the test MGRSCRIPT-06, on the mock
    store as it is: the cover is uploaded as [file_4] and its id
    written. *)
Lemma migrateBook_survives_cover_failure_witness :
  (exists s',
     CalibreMigrator.migrateBook lowerAscii Opf.parseMetadataOpf
       CoverExamples.failingMigrator (JS.lit "bf-book1") (JS.lit "Book 1 (2020)")
       MigrationOptions.default CoverExamples.state
     = (Ok (MigrationDetail.Build (JS.lit "Book 1") MigrationDetail.succeeded None),
        s') /\
     exists registered,
       MockGoogleDriveService.findBookByIsbn (JS.lit "9780000001001") s'.1
         = (Ok (Some registered), s'.1) /\
       DriveFile.properties registered !! Key.cover_file_id = None) /\
  (exists s',
     CalibreMigrator.migrateBook lowerAscii Opf.parseMetadataOpf
       (migrator EmptyString) (JS.lit "bf-book1") (JS.lit "Book 1 (2020)")
       MigrationOptions.default CoverExamples.state
     = (Ok (MigrationDetail.Build (JS.lit "Book 1") MigrationDetail.succeeded None),
        s') /\
     exists registered,
       MockGoogleDriveService.findBookByIsbn (JS.lit "9780000001001") s'.1
         = (Ok (Some registered), s'.1) /\
       DriveFile.properties registered !! Key.cover_file_id = Some (JS.lit "file_4")).
Proof.
  split.
  - edestruct (migrateBook_survives_cover_failure lowerAscii Opf.parseMetadataOpf
                 CoverExamples.failingMigrator (JS.lit "bf-book1")
                 (JS.lit "Book 1 (2020)") MigrationOptions.default
                 CoverExamples.libraryWithCover CoverExamples.state.2)
      as [Hthrows _]; [prepare|run|run|run|].
    eexists. split.
    + etransitivity;
        [eapply Hthrows; eapply UnitSteps.cover_upload_throws; [run|run]|run].
    + eexists. split; run.
  - edestruct (migrateBook_survives_cover_failure lowerAscii Opf.parseMetadataOpf
                 (migrator EmptyString) (JS.lit "bf-book1")
                 (JS.lit "Book 1 (2020)") MigrationOptions.default
                 CoverExamples.libraryWithCover CoverExamples.state.2)
      as [_ Hdone]; [prepare|run|run|run|].
    eexists. split.
    + etransitivity.
      * eapply Hdone.
        -- run.
        -- run.
        -- run.
      * run.
    + eexists. split; run.
Defined.

(** After the first book of the library has been migrated, it is a
    duplicate: three reading calls.  And a folder that holds notes only
    is skipped after its listing. *)
Lemma skipped_units_are_only_read_witness :
  let s1 :=
    (CalibreMigrator.migrateBook lowerAscii Opf.parseMetadataOpf (migrator EmptyString)
       (JS.lit "bf-book1") (JS.lit "Book 1 (2020)") MigrationOptions.default state).2 in
  CalibreMigrator.migrateBook lowerAscii Opf.parseMetadataOpf
    (MigratorSpec.spied (migrator EmptyString))
    (JS.lit "bf-book1") (JS.lit "Book 1 (2020)") MigrationOptions.default
    ((s1.1, []), s1.2)
  = (Ok (MigrationDetail.Build (JS.lit "Book 1") MigrationDetail.skipped
           (Some CalibreMigrator.REASON_DUPLICATE)),
     ((s1.1, [Spy.FindFilesByParent (JS.lit "bf-book1");
              Spy.GetFileContent (JS.lit "opf-bf-book1");
              Spy.FindBookByIsbn (JS.lit "9780000001001")]), s1.2)) /\
  CalibreMigrator.migrateBook lowerAscii Opf.parseMetadataOpf
    (MigratorSpec.spied (migrator EmptyString))
    (JS.lit "bf-notes") (JS.lit "Notes") MigrationOptions.default
    ((CoverExamples.libraryWithCover, []), CoverExamples.state.2)
  = (Ok (MigrationDetail.Build (JS.lit "Notes") MigrationDetail.skipped
           (Some CalibreMigrator.REASON_NO_FILE)),
     ((CoverExamples.libraryWithCover, [Spy.FindFilesByParent (JS.lit "bf-notes")]),
      CoverExamples.state.2)).
Proof.
  intros s1. split.
  - etransitivity.
    + eapply (skipped_units_are_only_read lowerAscii Opf.parseMetadataOpf
                (migrator EmptyString) (JS.lit "bf-book1") (JS.lit "Book 1 (2020)")
                MigrationOptions.default s1.1 _ _ _ [] s1.2);
        [run|eapply metadataRead_document; [run|run]
        |eapply isbnProbed_asked; [run|run]|].
      discriminate.
    + run.
  - etransitivity.
    + eapply (skipped_units_are_only_read lowerAscii Opf.parseMetadataOpf
                (migrator EmptyString) (JS.lit "bf-notes") (JS.lit "Notes")
                MigrationOptions.default CoverExamples.libraryWithCover _ _ _ []
                CoverExamples.state.2);
        [run|eapply metadataRead_none; run|eapply isbnProbed_skipped; run|].
      intros _. run.
    + run.
Defined.

(** The three books of the tests' library with a limit of 1.5: two are
    processed.  With the limit [NaN] the run is the run without a
    limit. *)
Lemma limit_bounds_the_run_witness :
  (exists result s',
     CalibreMigrator.migrate lowerAscii Opf.parseMetadataOpf (migrator EmptyString)
       (JS.lit "source") (MigrationOptions.Build None (Some (Number.Finite (3 # 2))))
       state = (Ok result, s') /\
     MigrationResult.total result = 2%nat /\
     Z.of_nat (MigrationResult.total result) <= 2) /\
  CalibreMigrator.migrate lowerAscii Opf.parseMetadataOpf (migrator EmptyString)
    (JS.lit "source") (MigrationOptions.Build None (Some Number.NaN)) state
  = CalibreMigrator.migrate lowerAscii Opf.parseMetadataOpf (migrator EmptyString)
      (JS.lit "source") (MigrationOptions.Build None None) state.
Proof.
  destruct (limit_bounds_the_run lowerAscii Opf.parseMetadataOpf (migrator EmptyString))
    as [Hbound Hnone].
  split.
  - pose (r := CalibreMigrator.migrate lowerAscii Opf.parseMetadataOpf
                 (migrator EmptyString) (JS.lit "source")
                 (MigrationOptions.Build None (Some (Number.Finite (3 # 2)))) state).
    assert (E : exists result, r = (Ok result, r.2)) by (eexists; run).
    destruct E as [result E]. exists result, r.2. split; [exact E|].
    split; [revert E; vm_compute; intros [= <-]; reflexivity|].
    exact (proj2 (Hbound (JS.lit "source")
                    (MigrationOptions.Build None (Some (Number.Finite (3 # 2))))
                    (Number.Finite (3 # 2)) state r.2 result eq_refl E)).
  - exact (Hnone (JS.lit "source") None Number.NaN state (or_introl eq_refl)).
Defined.

End UnitFailuresExamples.
